(** * SmartRefferal: model acquisition, integrity verification and the
      encrypted local cache

    A shallow embedding of [src/lib/crypto.ts], [src/lib/storage.ts],
    [src/lib/capabilities.ts] and [src/lib/model-manager.ts], of the runtime
    instances and the fallback heuristics of [src/lib/wasm-runtime.ts], and
    of the licence check of [scripts/verfiy-model-licenses.js].

    Conventions of the embedding:
    - a [Blob] or [Uint8Array] is a [list byte];
    - byte counters that the code only ever adds array lengths to are [Z];
      every other JavaScript number is a [number]: an exact rational, one of
      the two infinities, or NaN (the rounding of IEEE doubles is not
      modelled, nor is the sign of zero);
    - identifiers, checksums, URLs and messages are [string]s of 8-bit code
      units; the plaintext handled by [encrypt]/[decrypt] is a sequence of
      UTF-16 code units ([ustring]);
    - the IndexedDB object stores are [gmap]s keyed by their key path;
    - [await]ed calls are sequenced; a rejected promise is the [Throw]
      outcome of the error monad below;
    - the platform (Web Crypto, [fetch], [navigator.storage]) is either
      implemented after its standard (SHA-256, base64, UTF-8) or passed
      in as an argument ([fetch], the storage estimate, the navigator,
      AES-GCM, PBKDF2, [JSON] on referrals);
    - the module variables of [wasm-runtime.ts] are a [Runtime] that the
      functions take and give back. *)

From Stdlib Require Import ZArith QArith Qcanon Lia List DecimalString.
From Stdlib.Strings Require Import Byte Ascii String.
From Stdlib Require Import ZifyNat.
From stdpp Require Import gmap strings list.

Local Open Scope Z_scope.

(* ===================================================================== *)
(** * Bytes *)
(* ===================================================================== *)

Definition byte_val (b : byte) : Z := Z.of_N (Byte.to_N b).

Definition byte_of_Z (z : Z) : byte :=
  match Byte.of_N (Z.to_N (z mod 256)) with
  | Some b => b
  | None => x00
  end.

Definition Blob : Type := list byte.
Definition Uint8Array : Type := list byte.

(* ===================================================================== *)
(** * SHA-256 (FIPS 180-4), the digest behind [crypto.subtle.digest] *)
(* ===================================================================== *)

Module SHA256.

Definition w32 (x : Z) : Z := x mod 2 ^ 32.

Definition rotr (n x : Z) : Z :=
  w32 (Z.lor (Z.shiftr x n) (Z.shiftl x (32 - n))).

Definition Ch (x y z : Z) : Z :=
  Z.lxor (Z.land x y) (Z.land (Z.lxor x (2 ^ 32 - 1)) z).

Definition Maj (x y z : Z) : Z :=
  Z.lxor (Z.lxor (Z.land x y) (Z.land x z)) (Z.land y z).

Definition Sigma0 (x : Z) : Z := Z.lxor (Z.lxor (rotr 2 x) (rotr 13 x)) (rotr 22 x).
Definition Sigma1 (x : Z) : Z := Z.lxor (Z.lxor (rotr 6 x) (rotr 11 x)) (rotr 25 x).
Definition sigma0 (x : Z) : Z := Z.lxor (Z.lxor (rotr 7 x) (rotr 18 x)) (Z.shiftr x 3).
Definition sigma1 (x : Z) : Z := Z.lxor (Z.lxor (rotr 17 x) (rotr 19 x)) (Z.shiftr x 10).

(** The first sixty-four primes. *)
Definition is_prime (n : Z) : bool :=
  (1 <? n) && forallb (fun d => negb (n mod d =? 0)) (map Z.of_nat (seq 2 (Z.to_nat n - 2))).

Definition primes : list Z :=
  Eval vm_compute in firstn 64 (List.filter is_prime (map Z.of_nat (seq 2 310))).

(** Integer cube root, one bit at a time from bit [n - 1] down. *)
Fixpoint cube_root (n : nat) (x r : Z) : Z :=
  match n with
  | O => r
  | S n' =>
      let c := r + 2 ^ Z.of_nat n' in
      cube_root n' x (if c * c * c <=? x then c else r)
  end.

(** Round constants: the first 32 bits of the fractional parts of the cube
    roots of the primes. *)
Definition K : list Z :=
  Eval vm_compute in map (fun p => w32 (cube_root 40 (p * 2 ^ 96) 0)) primes.

(** The working variables a..h, also the running hash value. *)
Record state := St { ha : Z; hb : Z; hc : Z; hd : Z; he : Z; hf : Z; hg : Z; hh : Z }.

(** Initial hash value: the first 32 bits of the fractional parts of the
    square roots of the first eight primes. *)
Definition frac_sqrt (p : Z) : Z := w32 (Z.sqrt (p * 2 ^ 64)).

Definition H0 : state :=
  St (frac_sqrt 2) (frac_sqrt 3) (frac_sqrt 5) (frac_sqrt 7)
     (frac_sqrt 11) (frac_sqrt 13) (frac_sqrt 17) (frac_sqrt 19).

(** Message padding: a 1 bit, zeros up to 56 mod 64 bytes, then the
    length in bits as a 64-bit big-endian integer. *)
Definition be_bytes (n : nat) (x : Z) : list Z :=
  map (fun i => Z.shiftr x (8 * Z.of_nat i) mod 256) (rev (seq 0 n)).

Definition pad (msg : list Z) : list Z :=
  let len := Z.of_nat (length msg) in
  let zeros := Z.to_nat ((55 - len) mod 64) in
  msg ++ [0x80] ++ repeat 0 zeros ++ be_bytes 8 (8 * len).

Fixpoint be_words (fuel : nat) (bs : list Z) : list Z :=
  match fuel, bs with
  | S fuel', b0 :: b1 :: b2 :: b3 :: rest =>
      (b0 * 2 ^ 24 + b1 * 2 ^ 16 + b2 * 2 ^ 8 + b3) :: be_words fuel' rest
  | _, _ => []
  end.

(** Message schedule: [w] is the window of the sixteen latest words,
    oldest first; the result is W_t, W_t+1, ... *)
Fixpoint schedule (n : nat) (w : list Z) : list Z :=
  match n, w with
  | S n', w0 :: rest =>
      let wnew := w32 (sigma1 (nth 13 rest 0) + nth 8 rest 0
                       + sigma0 (nth 0 rest 0) + w0) in
      w0 :: schedule n' (rest ++ [wnew])
  | _, _ => []
  end.

Definition round (s : state) (kw : Z * Z) : state :=
  let t1 := w32 (hh s + Sigma1 (he s) + Ch (he s) (hf s) (hg s) + fst kw + snd kw) in
  let t2 := w32 (Sigma0 (ha s) + Maj (ha s) (hb s) (hc s)) in
  St (w32 (t1 + t2)) (ha s) (hb s) (hc s) (w32 (hd s + t1)) (he s) (hf s) (hg s).

Definition compress (h : state) (block : list Z) : state :=
  let s := fold_left round (combine K (schedule 64 block)) h in
  St (w32 (ha h + ha s)) (w32 (hb h + hb s)) (w32 (hc h + hc s)) (w32 (hd h + hd s))
     (w32 (he h + he s)) (w32 (hf h + hf s)) (w32 (hg h + hg s)) (w32 (hh h + hh s)).

Fixpoint blocks (fuel : nat) (h : state) (ws : list Z) : state :=
  match fuel, ws with
  | S fuel', _ :: _ => blocks fuel' (compress h (firstn 16 ws)) (skipn 16 ws)
  | _, _ => h
  end.

Definition digest (msg : list byte) : list byte :=
  let p := pad (map byte_val msg) in
  let ws := be_words (length p) p in
  let h := blocks (length ws) H0 ws in
  map byte_of_Z
    (flat_map (be_bytes 4) [ha h; hb h; hc h; hd h; he h; hf h; hg h; hh h]).

End SHA256.

(* ===================================================================== *)
(** * crypto.ts: checksums *)
(* ===================================================================== *)

Definition hex_digit (d : Z) : ascii :=
  ascii_of_nat (Z.to_nat (if d <? 10 then 48 + d else 87 + d)).

(** [b.toString(16)] for a non-negative integer: no leading zeros, "0" for 0. *)
Fixpoint toString16_pos (fuel : nat) (n : Z) (acc : string) : string :=
  match fuel with
  | O => acc
  | S fuel' =>
      if n =? 0 then acc
      else toString16_pos fuel' (n / 16) (String (hex_digit (n mod 16)) acc)
  end.

Definition toString16 (n : Z) : string :=
  if n =? 0 then "0"%string else toString16_pos (Z.to_nat n) n EmptyString.

(** [s.padStart(n, c)] with a one-character filler. *)
Definition padStart (n : nat) (c : ascii) (s : string) : string :=
  string_of_list_ascii (repeat c (n - String.length s)) +:+ s.

(** [Array.from(buffer).map(b => b.toString(16).padStart(2, '0')).join('')] *)
Definition bufferToHex (buffer : Uint8Array) : string :=
  fold_right String.append EmptyString
    (map (fun b => padStart 2 "0"%char (toString16 (byte_val b))) buffer).

Definition computeChecksum (blob : Blob) : string :=
  bufferToHex (SHA256.digest blob).

(** [String.prototype.toLowerCase] / [toUpperCase] on the code units below
    128; the code units above are left as they are. No character outside
    A-F has a hexadecimal digit as its lower-case form, so the outcome of
    [verifyChecksum] does not depend on them. *)
Definition lower_ascii (c : ascii) : ascii :=
  let n := nat_of_ascii c in
  if ((65 <=? n) && (n <=? 90))%nat then ascii_of_nat (n + 32) else c.

Definition upper_ascii (c : ascii) : ascii :=
  let n := nat_of_ascii c in
  if ((97 <=? n) && (n <=? 122))%nat then ascii_of_nat (n - 32) else c.

Fixpoint toLowerCase (s : string) : string :=
  match s with
  | EmptyString => EmptyString
  | String c s' => String (lower_ascii c) (toLowerCase s')
  end.

Fixpoint toUpperCase (s : string) : string :=
  match s with
  | EmptyString => EmptyString
  | String c s' => String (upper_ascii c) (toUpperCase s')
  end.

(** [actualChecksum === expectedChecksum.toLowerCase()] *)
Definition verifyChecksum (blob : Blob) (expectedChecksum : string) : bool :=
  bool_decide (computeChecksum blob = toLowerCase expectedChecksum).

Definition bytes_of_string (s : string) : list byte :=
  map byte_of_ascii (list_ascii_of_string s).

(* ===================================================================== *)
(** * crypto.ts: base64 ([btoa], [atob]) *)
(* ===================================================================== *)

Definition char_code (c : ascii) : Z := Z.of_nat (nat_of_ascii c).
Definition char_of_code (z : Z) : ascii := ascii_of_nat (Z.to_nat z).

Definition b64_alphabet : string :=
  "ABCDEFGHIJKLMNOPQRSTUVWXYZabcdefghijklmnopqrstuvwxyz0123456789+/".

Definition b64_char (v : Z) : ascii :=
  match String.get (Z.to_nat v) b64_alphabet with
  | Some c => c
  | None => "="%char
  end.

Definition b64_value (c : ascii) : option Z :=
  let n := char_code c in
  if (65 <=? n) && (n <=? 90) then Some (n - 65)
  else if (97 <=? n) && (n <=? 122) then Some (n - 71)
  else if (48 <=? n) && (n <=? 57) then Some (n + 4)
  else if n =? 43 then Some 62
  else if n =? 47 then Some 63
  else None.

(** Three octets make four sextets; one or two left-over octets are padded. *)
Fixpoint btoa_groups (bs : list Z) : list ascii :=
  match bs with
  | [] => []
  | [a] => [b64_char (a / 4); b64_char (a mod 4 * 16); "="%char; "="%char]
  | [a; b] =>
      [b64_char (a / 4); b64_char (a mod 4 * 16 + b / 16); b64_char (b mod 16 * 4); "="%char]
  | a :: b :: c :: rest =>
      b64_char (a / 4) :: b64_char (a mod 4 * 16 + b / 16)
      :: b64_char (b mod 16 * 4 + c / 64) :: b64_char (c mod 64) :: btoa_groups rest
  end.

(** [btoa] on a binary string (every code unit below 256). *)
Definition btoa (s : string) : string :=
  string_of_list_ascii (btoa_groups (map char_code (list_ascii_of_string s))).

(** [String.fromCharCode(...buffer)] *)
Definition fromCharCode (buffer : Uint8Array) : string :=
  string_of_list_ascii (map (fun b => char_of_code (byte_val b)) buffer).

Definition bufferToBase64 (buffer : Uint8Array) : string := btoa (fromCharCode buffer).

Definition is_ascii_whitespace (c : ascii) : bool :=
  let n := char_code c in
  (n =? 9) || (n =? 10) || (n =? 12) || (n =? 13) || (n =? 32).

Definition is_pad (c : ascii) : bool := char_code c =? 61.

(** Forgiving-base64 decode, step 2: when the length is a multiple of four,
    one or two trailing "=" are removed. *)
Definition strip_padding (cs : list ascii) : list ascii :=
  if (Z.of_nat (length cs) mod 4 =? 0)
  then match rev cs with
       | c1 :: c2 :: r =>
           if is_pad c1 then (if is_pad c2 then rev r else rev (c2 :: r)) else cs
       | [c1] => if is_pad c1 then [] else cs
       | [] => cs
       end
  else cs.

Fixpoint b64_values (cs : list ascii) : option (list Z) :=
  match cs with
  | [] => Some []
  | c :: r =>
      match b64_value c, b64_values r with
      | Some v, Some vs => Some (v :: vs)
      | _, _ => None
      end
  end.

(** Four sextets make three octets; of two or three left-over sextets the
    surplus bits are dropped. *)
Fixpoint decode_groups (vs : list Z) : list Z :=
  match vs with
  | a :: b :: c :: d :: rest =>
      (a * 4 + b / 16) :: (b mod 16 * 16 + c / 4) :: (c mod 4 * 64 + d) :: decode_groups rest
  | [a; b; c] => [a * 4 + b / 16; b mod 16 * 16 + c / 4]
  | [a; b] => [a * 4 + b / 16]
  | _ => []
  end.

(** [atob]: [None] stands for the InvalidCharacterError it throws. *)
Definition atob (s : string) : option string :=
  let cs :=
    strip_padding
      (List.filter (fun c => negb (is_ascii_whitespace c)) (list_ascii_of_string s)) in
  if Z.of_nat (length cs) mod 4 =? 1 then None
  else match b64_values cs with
       | Some vs => Some (string_of_list_ascii (map char_of_code (decode_groups vs)))
       | None => None
       end.

(** [Uint8Array.from(atob(base64), c => c.charCodeAt(0))] *)
Definition base64ToBuffer (base64 : string) : option Uint8Array :=
  match atob base64 with
  | Some s => Some (map (fun c => byte_of_Z (char_code c)) (list_ascii_of_string s))
  | None => None
  end.

(* ===================================================================== *)
(** * crypto.ts: [TextEncoder] and [TextDecoder] (UTF-8) *)
(* ===================================================================== *)

(** A JavaScript string: its UTF-16 code units. *)
Definition ustring : Type := list Z.

Definition is_high_surrogate (u : Z) : bool := (0xD800 <=? u) && (u <=? 0xDBFF).
Definition is_low_surrogate (u : Z) : bool := (0xDC00 <=? u) && (u <=? 0xDFFF).

(** The scalar values of a string; a surrogate that is not part of a pair
    becomes U+FFFD. *)
Fixpoint to_scalars (s : ustring) : list Z :=
  match s with
  | [] => []
  | u :: rest =>
      if is_high_surrogate u
      then match rest with
           | l :: rest' =>
               if is_low_surrogate l
               then (0x10000 + (u - 0xD800) * 0x400 + (l - 0xDC00)) :: to_scalars rest'
               else 0xFFFD :: to_scalars rest
           | [] => [0xFFFD]
           end
      else if is_low_surrogate u then 0xFFFD :: to_scalars rest
      else u :: to_scalars rest
  end.

Definition utf8_encode_scalar (c : Z) : list Z :=
  if c <? 0x80 then [c]
  else if c <? 0x800 then [0xC0 + c / 64; 0x80 + c mod 64]
  else if c <? 0x10000 then [0xE0 + c / 4096; 0x80 + c / 64 mod 64; 0x80 + c mod 64]
  else [0xF0 + c / 262144; 0x80 + c / 4096 mod 64; 0x80 + c / 64 mod 64; 0x80 + c mod 64].

(** [new TextEncoder().encode(s)] *)
Definition TextEncoder_encode (s : ustring) : Uint8Array :=
  map byte_of_Z (flat_map utf8_encode_scalar (to_scalars s)).

(** State of the UTF-8 decoder of the Encoding standard. *)
Record utf8_state := {
  code_point : Z;
  bytes_needed : Z;
  lower_boundary : Z;
  upper_boundary : Z
}.

Definition utf8_initial : utf8_state :=
  {| code_point := 0; bytes_needed := 0; lower_boundary := 0x80; upper_boundary := 0xBF |}.

(** A byte met when no sequence is open. *)
Definition utf8_lead (b : Z) : list Z * utf8_state :=
  if b <=? 0x7F then ([b], utf8_initial)
  else if (0xC2 <=? b) && (b <=? 0xDF)
  then ([], {| code_point := b mod 32; bytes_needed := 1;
               lower_boundary := 0x80; upper_boundary := 0xBF |})
  else if (0xE0 <=? b) && (b <=? 0xEF)
  then ([], {| code_point := b mod 16; bytes_needed := 2;
               lower_boundary := if b =? 0xE0 then 0xA0 else 0x80;
               upper_boundary := if b =? 0xED then 0x9F else 0xBF |})
  else if (0xF0 <=? b) && (b <=? 0xF4)
  then ([], {| code_point := b mod 8; bytes_needed := 3;
               lower_boundary := if b =? 0xF0 then 0x90 else 0x80;
               upper_boundary := if b =? 0xF4 then 0x8F else 0xBF |})
  else ([0xFFFD], utf8_initial).

(** One byte: the scalar values it completes, and the next state. A byte
    that cannot continue the open sequence ends it with U+FFFD and is then
    read as a lead byte. *)
Definition utf8_step (st : utf8_state) (b : Z) : list Z * utf8_state :=
  if bytes_needed st =? 0 then utf8_lead b
  else if (b <? lower_boundary st) || (upper_boundary st <? b)
  then (0xFFFD :: fst (utf8_lead b), snd (utf8_lead b))
  else
    let cp := code_point st * 64 + b mod 64 in
    if bytes_needed st =? 1 then ([cp], utf8_initial)
    else ([], {| code_point := cp; bytes_needed := bytes_needed st - 1;
                 lower_boundary := 0x80; upper_boundary := 0xBF |}).

Fixpoint utf8_decode (st : utf8_state) (bs : list Z) : list Z :=
  match bs with
  | [] => if bytes_needed st =? 0 then [] else [0xFFFD]
  | b :: rest => fst (utf8_step st b) ++ utf8_decode (snd (utf8_step st b)) rest
  end.

(** A leading byte order mark is not part of the text. *)
Definition strip_bom (bs : list Z) : list Z :=
  match bs with
  | a :: b :: c :: rest =>
      if (a =? 0xEF) && (b =? 0xBB) && (c =? 0xBF) then rest else bs
  | _ => bs
  end.

Definition utf16_encode_scalar (c : Z) : list Z :=
  if c <? 0x10000 then [c]
  else [0xD800 + (c - 0x10000) / 0x400; 0xDC00 + (c - 0x10000) mod 0x400].

(** [new TextDecoder().decode(buffer)]: UTF-8, replacement on error, the
    byte order mark removed. *)
Definition TextDecoder_decode (buffer : Uint8Array) : ustring :=
  flat_map utf16_encode_scalar (utf8_decode utf8_initial (strip_bom (map byte_val buffer))).

(* ===================================================================== *)
(** * crypto.ts: [encrypt] and [decrypt] *)
(* ===================================================================== *)

Module EncryptedData.
Record t := mk { iv : string; data : string; salt : string }.
End EncryptedData.
Abbreviation EncryptedData := EncryptedData.t.

(** The primitives of [crypto.subtle] that [crypto.ts] calls. *)
Record WebCrypto := {
  CryptoKey : Type;
  (** PBKDF2 with SHA-256: key material, salt, iterations, key length *)
  pbkdf2 : Uint8Array -> Uint8Array -> Z -> Z -> CryptoKey;
  (** AES-GCM: key, iv, plaintext *)
  aes_gcm_encrypt : CryptoKey -> Uint8Array -> Uint8Array -> Uint8Array;
  (** AES-GCM: key, iv, ciphertext; [None] is a failed authentication *)
  aes_gcm_decrypt : CryptoKey -> Uint8Array -> Uint8Array -> option Uint8Array
}.

(** A string of code units below 256 as a JavaScript string. *)
Definition ustring_of (s : string) : ustring := map char_code (list_ascii_of_string s).

Definition KEY_LENGTH : Z := 256.

Definition deriveKey (wc : WebCrypto) (salt : Uint8Array) : CryptoKey wc :=
  pbkdf2 wc (TextEncoder_encode (ustring_of "device-derived-key-material")) salt 100000 KEY_LENGTH.

(** The salt and the iv are the values of [crypto.getRandomValues]. *)
Definition encrypt (wc : WebCrypto) (salt iv : Uint8Array) (data : ustring) : EncryptedData :=
  let key := deriveKey wc salt in
  let encodedData := TextEncoder_encode data in
  let encryptedBuffer := aes_gcm_encrypt wc key iv encodedData in
  EncryptedData.mk (bufferToBase64 iv) (bufferToBase64 encryptedBuffer) (bufferToBase64 salt).

(** [None]: the promise is rejected. *)
Definition decrypt (wc : WebCrypto) (encrypted : EncryptedData) : option ustring :=
  match base64ToBuffer (EncryptedData.salt encrypted),
        base64ToBuffer (EncryptedData.iv encrypted),
        base64ToBuffer (EncryptedData.data encrypted) with
  | Some salt, Some iv, Some data =>
      let key := deriveKey wc salt in
      match aes_gcm_decrypt wc key iv data with
      | Some decryptedBuffer => Some (TextDecoder_decode decryptedBuffer)
      | None => None
      end
  | _, _, _ => None
  end.

(* ===================================================================== *)
(** * JavaScript numbers and [parseInt] *)
(* ===================================================================== *)

Inductive number : Type :=
| Num (q : Q)
| PosInfinity
| NegInfinity
| NaN.

Definition num_of_Z (z : Z) : number := Num (inject_Z z).

Definition num_sign (q : Q) : Z := Z.sgn (Qnum q).

Definition num_add (a b : number) : number :=
  match a, b with
  | NaN, _ | _, NaN => NaN
  | Num x, Num y => Num (Qred (x + y))
  | PosInfinity, NegInfinity | NegInfinity, PosInfinity => NaN
  | PosInfinity, _ | _, PosInfinity => PosInfinity
  | NegInfinity, _ | _, NegInfinity => NegInfinity
  end.

Definition num_neg (a : number) : number :=
  match a with
  | Num x => Num (Qred (- x))
  | PosInfinity => NegInfinity
  | NegInfinity => PosInfinity
  | NaN => NaN
  end.

Definition num_sub (a b : number) : number := num_add a (num_neg b).

Definition num_inf (sign : Z) : number :=
  if sign =? 0 then NaN else if 0 <? sign then PosInfinity else NegInfinity.

Definition num_mul (a b : number) : number :=
  match a, b with
  | NaN, _ | _, NaN => NaN
  | Num x, Num y => Num (Qred (x * y))
  | Num x, PosInfinity | PosInfinity, Num x => num_inf (num_sign x)
  | Num x, NegInfinity | NegInfinity, Num x => num_inf (- num_sign x)
  | PosInfinity, PosInfinity | NegInfinity, NegInfinity => PosInfinity
  | PosInfinity, NegInfinity | NegInfinity, PosInfinity => NegInfinity
  end.

Definition num_div (a b : number) : number :=
  match a, b with
  | NaN, _ | _, NaN => NaN
  | Num x, Num y =>
      if num_sign y =? 0 then num_inf (num_sign x) else Num (Qred (x / y))
  | Num _, _ => Num 0
  | PosInfinity, Num y => if 0 <=? num_sign y then PosInfinity else NegInfinity
  | NegInfinity, Num y => if 0 <=? num_sign y then NegInfinity else PosInfinity
  | _, _ => NaN
  end.

(** [a <= b]; every comparison with NaN is false. *)
Definition num_le (a b : number) : bool :=
  match a, b with
  | NaN, _ | _, NaN => false
  | Num x, Num y => Qle_bool x y
  | NegInfinity, _ | _, PosInfinity => true
  | _, _ => false
  end.

Definition num_ge (a b : number) : bool := num_le b a.

Definition num_finite (a : number) : bool :=
  match a with Num _ => true | _ => false end.

(** Decimal rendering of an integer inside a template literal. *)
Definition Z_to_string (z : Z) : string := NilZero.string_of_int (Z.to_int z).

Definition is_js_whitespace (c : ascii) : bool :=
  let n := nat_of_ascii c in
  ((9 <=? n) && (n <=? 13) || (n =? 32) || (n =? 160))%nat.

Fixpoint skip_whitespace (s : string) : string :=
  match s with
  | String c s' => if is_js_whitespace c then skip_whitespace s' else s
  | EmptyString => s
  end.

(** Value of a digit in radix [r], when the character is one. *)
Definition digit_value (r : Z) (c : ascii) : option Z :=
  let n := Z.of_nat (nat_of_ascii c) in
  let v := if (48 <=? n) && (n <=? 57) then n - 48
           else if (97 <=? n) && (n <=? 122) then n - 87
           else if (65 <=? n) && (n <=? 90) then n - 55
           else r in
  if v <? r then Some v else None.

(** Longest prefix of digits, read in radix [r]; [None] when it is empty. *)
Fixpoint parse_digits (r : Z) (s : string) (acc : option Z) : option Z :=
  match s with
  | String c s' =>
      match digit_value r c with
      | Some v => parse_digits r s' (Some (r * default 0 acc + v))
      | None => acc
      end
  | EmptyString => acc
  end.

(** [parseInt(s)] without a radix argument (ECMA-262, 19.2.5). *)
Definition parseInt (s : string) : number :=
  let s1 := skip_whitespace s in
  let '(sign, s2) :=
    match s1 with
    | String "-" r => (-1, r)
    | String "+" r => (1, r)
    | _ => (1, s1)
    end in
  let '(radix, s3) :=
    match s2 with
    | String "0" (String "x" r) | String "0" (String "X" r) => (16, r)
    | _ => (10, s2)
    end in
  match parse_digits radix s3 None with
  | Some v => num_of_Z (sign * v)
  | None => NaN
  end.

(** [a || b] on strings that may be [null]: the empty string is falsy. *)
Definition str_or (a : option string) (b : string) : string :=
  match a with
  | Some s => if bool_decide (s = EmptyString) then b else s
  | None => b
  end.

(** [a || b] on numbers that may be [undefined]: zero is falsy. *)
Definition Z_or (a : option Z) (b : Z) : Z :=
  match a with
  | Some z => if z =? 0 then b else z
  | None => b
  end.

(* ===================================================================== *)
(** * types/index.ts *)
(* ===================================================================== *)

Inductive ModelType := llm | stt.

Module ModelMetadata.
Record t := mk {
  id : string;
  name : string;
  type : ModelType;
  version : string;
  size : Z;
  quantization : string;
  capabilities : list string;
  license : string;
  redistributable : bool;
  checksum : string;
  signature : option string;
  url : option string;
  isSeed : bool
}.
End ModelMetadata.
Abbreviation ModelMetadata := ModelMetadata.t.

Inductive Status := pending | downloading | verifying | complete | error.

Module DownloadProgress.
Record t := mk {
  modelId : string;
  bytesDownloaded : number;
  totalBytes : number;
  percentage : number;
  status : Status;
  error : option string
}.
End DownloadProgress.
Abbreviation DownloadProgress := DownloadProgress.t.

Module DeviceCapabilities.
Record t := mk {
  hasWebAssembly : bool;
  hasWebGPU : bool;
  availableMemoryGB : Z;
  cpuCores : Z;
  isMobile : bool;
  recommendedModel : string
}.
End DeviceCapabilities.
Abbreviation DeviceCapabilities := DeviceCapabilities.t.

(* ===================================================================== *)
(** * The world: object stores, dispatched events, network log, console *)
(* ===================================================================== *)

(** Value of the [models] object store (key path [id]). *)
Module ModelRecord.
Record t := mk {
  id : string;
  metadata : ModelMetadata;
  blob : Blob;
  verified : bool
}.
End ModelRecord.
Abbreviation ModelRecord := ModelRecord.t.

(** Value of the [downloadProgress] object store (key path [modelId]). *)
Module ProgressRecord.
Record t := mk {
  modelId : string;
  bytesDownloaded : Z;
  totalBytes : number;
  chunks : list Blob
}.
End ProgressRecord.
Abbreviation ProgressRecord := ProgressRecord.t.

Record Request := { req_url : string; req_headers : list (string * string) }.

Inductive ConsoleLevel := LogLevel | WarnLevel | ErrorLevel.

Record World := {
  models : gmap string ModelRecord;
  downloadProgress : gmap string ProgressRecord;
  (** [model-download-progress] events dispatched on [window], oldest first *)
  dispatched : list DownloadProgress;
  (** requests handed to [fetch], oldest first *)
  requests : list Request;
  (** first argument of every [console] call, oldest first *)
  console : list (ConsoleLevel * string)
}.

Definition empty_world : World :=
  {| models := ∅; downloadProgress := ∅; dispatched := []; requests := []; console := [] |}.

(** A thrown value: an [Error] with its message, or anything else. *)
Inductive exn := JsError (message : string) | NonError.

Inductive Result (A : Type) :=
| Ok (a : A)
| Throw (e : exn).
Arguments Ok {A} a.
Arguments Throw {A} e.

(** Asynchronous functions: state passing with exceptions; the effects made
    before a throw stay. *)
Definition M (A : Type) : Type := World -> Result A * World.

Definition ret {A} (a : A) : M A := fun w => (Ok a, w).
Definition throw {A} (e : exn) : M A := fun w => (Throw e, w).
Definition bind {A B} (m : M A) (k : A -> M B) : M B :=
  fun w => match m w with
           | (Ok a, w') => k a w'
           | (Throw e, w') => (Throw e, w')
           end.
Definition try_catch {A} (m : M A) (h : exn -> M A) : M A :=
  fun w => match m w with
           | (Ok a, w') => (Ok a, w')
           | (Throw e, w') => h e w'
           end.

Declare Scope js_scope.
Delimit Scope js_scope with js.
Notation "x <- m ;; k" := (bind m (fun x => k))
  (at level 100, m at next level, right associativity) : js_scope.
Notation "m ;;; k" := (bind m (fun _ => k))
  (at level 100, right associativity) : js_scope.
Local Open Scope js_scope.

Definition console_call (l : ConsoleLevel) (msg : string) : M unit :=
  fun w => (Ok tt, {| models := models w; downloadProgress := downloadProgress w;
                      dispatched := dispatched w; requests := requests w;
                      console := console w ++ [(l, msg)] |}).

(** The network, the bundled assets and the storage estimate, as the
    browser presents them. *)
Record ReadableStream := {
  (** the values [reader.read()] resolves with, in order *)
  stream_chunks : list Uint8Array;
  (** how the stream ends: [done], or a rejected [read()] *)
  stream_failure : option exn
}.

Record Response := {
  status : Z;
  statusText : string;
  (** [headers.get('Content-Length')] *)
  content_length : option string;
  body : option ReadableStream
}.

Definition ok (r : Response) : bool := (200 <=? status r) && (status r <=? 299).

Record StorageEstimate := { quota : option Z; usage : option Z }.

Record Env := {
  net : Request -> Result Response;
  (** [navigator.storage.estimate()], absent when the API is not there *)
  storage_estimate : option StorageEstimate
}.

Definition fetch (env : Env) (u : string) (hs : list (string * string)) : M Response :=
  fun w =>
    let rq := {| req_url := u; req_headers := hs |} in
    (net env rq, {| models := models w; downloadProgress := downloadProgress w;
                    dispatched := dispatched w; requests := requests w ++ [rq];
                    console := console w |}).

(** [response.blob()]: the whole body, or the stream's failure. *)
Definition response_blob (r : Response) : M Blob :=
  match body r with
  | None => ret []
  | Some s => match stream_failure s with
              | None => ret (concat (stream_chunks s))
              | Some e => throw e
              end
  end.

(* ===================================================================== *)
(** * storage.ts *)
(* ===================================================================== *)

Definition saveModel (metadata : ModelMetadata) (blob : Blob) (verified : bool) : M unit :=
  fun w =>
    (Ok tt, {| models := <[ModelMetadata.id metadata :=
                            ModelRecord.mk (ModelMetadata.id metadata) metadata blob verified]>
                          (models w);
               downloadProgress := downloadProgress w; dispatched := dispatched w;
               requests := requests w; console := console w |}).

(** [record?.blob || null]: a [Blob] object is truthy whatever its size. *)
Definition getModel (modelId : string) : M (option Blob) :=
  fun w => (Ok (ModelRecord.blob <$> models w !! modelId), w).

Definition getModelMetadata (modelId : string) : M (option ModelMetadata) :=
  fun w => (Ok (ModelRecord.metadata <$> models w !! modelId), w).

Definition getAllModels : M (list ModelMetadata) :=
  fun w => (Ok (ModelRecord.metadata <$> (snd <$> map_to_list (models w))), w).

(** [record?.verified || false] *)
Definition isModelReady (modelId : string) : M bool :=
  fun w => (Ok (match models w !! modelId with
                | Some r => ModelRecord.verified r
                | None => false
                end), w).

Definition saveDownloadProgress (modelId : string) (bytesDownloaded : Z)
    (totalBytes : number) (chunks : list Blob) : M unit :=
  fun w =>
    (Ok tt, {| models := models w;
               downloadProgress :=
                 <[modelId := ProgressRecord.mk modelId bytesDownloaded totalBytes chunks]>
                 (downloadProgress w);
               dispatched := dispatched w; requests := requests w; console := console w |}).

Definition getDownloadProgress (modelId : string) : M (option ProgressRecord) :=
  fun w => (Ok (downloadProgress w !! modelId), w).

Definition clearDownloadProgress (modelId : string) : M unit :=
  fun w =>
    (Ok tt, {| models := models w; downloadProgress := delete modelId (downloadProgress w);
               dispatched := dispatched w; requests := requests w; console := console w |}).

(* ===================================================================== *)
(** * capabilities.ts *)
(* ===================================================================== *)

Definition MiB : number := num_of_Z (1024 * 1024).

Definition checkStorageAvailability (env : Env) (requiredMB : number) : M bool :=
  match storage_estimate env with
  | Some estimate =>
      let availableMB :=
        num_div (num_sub (num_of_Z (Z_or (quota estimate) 0))
                         (num_of_Z (Z_or (usage estimate) 0))) MiB in
      ret (num_ge availableMB requiredMB)
  | None => ret true
  end.

(* ===================================================================== *)
(** * model-manager.ts *)
(* ===================================================================== *)

Definition MODEL_REGISTRY_URL : string := "https://models.example.com".

Module DEFAULT_MANIFEST.
Definition version : string := "1.0.0".
Definition models : list ModelMetadata :=
  [ ModelMetadata.mk "llm-seed-q8" "Seed LLM (Q8)" llm "1.0" (45 * 1024 * 1024) "Q8_0"
      ["referral-generation"; "en"; "ar"]%string "Apache-2.0" true "abc123..." None
      None true;
    ModelMetadata.mk "llm-small-q4" "Small LLM (Q4)" llm "1.0" (180 * 1024 * 1024) "Q4_K_M"
      ["referral-generation"; "en"; "ar"; "high-accuracy"]%string "Apache-2.0" true
      "def456..." None (Some (MODEL_REGISTRY_URL +:+ "/llm-small-q4.gguf")) false;
    ModelMetadata.mk "llm-medium-q4" "Medium LLM (Q4)" llm "1.0" (420 * 1024 * 1024) "Q4_K_M"
      ["referral-generation"; "en"; "ar"; "high-accuracy"; "complex-cases"]%string
      "Llama-2" false "ghi789..." None
      (Some (MODEL_REGISTRY_URL +:+ "/llm-medium-q4.gguf")) false;
    ModelMetadata.mk "stt-whisper-tiny" "Whisper Tiny (STT)" stt "1.0" (75 * 1024 * 1024)
      "Q5_1" ["stt"; "en"; "ar"]%string "MIT" true "jkl012..." None None true;
    ModelMetadata.mk "stt-whisper-base" "Whisper Base (STT)" stt "1.0" (140 * 1024 * 1024)
      "Q5_1" ["stt"; "en"; "ar"; "high-accuracy"]%string "MIT" true "mno345..." None
      (Some (MODEL_REGISTRY_URL +:+ "/stt-whisper-base.bin")) false ].
End DEFAULT_MANIFEST.

(** [window.dispatchEvent(new CustomEvent('model-download-progress', ...))] *)
Definition emitDownloadProgress (progress : DownloadProgress) : M unit :=
  fun w =>
    (Ok tt, {| models := models w; downloadProgress := downloadProgress w;
               dispatched := dispatched w ++ [progress]; requests := requests w;
               console := console w |}).

(** [error instanceof Error ? error.message : 'Unknown error'] *)
Definition error_message (e : exn) : string :=
  match e with
  | JsError m => m
  | NonError => "Unknown error"
  end.

Definition loadSeedModel (env : Env) (metadata : ModelMetadata) : M unit :=
  let id := ModelMetadata.id metadata in
  try_catch
    (response <- fetch env ("/models/" +:+ id +:+ ".gguf") [] ;;
     if negb (ok response)
     then throw (JsError ("Failed to load seed model: " +:+ statusText response))
     else
       blob <- response_blob response ;;
       if negb (verifyChecksum blob (ModelMetadata.checksum metadata))
       then throw (JsError ("Checksum verification failed for " +:+ id))
       else
         saveModel metadata blob true ;;;
         console_call LogLevel ("[ModelManager] Seed model loaded: " +:+ id))
    (fun e =>
       console_call ErrorLevel ("[ModelManager] Failed to load seed model " +:+ id +:+ ":") ;;;
       throw e).

(** [for (const x of l) { await f(x) }] *)
Fixpoint for_of {A} (l : list A) (f : A -> M unit) : M unit :=
  match l with
  | [] => ret tt
  | x :: l' => f x ;;; for_of l' f
  end.

(** The manifest is an argument of the functions that consult it; the source
    binds it to [DEFAULT_MANIFEST.models]. *)
Definition ensureSeedModels (env : Env) (manifest : list ModelMetadata) : M unit :=
  let seedModels := List.filter ModelMetadata.isSeed manifest in
  for_of seedModels (fun model =>
    ready <- isModelReady (ModelMetadata.id model) ;;
    if negb ready
    then
      console_call LogLevel ("[ModelManager] Loading seed model: " +:+ ModelMetadata.id model) ;;;
      loadSeedModel env model
    else
      console_call LogLevel
        ("[ModelManager] Seed model already cached: " +:+ ModelMetadata.id model)).

(** [new Uint8Array(b as any)] for a [Blob] [b]: a [Blob] is neither
    iterable nor array-like (it has [size], not [length]), so the typed-array
    constructor yields an array of length 0. *)
Definition Uint8Array_of_object (b : Blob) : Uint8Array := [].

(** [new Blob([c])] *)
Definition Blob_of (c : Uint8Array) : Blob := c.

Definition totalBytes_of (response : Response) (startByte : Z) : number :=
  num_add (parseInt (str_or (content_length response) "0")) (num_of_Z startByte).

Definition range_headers (startByte : Z) : list (string * string) :=
  if 0 <? startByte
  then [("Range", "bytes=" +:+ Z_to_string startByte +:+ "-")]%string
  else [].

(** The [while (true)] loop over [reader.read()]: one iteration per value
    of the stream, ended by [done] or by a rejected read. *)
Fixpoint read_stream (id : string) (totalBytes : number) (values : list Uint8Array)
    (failure : option exn) (chunks : list Uint8Array) (bytesDownloaded : Z)
    : M (list Uint8Array * Z) :=
  match values with
  | [] =>
      match failure with
      | None => ret (chunks, bytesDownloaded)
      | Some e => throw e
      end
  | value :: rest =>
      let chunks := chunks ++ [value] in
      let bytesDownloaded := bytesDownloaded + Z.of_nat (length value) in
      (if Z.of_nat (length chunks) mod 10 =? 0
       then saveDownloadProgress id bytesDownloaded totalBytes (map Blob_of chunks)
       else ret tt) ;;;
      emitDownloadProgress
        (DownloadProgress.mk id (num_of_Z bytesDownloaded) totalBytes
           (num_mul (num_div (num_of_Z bytesDownloaded) totalBytes) (num_of_Z 100))
           downloading None) ;;;
      read_stream id totalBytes rest failure chunks bytesDownloaded
  end.

Definition downloadModelInBackground (env : Env) (metadata : ModelMetadata) : M unit :=
  let id := ModelMetadata.id metadata in
  match ModelMetadata.url metadata with
  | None => throw (JsError ("No URL specified for model " +:+ id))
  | Some EmptyString => throw (JsError ("No URL specified for model " +:+ id))
  | Some url =>
    try_catch
      (progress <- getDownloadProgress id ;;
       let startByte := Z_or (ProgressRecord.bytesDownloaded <$> progress) 0 in
       console_call LogLevel
         ("[ModelManager] Downloading " +:+ id +:+ " from byte " +:+ Z_to_string startByte) ;;;
       response <- fetch env url (range_headers startByte) ;;
       if negb (ok response) && negb (status response =? 206)
       then throw (JsError ("Download failed: " +:+ statusText response))
       else
         let totalBytes := totalBytes_of response startByte in
         match body response with
         | None => throw (JsError "Response body is not readable")
         | Some reader =>
           let chunks :=
             match progress with
             | Some p => map Uint8Array_of_object (ProgressRecord.chunks p)
             | None => []
             end in
           read <-
             read_stream id totalBytes (stream_chunks reader) (stream_failure reader)
               chunks startByte ;;
           let '(chunks, bytesDownloaded) := read in
           let modelBlob : Blob := concat chunks in
           console_call LogLevel ("[ModelManager] Verifying " +:+ id +:+ "...") ;;;
           emitDownloadProgress
             (DownloadProgress.mk id totalBytes totalBytes (num_of_Z 100) verifying None) ;;;
           if negb (verifyChecksum modelBlob (ModelMetadata.checksum metadata))
           then throw (JsError ("Checksum verification failed for " +:+ id))
           else
             saveModel metadata modelBlob true ;;;
             clearDownloadProgress id ;;;
             console_call LogLevel ("[ModelManager] Model downloaded and verified: " +:+ id) ;;;
             emitDownloadProgress
               (DownloadProgress.mk id totalBytes totalBytes (num_of_Z 100) complete None)
         end)
      (fun e =>
         console_call ErrorLevel ("[ModelManager] Download failed for " +:+ id +:+ ":") ;;;
         emitDownloadProgress
           (DownloadProgress.mk id (num_of_Z 0) (num_of_Z (ModelMetadata.size metadata))
              (num_of_Z 0) error (Some (error_message e))) ;;;
         throw e)
  end.

(** The download is started without [await]; its promise carries a
    [catch] handler. The embedding runs the detached task to its end before
    the caller goes on: the caller's outcome is that of the code before the
    task is started, the world is the one the task leaves. *)
Definition startBackgroundModelFetch (env : Env) (manifest : list ModelMetadata)
    (capabilities : DeviceCapabilities) : M unit :=
  let recommendedModelId := DeviceCapabilities.recommendedModel capabilities in
  match List.find (fun m => bool_decide (ModelMetadata.id m = recommendedModelId)) manifest with
  | None => console_call LogLevel "[ModelManager] No additional models to fetch"
  | Some model =>
    if ModelMetadata.isSeed model
    then console_call LogLevel "[ModelManager] No additional models to fetch"
    else
      ready <- isModelReady (ModelMetadata.id model) ;;
      if ready
      then console_call LogLevel
             ("[ModelManager] Model already available: " +:+ ModelMetadata.id model)
      else
        hasStorage <- checkStorageAvailability env
                        (num_div (num_of_Z (ModelMetadata.size model)) MiB) ;;
        if negb hasStorage
        then console_call WarnLevel "[ModelManager] Insufficient storage for model download"
        else
          console_call LogLevel
            ("[ModelManager] Starting background fetch: " +:+ ModelMetadata.id model) ;;;
          try_catch (downloadModelInBackground env model)
            (fun e => console_call ErrorLevel "[ModelManager] Background download failed:")
  end.

(** [detectCapabilities] reads the browser; its result is an argument. *)
Definition initializeModelManager (env : Env) (manifest : list ModelMetadata)
    (capabilities : DeviceCapabilities) : M unit :=
  console_call LogLevel "[ModelManager] Initializing..." ;;;
  console_call LogLevel "[ModelManager] Device capabilities:" ;;;
  ensureSeedModels env manifest ;;;
  startBackgroundModelFetch env manifest capabilities.

Definition loadModelForInference (modelId : string) : M Blob :=
  blob <- getModel modelId ;;
  match blob with
  | None => throw (JsError ("Model not found: " +:+ modelId))
  | Some blob =>
    metadata <- getModelMetadata modelId ;;
    match metadata with
    | None => throw (JsError ("Model metadata not found: " +:+ modelId))
    | Some metadata =>
      if negb (verifyChecksum blob (ModelMetadata.checksum metadata))
      then throw (JsError ("Model integrity check failed: " +:+ modelId))
      else ret blob
    end
  end.

Definition getAvailableModels : M (list ModelMetadata) := getAllModels.

Definition checkModelReady (modelId : string) : M bool := isModelReady modelId.

(* ===================================================================== *)
(** * storage.ts: the storage estimate *)
(* ===================================================================== *)

Module StorageUsage.
Record t := mk { usage : Z; quota : Z; percentage : number }.
End StorageUsage.
Abbreviation StorageUsage := StorageUsage.t.

(** [estimate.quota ? ((estimate.usage || 0) / estimate.quota) * 100 : 0] *)
Definition getStorageEstimate (env : Env) : M StorageUsage :=
  match storage_estimate env with
  | Some estimate =>
      ret (StorageUsage.mk (Z_or (usage estimate) 0) (Z_or (quota estimate) 0)
             (match quota estimate with
              | Some q =>
                  if q =? 0 then num_of_Z 0
                  else num_mul (num_div (num_of_Z (Z_or (usage estimate) 0)) (num_of_Z q))
                         (num_of_Z 100)
              | None => num_of_Z 0
              end))
  | None => ret (StorageUsage.mk 0 0 (num_of_Z 0))
  end.

(* ===================================================================== *)
(** * capabilities.ts: the recommendation *)
(* ===================================================================== *)

(** [Omit<DeviceCapabilities, 'recommendedModel'>], the memory as the number
    it is ([navigator.deviceMemory] can be 0.25 or 0.5). *)
Module DeviceProfile.
Record t := mk {
  hasWebAssembly : bool;
  hasWebGPU : bool;
  availableMemoryGB : Q;
  cpuCores : Z;
  isMobile : bool
}.
End DeviceProfile.
Abbreviation DeviceProfile := DeviceProfile.t.

Definition selectRecommendedModel (caps : DeviceProfile) : string :=
  if DeviceProfile.hasWebGPU caps && Qle_bool 4 (DeviceProfile.availableMemoryGB caps)
     && (4 <=? DeviceProfile.cpuCores caps)
  then "llm-medium-q4"
  else if DeviceProfile.hasWebAssembly caps && Qle_bool 2 (DeviceProfile.availableMemoryGB caps)
  then "llm-small-q4"
  else "llm-seed-q8".

(** [getPerformanceTier] reads the profile of its argument only, not the
    [recommendedModel]. *)
Definition getPerformanceTier (caps : DeviceProfile) : Z :=
  if DeviceProfile.hasWebGPU caps && Qle_bool 4 (DeviceProfile.availableMemoryGB caps)
     && (4 <=? DeviceProfile.cpuCores caps)
  then 3
  else if DeviceProfile.hasWebAssembly caps && Qle_bool 2 (DeviceProfile.availableMemoryGB caps)
  then 2
  else 1.

(** What the functions read of the browser. *)
Record Navigator := {
  (** [typeof WebAssembly !== 'undefined'] *)
  has_WebAssembly : bool;
  (** ['gpu' in navigator] *)
  has_gpu : bool;
  (** [navigator.deviceMemory], when the property is there *)
  deviceMemory : option Q;
  (** [navigator.hardwareConcurrency] *)
  hardwareConcurrency : option Z;
  userAgent : string
}.

(** Does [s] begin with [needle], letters compared without regard to case? *)
Fixpoint starts_with_ci (needle s : string) : bool :=
  match needle, s with
  | EmptyString, _ => true
  | String n needle', String c s' =>
      Ascii.eqb (lower_ascii n) (lower_ascii c) && starts_with_ci needle' s'
  | String _ _, EmptyString => false
  end.

Fixpoint includes_ci (needle s : string) : bool :=
  starts_with_ci needle s
  || match s with
     | String _ s' => includes_ci needle s'
     | EmptyString => false
     end.

(** [/a|b|.../i.test(s)] for alternatives without metacharacters. *)
Definition test_ci (alternatives : list string) (s : string) : bool :=
  existsb (fun needle => includes_ci needle s) alternatives.

Definition estimateAvailableMemory (nav : Navigator) : Q :=
  match deviceMemory nav with
  | Some m => m
  | None =>
      let isMobile := test_ci ["Android"; "webOS"; "iPhone"; "iPad"; "iPod"]%string
                        (userAgent nav) in
      if isMobile then 2 else 4
  end.

(** The object that [detectCapabilities] returns: the profile, and the
    [recommendedModel] computed from it. *)
Definition detectCapabilities (nav : Navigator) : DeviceProfile * string :=
  let hasWebAssembly := has_WebAssembly nav in
  let hasWebGPU := has_gpu nav in
  let availableMemoryGB := estimateAvailableMemory nav in
  let cpuCores := Z_or (hardwareConcurrency nav) 2 in
  let isMobile :=
    test_ci ["Android"; "webOS"; "iPhone"; "iPad"; "iPod"; "BlackBerry"; "IEMobile";
             "Opera Mini"]%string (userAgent nav) in
  let profile := DeviceProfile.mk hasWebAssembly hasWebGPU availableMemoryGB cpuCores isMobile in
  (profile, selectRecommendedModel profile).

(* ===================================================================== *)
(** * types/index.ts: referrals *)
(* ===================================================================== *)

Inductive Acuteness := routine | urgent | emergency.
Inductive Language := en | ar.

(** Identifiers are strings of code units below 256, free text is a string
    of UTF-16 code units. *)
Module ReferralOutput.
Record t := mk {
  id : string;
  timestamp : Z;
  specialty : ustring;
  reason : ustring;
  acuteness : Acuteness;
  timeframe : ustring;
  duration : ustring;
  clinicalSummary : ustring;
  attachments : list ustring;
  confidence : number;
  modelUsed : string;
  language : Language
}.
End ReferralOutput.
Abbreviation ReferralOutput := ReferralOutput.t.

(* ===================================================================== *)
(** * storage.ts: the [referrals] store *)
(* ===================================================================== *)

(** [JSON.stringify] and [JSON.parse] on referrals; [None] is a thrown
    [SyntaxError]. *)
Record JSON := {
  stringify : ReferralOutput -> ustring;
  parse : ustring -> option ReferralOutput
}.

Module ReferralRecord.
Record t := mk { id : string; encrypted : EncryptedData; timestamp : Z }.
End ReferralRecord.
Abbreviation ReferralRecord := ReferralRecord.t.

(** The object store, keyed by [id]. *)
Abbreviation ReferralStore := (gmap string ReferralRecord).

(** The salt and the iv are those that [encrypt] draws. *)
Definition saveReferral (wc : WebCrypto) (json : JSON) (salt iv : Uint8Array)
    (referral : ReferralOutput) (db : ReferralStore) : ReferralStore :=
  let encrypted := encrypt wc salt iv (stringify json referral) in
  <[ReferralOutput.id referral :=
      ReferralRecord.mk (ReferralOutput.id referral) encrypted
        (ReferralOutput.timestamp referral)]> db.

(** [JSON.parse(await decrypt(record.encrypted))]; [None]: rejected. *)
Definition open_record (wc : WebCrypto) (json : JSON) (record : ReferralRecord)
    : option ReferralOutput :=
  match decrypt wc (ReferralRecord.encrypted record) with
  | Some decrypted => parse json decrypted
  | None => None
  end.

(** The outer [None] is a rejected promise, [Some None] is [null]. *)
Definition getReferral (wc : WebCrypto) (json : JSON) (id : string) (db : ReferralStore)
    : option (option ReferralOutput) :=
  match db !! id with
  | None => Some None
  | Some record =>
      match open_record wc json record with
      | Some referral => Some (Some referral)
      | None => None
      end
  end.







Definition deleteReferral (id : string) (db : ReferralStore) : ReferralStore :=
  delete id db.

(* ===================================================================== *)
(** * wasm-runtime.ts: the runtime instances *)
(* ===================================================================== *)

(** The mock instances: objects whose methods close over the blob they
    were created for. *)
Record LlamaWASM := { llama_model : Blob }.
Record WhisperWASM := { whisper_model : Blob }.

(** [let llamaInstance], [let whisperInstance] *)
Record Runtime := {
  llamaInstance : option LlamaWASM;
  whisperInstance : option WhisperWASM
}.

Definition Blob_size (blob : Blob) : Z := Z.of_nat (length blob).

Definition createMockLlamaWASM (modelBlob : Blob) : M LlamaWASM :=
  console_call LogLevel
    ("[WASM Mock] Loading LLM model (" +:+ Z_to_string (Blob_size modelBlob) +:+ " bytes)") ;;;
  ret {| llama_model := modelBlob |}.

Definition createMockWhisperWASM (modelBlob : Blob) : M WhisperWASM :=
  console_call LogLevel
    ("[WASM Mock] Loading STT model (" +:+ Z_to_string (Blob_size modelBlob) +:+ " bytes)") ;;;
  ret {| whisper_model := modelBlob |}.

(** The functions below read and assign the two module variables: they
    take the runtime and give it back beside the result and the world. *)
Definition initLLMRuntime (modelId : string) (rt : Runtime) (w : World)
    : Result unit * Runtime * World :=
  match llamaInstance rt with
  | Some _ =>
      (Ok tt, rt, snd (console_call LogLevel "[WASM] LLM runtime already initialized" w))
  | None =>
      let w1 :=
        snd (console_call LogLevel ("[WASM] Initializing LLM runtime with model: " +:+ modelId) w)
      in
      match (modelBlob <- loadModelForInference modelId ;; createMockLlamaWASM modelBlob) w1 with
      | (Ok instance, w2) =>
          (Ok tt,
           {| llamaInstance := Some instance; whisperInstance := whisperInstance rt |},
           snd (console_call LogLevel "[WASM] LLM runtime initialized" w2))
      | (Throw e, w2) =>
          (Throw e, rt,
           snd (console_call ErrorLevel "[WASM] Failed to initialize LLM runtime:" w2))
      end
  end.

Definition initSTTRuntime (modelId : string) (rt : Runtime) (w : World)
    : Result unit * Runtime * World :=
  match whisperInstance rt with
  | Some _ =>
      (Ok tt, rt, snd (console_call LogLevel "[WASM] STT runtime already initialized" w))
  | None =>
      let w1 :=
        snd (console_call LogLevel ("[WASM] Initializing STT runtime with model: " +:+ modelId) w)
      in
      match (modelBlob <- loadModelForInference modelId ;; createMockWhisperWASM modelBlob) w1 with
      | (Ok instance, w2) =>
          (Ok tt,
           {| llamaInstance := llamaInstance rt; whisperInstance := Some instance |},
           snd (console_call LogLevel "[WASM] STT runtime initialized" w2))
      | (Throw e, w2) =>
          (Throw e, rt,
           snd (console_call ErrorLevel "[WASM] Failed to initialize STT runtime:" w2))
      end
  end.

Definition cleanupWASMRuntime (rt : Runtime) (w : World) : Runtime * World :=
  let w1 :=
    match llamaInstance rt with
    | Some _ => snd (console_call LogLevel "[WASM Mock] LLM freed" w)
    | None => w
    end in
  let w2 :=
    match whisperInstance rt with
    | Some _ => snd (console_call LogLevel "[WASM Mock] STT freed" w1)
    | None => w1
    end in
  ({| llamaInstance := None; whisperInstance := None |},
   snd (console_call LogLevel "[WASM] Runtime cleaned up" w2)).

(* ===================================================================== *)
(** * wasm-runtime.ts: the fallback heuristics *)
(* ===================================================================== *)

(** [String.prototype.includes] *)
Fixpoint includes (needle s : string) : bool :=
  String.prefix needle s
  || match s with
     | String _ s' => includes needle s'
     | EmptyString => false
     end.

Definition extractAcuteness (text : string) : Acuteness :=
  let lower := toLowerCase text in
  if includes "emergency" lower || includes "urgent" lower || includes "immediate" lower
  then urgent
  else if includes "routine" lower || includes "follow-up" lower
  then routine
  else routine.

(* ===================================================================== *)
(** * scripts/verfiy-model-licenses.js *)
(* ===================================================================== *)

Definition ALLOWED_LICENSES : list string :=
  ["MIT"; "Apache-2.0"; "BSD-3-Clause"; "CC-BY-4.0"; "CC0-1.0"]%string.

Definition RESTRICTED_LICENSES : list string :=
  ["Llama-2"; "Llama-3"; "GPT-NeoX"; "OPT-175B"]%string.

(** [Array.prototype.includes] on strings *)
Definition Array_includes (l : list string) (x : string) : bool := bool_decide (x ∈ l).

(** [let hasErrors], [let warnings] *)
Record LicenseReport := { hasErrors : bool; warnings : list string }.

(** The body of the [forEach] callback, for the licences and flags found in
    a manifest file that could be read; [redistributable[index]] is
    [undefined], hence falsy, beyond the end of the array. What the script
    prints is left out, and so is its survey of the bundled files, which adds
    warnings only. *)
Definition check_license (license : string) (index : nat) (redistributable : list bool)
    (report : LicenseReport) : LicenseReport :=
  let isRedistributable := default false (redistributable !! index) in
  if isRedistributable && negb (Array_includes ALLOWED_LICENSES license)
  then
    if Array_includes RESTRICTED_LICENSES license
    then {| hasErrors := hasErrors report;
            warnings := warnings report ++
              ["Model " +:+ Z_to_string (Z.of_nat (index + 1)) +:+
               " should be marked as redistributable: false"] |}
    else {| hasErrors := true; warnings := warnings report |}
  else report.

(** [licenses.forEach((license, index) => ...)] from [index] on *)
Fixpoint forEach_license (licenses : list string) (index : nat) (redistributable : list bool)
    (report : LicenseReport) : LicenseReport :=
  match licenses with
  | [] => report
  | license :: rest =>
      forEach_license rest (S index) redistributable
        (check_license license index redistributable report)
  end.

Definition verify_licenses (licenses : list string) (redistributable : list bool)
    : LicenseReport :=
  forEach_license licenses 0 redistributable {| hasErrors := false; warnings := [] |}.

(** [process.exit(1)] on errors; otherwise the script runs to its end. *)
Definition exit_code (report : LicenseReport) : Z :=
  if hasErrors report then 1 else 0.

(* ===================================================================== *)
(** * Vocabulary: checksums *)
(* ===================================================================== *)

Definition lower_hex_char (c : ascii) : bool :=
  let n := nat_of_ascii c in
  ((48 <=? n) && (n <=? 57) || (97 <=? n) && (n <=? 102))%nat.

Fixpoint all_chars (p : ascii -> bool) (s : string) : bool :=
  match s with
  | EmptyString => true
  | String c s' => p c && all_chars p s'
  end.

(** What [bufferToHex] writes for one byte. *)
Definition hex_of_byte (b : byte) : string := padStart 2 "0"%char (toString16 (byte_val b)).

(* ===================================================================== *)
(** * Vocabulary: worlds and events of a download *)
(* ===================================================================== *)

(** World after [console.log/warn/error], a dispatched event, a request. *)
Definition logged (l : ConsoleLevel) (msg : string) (w : World) : World :=
  snd (console_call l msg w).

Definition emitted (ev : DownloadProgress) (w : World) : World :=
  snd (emitDownloadProgress ev w).

Definition sent (rq : Request) (w : World) : World :=
  {| models := models w; downloadProgress := downloadProgress w;
     dispatched := dispatched w; requests := requests w ++ [rq]; console := console w |}.

Definition stored (metadata : ModelMetadata) (blob : Blob) (w : World) : World :=
  snd (saveModel metadata blob true w).

Definition cleared (id : string) (w : World) : World :=
  snd (clearDownloadProgress id w).

(** Byte count after the values of a stream have been read. *)
Definition stream_bytes (values : list Uint8Array) (bytesDownloaded : Z) : Z :=
  fold_left (fun n value => n + Z.of_nat (length value)) values bytesDownloaded.

(** The [downloading] events of one pass over a stream. *)
Fixpoint stream_events (id : string) (totalBytes : number) (values : list Uint8Array)
    (bytesDownloaded : Z) : list DownloadProgress :=
  match values with
  | [] => []
  | value :: rest =>
      let bytesDownloaded := bytesDownloaded + Z.of_nat (length value) in
      DownloadProgress.mk id (num_of_Z bytesDownloaded) totalBytes
        (num_mul (num_div (num_of_Z bytesDownloaded) totalBytes) (num_of_Z 100))
        downloading None
      :: stream_events id totalBytes rest bytesDownloaded
  end.

(** The [downloadProgress] store after one pass over a stream: a checkpoint
    is put whenever the number of buffered chunks is a multiple of ten. *)
Fixpoint stream_checkpoints (id : string) (totalBytes : number) (values : list Uint8Array)
    (chunks : list Uint8Array) (bytesDownloaded : Z)
    (store : gmap string ProgressRecord) : gmap string ProgressRecord :=
  match values with
  | [] => store
  | value :: rest =>
      let chunks := chunks ++ [value] in
      let bytesDownloaded := bytesDownloaded + Z.of_nat (length value) in
      stream_checkpoints id totalBytes rest chunks bytesDownloaded
        (if Z.of_nat (length chunks) mod 10 =? 0
         then <[id := ProgressRecord.mk id bytesDownloaded totalBytes (map Blob_of chunks)]> store
         else store)
  end.

Definition streamed (id : string) (totalBytes : number) (values : list Uint8Array)
    (chunks : list Uint8Array) (bytesDownloaded : Z) (w : World) : World :=
  {| models := models w;
     downloadProgress :=
       stream_checkpoints id totalBytes values chunks bytesDownloaded (downloadProgress w);
     dispatched := dispatched w ++ stream_events id totalBytes values bytesDownloaded;
     requests := requests w; console := console w |}.

Definition error_event (metadata : ModelMetadata) (e : exn) : DownloadProgress :=
  DownloadProgress.mk (ModelMetadata.id metadata) (num_of_Z 0)
    (num_of_Z (ModelMetadata.size metadata)) (num_of_Z 0) error (Some (error_message e)).

Definition verifying_event (id : string) (totalBytes : number) : DownloadProgress :=
  DownloadProgress.mk id totalBytes totalBytes (num_of_Z 100) verifying None.

Definition complete_event (id : string) (totalBytes : number) : DownloadProgress :=
  DownloadProgress.mk id totalBytes totalBytes (num_of_Z 100) complete None.

(** Outcome of the [catch] block of [downloadModelInBackground]. *)
Definition download_failed (metadata : ModelMetadata) (e : exn) (w : World)
    : Result unit * World :=
  (Throw e,
   emitted (error_event metadata e)
     (logged ErrorLevel
        ("[ModelManager] Download failed for " +:+ ModelMetadata.id metadata +:+ ":") w)).

(** Resume offset and restored chunks, as the download reads them from the
    [downloadProgress] store. *)
Definition resume_offset (id : string) (w : World) : Z :=
  Z_or (ProgressRecord.bytesDownloaded <$> downloadProgress w !! id) 0.

Definition restored_chunks (id : string) (w : World) : list Uint8Array :=
  match downloadProgress w !! id with
  | Some p => map Uint8Array_of_object (ProgressRecord.chunks p)
  | None => []
  end.

Definition download_request (u : string) (id : string) (w : World) : Request :=
  {| req_url := u; req_headers := range_headers (resume_offset id w) |}.

(** [downloadModelInBackground] case by case, for a descriptor with a URL. *)
Definition download_outcome (env : Env) (metadata : ModelMetadata) (u : string) (w : World)
    : Result unit * World :=
  let id := ModelMetadata.id metadata in
  let startByte := resume_offset id w in
  let rq := download_request u id w in
  let w1 :=
    sent rq (logged LogLevel ("[ModelManager] Downloading " +:+ id +:+ " from byte "
                              +:+ Z_to_string startByte) w) in
  match net env rq with
  | Throw e => download_failed metadata e w1
  | Ok response =>
    if negb (ok response) && negb (status response =? 206)
    then download_failed metadata (JsError ("Download failed: " +:+ statusText response)) w1
    else
      match body response with
      | None => download_failed metadata (JsError "Response body is not readable") w1
      | Some reader =>
        let totalBytes := totalBytes_of response startByte in
        let chunks := restored_chunks id w in
        let w2 := streamed id totalBytes (stream_chunks reader) chunks startByte w1 in
        match stream_failure reader with
        | Some e => download_failed metadata e w2
        | None =>
          let modelBlob := concat (chunks ++ stream_chunks reader) in
          let w3 :=
            emitted (DownloadProgress.mk id totalBytes totalBytes (num_of_Z 100) verifying None)
              (logged LogLevel ("[ModelManager] Verifying " +:+ id +:+ "...") w2) in
          if verifyChecksum modelBlob (ModelMetadata.checksum metadata)
          then
            (Ok tt,
             emitted (DownloadProgress.mk id totalBytes totalBytes (num_of_Z 100) complete None)
               (logged LogLevel ("[ModelManager] Model downloaded and verified: " +:+ id)
                  (cleared id (stored metadata modelBlob w3))))
          else
            download_failed metadata
              (JsError ("Checksum verification failed for " +:+ id)) w3
        end
      end
  end.

(** The events dispatched between two worlds. *)
Definition new_events (w w' : World) : list DownloadProgress :=
  drop (length (dispatched w)) (dispatched w').

(** The events of one download attempt, in the order of dispatch. *)
Definition download_events (env : Env) (metadata : ModelMetadata) (u : string) (w : World)
    : list DownloadProgress :=
  let id := ModelMetadata.id metadata in
  let startByte := resume_offset id w in
  match net env (download_request u id w) with
  | Throw e => [error_event metadata e]
  | Ok response =>
    if negb (ok response) && negb (status response =? 206)
    then [error_event metadata (JsError ("Download failed: " +:+ statusText response))]
    else
      match body response with
      | None => [error_event metadata (JsError "Response body is not readable")]
      | Some reader =>
        let totalBytes := totalBytes_of response startByte in
        let chunks := restored_chunks id w in
        stream_events id totalBytes (stream_chunks reader) startByte ++
        match stream_failure reader with
        | Some e => [error_event metadata e]
        | None =>
          verifying_event id totalBytes ::
          (if verifyChecksum (concat (chunks ++ stream_chunks reader))
                (ModelMetadata.checksum metadata)
           then [complete_event id totalBytes]
           else [error_event metadata (JsError ("Checksum verification failed for " +:+ id))])
        end
      end
  end.


Definition is_downloading (ev : DownloadProgress) : bool :=
  match DownloadProgress.status ev with
  | downloading => true
  | _ => false
  end.



(** What the code fills in for [percentage], by status. *)
Definition percentage_by_status (ev : DownloadProgress) : Prop :=
  match DownloadProgress.status ev with
  | downloading =>
      DownloadProgress.percentage ev =
      num_mul (num_div (DownloadProgress.bytesDownloaded ev) (DownloadProgress.totalBytes ev))
        (num_of_Z 100)
  | verifying | complete => DownloadProgress.percentage ev = num_of_Z 100
  | error => DownloadProgress.percentage ev = num_of_Z 0
  | pending => False
  end.

(** What the code fills in for [totalBytes], by status. *)
Definition totalBytes_by_status (metadata : ModelMetadata) (totalBytes : number)
    (ev : DownloadProgress) : Prop :=
  match DownloadProgress.status ev with
  | error => DownloadProgress.totalBytes ev = num_of_Z (ModelMetadata.size metadata)
  | _ => DownloadProgress.totalBytes ev = totalBytes
  end.

(* ===================================================================== *)
(** * Vocabulary: the [models] store and background acquisition *)
(* ===================================================================== *)

(** The invariant of the [models] store: every record is flagged verified,
    its blob matches the checksum of its metadata, and it sits under its id. *)
Definition store_verified (w : World) : Prop :=
  forall id r, models w !! id = Some r ->
    ModelRecord.verified r = true
    /\ verifyChecksum (ModelRecord.blob r) (ModelMetadata.checksum (ModelRecord.metadata r)) = true
    /\ ModelRecord.id r = id.

(** One step of the [models] store: nothing, or one put of a blob that has
    just passed [verifyChecksum], flagged verified. *)
Definition verified_put (w w' : World) : Prop :=
  models w' = models w
  \/ exists metadata blob,
       verifyChecksum blob (ModelMetadata.checksum metadata) = true
       /\ models w' =
          <[ModelMetadata.id metadata :=
              ModelRecord.mk (ModelMetadata.id metadata) metadata blob true]> (models w).

(** The manifest entry that [startBackgroundModelFetch] looks up. *)
Definition recommended (manifest : list ModelMetadata) (capabilities : DeviceCapabilities)
    : option ModelMetadata :=
  List.find
    (fun m => bool_decide (ModelMetadata.id m = DeviceCapabilities.recommendedModel capabilities))
    manifest.

(** Storage headroom as [checkStorageAvailability] reads it off an estimate. *)
Definition headroom (estimate : StorageEstimate) : Z :=
  Z_or (quota estimate) 0 - Z_or (usage estimate) 0.

Definition ready_in (id : string) (w : World) : bool :=
  match models w !! id with
  | Some r => ModelRecord.verified r
  | None => false
  end.

(** [startBackgroundModelFetch] case by case. *)
Definition background_outcome (env : Env) (manifest : list ModelMetadata)
    (capabilities : DeviceCapabilities) (w : World) : Result unit * World :=
  match recommended manifest capabilities with
  | None => (Ok tt, logged LogLevel "[ModelManager] No additional models to fetch" w)
  | Some model =>
    if ModelMetadata.isSeed model
    then (Ok tt, logged LogLevel "[ModelManager] No additional models to fetch" w)
    else if ready_in (ModelMetadata.id model) w
    then (Ok tt, logged LogLevel
                   ("[ModelManager] Model already available: " +:+ ModelMetadata.id model) w)
    else if match storage_estimate env with
            | Some estimate => bool_decide (ModelMetadata.size model <= headroom estimate)
            | None => true
            end
    then
      let attempt :=
        downloadModelInBackground env model
          (logged LogLevel
             ("[ModelManager] Starting background fetch: " +:+ ModelMetadata.id model) w) in
      (Ok tt,
       match fst attempt with
       | Ok _ => snd attempt
       | Throw _ => logged ErrorLevel "[ModelManager] Background download failed:" (snd attempt)
       end)
    else (Ok tt, logged WarnLevel "[ModelManager] Insufficient storage for model download" w)
  end.

(* ===================================================================== *)
(** * Vocabulary: strings, bytes and the cipher *)
(* ===================================================================== *)

(** Ranges of octets, sextets and Unicode scalar values. *)
Definition octet (z : Z) : Prop := 0 <= z < 256.
Definition sextet (z : Z) : Prop := 0 <= z < 64.
Definition scalar (c : Z) : Prop := 0 <= c < 0xD800 \/ 0xE000 <= c < 0x110000.

(** Every code unit is one, and every surrogate is half of a pair. *)
Fixpoint well_formed (s : ustring) : bool :=
  match s with
  | [] => true
  | u :: rest =>
      if is_high_surrogate u
      then match rest with
           | l :: rest' => is_low_surrogate l && well_formed rest'
           | [] => false
           end
      else negb (is_low_surrogate u) && (0 <=? u) && (u <? 0x10000) && well_formed rest
  end.

(** The string does not begin with U+FEFF. *)
Definition no_leading_bom (s : ustring) : bool :=
  match s with
  | u :: _ => negb (u =? 0xFEFF)
  | [] => true
  end.

(** What is asked of AES-GCM: decryption under the key and iv of the
    encryption gives the plaintext back. *)
Definition aes_gcm_correct (wc : WebCrypto) : Prop :=
  forall key iv plaintext,
    aes_gcm_decrypt wc key iv (aes_gcm_encrypt wc key iv plaintext) = Some plaintext.

(** Linear arithmetic with division and remainder by constants. *)
Ltac divlia := Z.div_mod_to_equations; lia.

(** The response is one the download goes on with: a success or a 206. *)
Definition accepted (response : Response) : Prop :=
  ok response = true \/ status response = 206.

(** The [downloading] event dispatched when [bytesDownloaded] bytes are in. *)
Definition downloading_event (id : string) (totalBytes : number) (bytesDownloaded : Z)
    : DownloadProgress :=
  DownloadProgress.mk id (num_of_Z bytesDownloaded) totalBytes
    (num_mul (num_div (num_of_Z bytesDownloaded) totalBytes) (num_of_Z 100))
    downloading None.


(** The request [loadSeedModel] sends for a bundled artifact. *)
Definition seed_request (id : string) : Request :=
  {| req_url := "/models/" +:+ id +:+ ".gguf"; req_headers := [] |}.

(** What [response.blob()] resolves or rejects with. *)
Definition body_bytes (response : Response) : Result Blob :=
  match body response with
  | None => Ok []
  | Some s => match stream_failure s with
              | None => Ok (concat (stream_chunks s))
              | Some e => Throw e
              end
  end.

(** The body of the loop of [ensureSeedModels]. *)
Definition ensure_seed (env : Env) (model : ModelMetadata) : M unit :=
  ready <- isModelReady (ModelMetadata.id model) ;;
  if negb ready
  then
    console_call LogLevel ("[ModelManager] Loading seed model: " +:+ ModelMetadata.id model) ;;;
    loadSeedModel env model
  else
    console_call LogLevel
      ("[ModelManager] Seed model already cached: " +:+ ModelMetadata.id model).

(** Two worlds that differ in the console at most. *)
Definition same_but_console (w w' : World) : Prop :=
  models w' = models w /\ downloadProgress w' = downloadProgress w
  /\ dispatched w' = dispatched w /\ requests w' = requests w.

(** A character of base64 text: one of the alphabet, or the padding. *)
Definition is_b64_char (c : ascii) : bool :=
  match b64_value c with
  | Some _ => true
  | None => is_pad c
  end.

(** A hexadecimal digit of either case. *)
Definition hex_char (c : ascii) : bool :=
  let n := nat_of_ascii c in
  ((48 <=? n) && (n <=? 57) || (97 <=? n) && (n <=? 102) || (65 <=? n) && (n <=? 70))%nat.

(** [String.prototype.toWellFormed]: every surrogate that is not half of a
    pair is replaced by U+FFFD. *)
Fixpoint toWellFormed (s : ustring) : ustring :=
  match s with
  | [] => []
  | u :: rest =>
      if is_high_surrogate u
      then match rest with
           | l :: rest' =>
               if is_low_surrogate l then u :: l :: toWellFormed rest'
               else 0xFFFD :: toWellFormed rest
           | [] => [0xFFFD]
           end
      else if is_low_surrogate u then 0xFFFD :: toWellFormed rest
      else u :: toWellFormed rest
  end.

(** The string without a leading U+FEFF. *)
Definition drop_leading_bom (s : ustring) : ustring :=
  match s with
  | u :: rest => if u =? 0xFEFF then rest else s
  | [] => []
  end.

(** A UTF-16 code unit. *)
Definition code_unit (u : Z) : Prop := 0 <= u < 0x10000.

(** The model that goes with a performance tier. *)
Definition model_of_tier (tier : Z) : string :=
  if tier =? 3 then "llm-medium-q4" else if tier =? 2 then "llm-small-q4" else "llm-seed-q8".

(** One of the licences the script neither bundles nor knows to restrict. *)
Definition unknown_license (license : string) : Prop :=
  (license ∉ ALLOWED_LICENSES) /\ (license ∉ RESTRICTED_LICENSES).

(** The runtime after an LLM instance has been created for [blob]. *)
Definition llm_started (blob : Blob) (rt : Runtime) : Runtime :=
  {| llamaInstance := Some {| llama_model := blob |}; whisperInstance := whisperInstance rt |}.

(** The runtime after an STT instance has been created for [blob]. *)
Definition stt_started (blob : Blob) (rt : Runtime) : Runtime :=
  {| llamaInstance := llamaInstance rt; whisperInstance := Some {| whisper_model := blob |} |}.



(** Every record of the [models] store sits under the id of its metadata. *)
Definition store_keyed (w : World) : Prop :=
  forall id r, models w !! id = Some r -> ModelMetadata.id (ModelRecord.metadata r) = id.

(* ===================================================================== *)
(** * Concrete artifacts, responses and worlds *)
(* ===================================================================== *)

(** A non-seed descriptor of [size] bytes with the given checksum. *)
Definition sample_descriptor (size : Z) (checksum : string) : ModelMetadata :=
  ModelMetadata.mk "llm-small-q4" "Small LLM (Q4)" llm "1.0" size "Q4_K_M"
    ["referral-generation"; "en"; "ar"]%string "Apache-2.0" true checksum None
    (Some "https://models.example.com/llm-small-q4.gguf"%string) false.

Definition sha256_of_abc : string :=
  "ba7816bf8f01cfea414140de5dae2223b00361a396177a9cb410ff61f20015ad".

Definition sha256_of_empty : string :=
  "e3b0c44298fc1c149afbf4c8996fb92427ae41e4649b934ca495991b7852b855".

Definition abc_descriptor : ModelMetadata := sample_descriptor 1000 sha256_of_abc.

Definition other_descriptor : ModelMetadata := sample_descriptor 1000 sha256_of_empty.

(** A bundled seed artifact whose bytes are "abc". *)
Definition seed_descriptor : ModelMetadata :=
  ModelMetadata.mk "llm-seed-q8" "Seed LLM (Q8)" llm "1.0" 3 "Q8_0"
    ["referral-generation"; "en"; "ar"]%string "Apache-2.0" true sha256_of_abc None None true.

(** A mid-range device: the recommended model is the small one. *)
Definition mid_range_device : DeviceCapabilities :=
  DeviceCapabilities.mk true false 4 4 false "llm-small-q4".

Definition sample_response (st : Z) (text : string) (len : option string)
    (values : list Uint8Array) (failure : option exn) : Response :=
  {| status := st; statusText := text; content_length := len;
     body := Some {| stream_chunks := values; stream_failure := failure |} |}.

(** A network that answers every request alike, and a browser without the
    storage-estimate API or with the given quota and usage. *)
Definition constant_env (answer : Result Response) (estimate : option StorageEstimate) : Env :=
  {| net := fun _ => answer; storage_estimate := estimate |}.

(** The answer to a request without [Content-Length] whose body is the three
    bytes of "abc", and a descriptor of 1000 declared bytes for it. *)
Definition abc_without_length : Env :=
  constant_env (Ok (sample_response 200 "OK" None [bytes_of_string "abc"] None)) None.

(** The three bytes of "abc" with their length declared, and a descriptor
    that expects other content (the checksum of the empty blob). *)
Definition abc_with_length : Env :=
  constant_env (Ok (sample_response 200 "OK" (Some "3"%string) [bytes_of_string "abc"] None))
    None.

(** Scenario D, the answer: 206 with the 400 000 remaining bytes declared. *)
Definition remaining_400000 : Env :=
  constant_env
    (Ok (sample_response 206 "Partial Content" (Some "400000"%string)
           [bytes_of_string "abc"] None)) None.

(** Scenario D: 600 000 of 1 000 000 bytes were checkpointed before a restart. *)
Definition interrupted_world : World :=
  {| models := ∅;
     downloadProgress :=
       {[ "llm-small-q4"%string :=
            ProgressRecord.mk "llm-small-q4" 600000 (num_of_Z 1000000)
              (repeat (bytes_of_string "chunk") 10) ]};
     dispatched := []; requests := []; console := [] |}.

(** A stand-in for the key derivation and the cipher: the key is the first
    byte of the salt, the ciphertext is the plaintext behind that byte. *)
Definition tagging_cipher : WebCrypto :=
  {| CryptoKey := byte;
     pbkdf2 := fun _ salt _ _ => hd x00 salt;
     aes_gcm_encrypt := fun key _ plaintext => key :: plaintext;
     aes_gcm_decrypt := fun key _ ciphertext =>
       match ciphertext with
       | tag :: plaintext => if Byte.eqb tag key then Some plaintext else None
       | [] => None
       end |}.

(** A world whose [models] store holds the verified bytes "abc". *)
Definition abc_stored : World :=
  stored abc_descriptor (bytes_of_string "abc") empty_world.

Definition no_runtime : Runtime := {| llamaInstance := None; whisperInstance := None |}.

(** A referral, and a [JSON] that knows only this one. *)
Definition chest_pain : ReferralOutput :=
  ReferralOutput.mk "r-1" 1700000000000 (ustring_of "Cardiology")
    (ustring_of "Evaluation of chest pain") urgent (ustring_of "1-2 weeks")
    (ustring_of "30-45 minutes") (ustring_of "Intermittent chest pain") []
    (Num (82 # 100)) "llm-seed-q8" en.

Definition chest_pain_json : JSON :=
  {| stringify := fun _ => ustring_of "{}";
     parse := fun text => if bool_decide (text = ustring_of "{}") then Some chest_pain else None |}.

(* ===================================================================== *)
(** * Properties *)
(* ===================================================================== *)

(** ** Test vectors *)

Example sha256_empty :
  computeChecksum [] =
  "e3b0c44298fc1c149afbf4c8996fb92427ae41e4649b934ca495991b7852b855"%string.
Proof. vm_compute. reflexivity. Qed.

Example sha256_abc :
  computeChecksum (bytes_of_string "abc") =
  "ba7816bf8f01cfea414140de5dae2223b00361a396177a9cb410ff61f20015ad"%string.
Proof. vm_compute. reflexivity. Qed.

Example sha256_two_blocks :
  computeChecksum
    (bytes_of_string "abcdbcdecdefdefgefghfghighijhijkijkljklmklmnlmnomnopnopq") =
  "248d6a61d20638b8e5c026930c3e6039a33ce45964ff2167f6ecedd419db06c1"%string.
Proof. vm_compute. reflexivity. Qed.

Example parseInt_decimal : parseInt "400000" = num_of_Z 400000.
Proof. reflexivity. Qed.

Example parseInt_prefix : parseInt " 12px" = num_of_Z 12.
Proof. reflexivity. Qed.

Example parseInt_hex : parseInt "0x1F" = num_of_Z 31.
Proof. reflexivity. Qed.

Example parseInt_nan : parseInt "chunked" = NaN.
Proof. reflexivity. Qed.

Example parseInt_zero : parseInt "0" = num_of_Z 0.
Proof. reflexivity. Qed.

(* ===================================================================== *)
(** * The integrity verifier *)
(* ===================================================================== *)

Lemma digest_length (msg : list byte) : length (SHA256.digest msg) = 32%nat.
Proof. unfold SHA256.digest. rewrite length_map. reflexivity. Qed.

Lemma toLowerCase_app (s t : string) :
  toLowerCase (s +:+ t) = toLowerCase s +:+ toLowerCase t.
Proof. induction s as [|c s IH]; simpl; [reflexivity | now rewrite IH]. Qed.

Lemma toUpperCase_app (s t : string) :
  toUpperCase (s +:+ t) = toUpperCase s +:+ toUpperCase t.
Proof. induction s as [|c s IH]; simpl; [reflexivity | now rewrite IH]. Qed.

Lemma all_chars_app (p : ascii -> bool) (s t : string) :
  all_chars p (s +:+ t) = all_chars p s && all_chars p t.
Proof.
  induction s as [|c s IH]; simpl; [reflexivity |].
  rewrite IH. now rewrite andb_assoc.
Qed.

Lemma length_string_app (s t : string) :
  String.length (s +:+ t) = (String.length s + String.length t)%nat.
Proof. induction s as [|c s IH]; simpl; [reflexivity | now rewrite IH]. Qed.

Lemma hex_of_byte_facts (b : byte) :
  String.length (hex_of_byte b) = 2%nat
  /\ all_chars lower_hex_char (hex_of_byte b) = true
  /\ toLowerCase (hex_of_byte b) = hex_of_byte b
  /\ toLowerCase (toUpperCase (hex_of_byte b)) = hex_of_byte b.
Proof. destruct b; vm_compute; repeat split; reflexivity. Qed.

Lemma bufferToHex_cons (b : byte) (bs : list byte) :
  bufferToHex (b :: bs) = hex_of_byte b +:+ bufferToHex bs.
Proof. reflexivity. Qed.

Lemma bufferToHex_facts (bs : list byte) :
  String.length (bufferToHex bs) = (2 * length bs)%nat
  /\ all_chars lower_hex_char (bufferToHex bs) = true
  /\ toLowerCase (bufferToHex bs) = bufferToHex bs
  /\ toLowerCase (toUpperCase (bufferToHex bs)) = bufferToHex bs.
Proof.
  induction bs as [|b bs (IHlen & IHhex & IHlow & IHup)].
  - repeat split; reflexivity.
  - destruct (hex_of_byte_facts b) as (Hlen & Hhex & Hlow & Hup).
    rewrite bufferToHex_cons.
    rewrite length_string_app, all_chars_app, toUpperCase_app, !toLowerCase_app.
    rewrite Hlen, Hhex, Hlow, Hup, IHlen, IHhex, IHlow, IHup.
    repeat split; simpl; lia.
Qed.

Lemma verifyChecksum_true (blob : Blob) (expected : string) :
  verifyChecksum blob expected = true <-> computeChecksum blob = toLowerCase expected.
Proof. unfold verifyChecksum. apply bool_decide_eq_true. Qed.

(** C5. For every blob B, [verify(B, checksum(B))] is true; the checksum is
    the SHA-256 digest of the blob's bytes written as 64 lowercase
    hexadecimal characters; and the expected value is compared without regard
    to case: [verify(B, uppercase(checksum(B)))] is true as well. *)
Theorem verifyChecksum_computeChecksum (B : Blob) :
  verifyChecksum B (computeChecksum B) = true
  /\ computeChecksum B = bufferToHex (SHA256.digest B)
  /\ String.length (computeChecksum B) = 64%nat
  /\ all_chars lower_hex_char (computeChecksum B) = true
  /\ verifyChecksum B (toUpperCase (computeChecksum B)) = true.
Proof.
  unfold computeChecksum.
  destruct (bufferToHex_facts (SHA256.digest B)) as (Hlen & Hhex & Hlow & Hup).
  rewrite digest_length in Hlen.
  repeat split; try assumption.
  - apply verifyChecksum_true. unfold computeChecksum. now rewrite Hlow.
  - apply verifyChecksum_true. unfold computeChecksum. now rewrite Hup.
Qed.

Example verify_abc_uppercase :
  verifyChecksum (bytes_of_string "abc")
    "BA7816BF8F01CFEA414140DE5DAE2223B00361A396177A9CB410FF61F20015AD" = true.
Proof. vm_compute. reflexivity. Qed.

Example verify_abc_flipped :
  verifyChecksum (bytes_of_string "abd")
    "ba7816bf8f01cfea414140de5dae2223b00361a396177a9cb410ff61f20015ad" = false.
Proof. vm_compute. reflexivity. Qed.

(* ===================================================================== *)
(** * The download engine, case by case *)
(* ===================================================================== *)

Lemma world_eta (w : World) :
  {| models := models w; downloadProgress := downloadProgress w;
     dispatched := dispatched w; requests := requests w; console := console w |} = w.
Proof. now destruct w. Qed.

Lemma read_stream_run (id : string) (totalBytes : number) (failure : option exn)
    (values chunks : list Uint8Array) (bytesDownloaded : Z) (w : World) :
  read_stream id totalBytes values failure chunks bytesDownloaded w =
  (match failure with
   | None => Ok (chunks ++ values, stream_bytes values bytesDownloaded)
   | Some e => Throw e
   end,
   streamed id totalBytes values chunks bytesDownloaded w).
Proof.
  revert chunks bytesDownloaded w.
  induction values as [|value rest IH]; intros chunks bytesDownloaded w.
  - unfold streamed; cbn. rewrite !app_nil_r, world_eta.
    now destruct failure.
  - cbn [read_stream]. unfold streamed, bind.
    cbn [stream_events stream_checkpoints stream_bytes fold_left].
    destruct (Z.of_nat (length (chunks ++ [value])) mod 10 =? 0);
      cbn [saveDownloadProgress ret emitDownloadProgress];
      rewrite IH; unfold streamed;
      cbn [models downloadProgress dispatched requests console];
      rewrite <- !app_assoc; reflexivity.
Qed.

Lemma download_run (env : Env) (metadata : ModelMetadata) (u : string) (w : World) :
  ModelMetadata.url metadata = Some u -> u <> EmptyString ->
  downloadModelInBackground env metadata w = download_outcome env metadata u w.
Proof.
  intros Hurl Hne.
  unfold downloadModelInBackground, download_outcome. rewrite Hurl.
  destruct u as [|c u]; [congruence|].
  unfold try_catch, bind, getDownloadProgress, fetch, download_failed, resume_offset,
    restored_chunks, download_request, logged, emitted, sent, stored, cleared.
  cbn [console_call fst snd models downloadProgress dispatched requests console].
  destruct (net env _) as [response|e]; [|reflexivity].
  destruct (negb (ok response) && negb (status response =? 206)); [reflexivity|].
  destruct (body response) as [reader|]; [|reflexivity].
  rewrite read_stream_run.
  destruct (stream_failure reader) as [e|]; [reflexivity|].
  cbn [console_call emitDownloadProgress fst snd].
  destruct (verifyChecksum _ _); reflexivity.
Qed.

Lemma new_events_app (w w' : World) (evs : list DownloadProgress) :
  dispatched w' = dispatched w ++ evs -> new_events w w' = evs.
Proof. intros H. unfold new_events. rewrite H. apply drop_app_length. Qed.

Lemma download_dispatched (env : Env) (metadata : ModelMetadata) (u : string) (w : World) :
  dispatched (snd (download_outcome env metadata u w)) =
  dispatched w ++ download_events env metadata u w.
Proof.
  unfold download_outcome, download_events, download_failed.
  destruct (net env _) as [response|e]; [|reflexivity].
  destruct (negb (ok response) && negb (status response =? 206)); [reflexivity|].
  destruct (body response) as [reader|]; [|reflexivity].
  destruct (stream_failure reader) as [e|].
  - cbn. now rewrite <- app_assoc.
  - destruct (verifyChecksum _ _); cbn; now rewrite <- !app_assoc.
Qed.

Lemma download_requests (env : Env) (metadata : ModelMetadata) (u : string) (w : World) :
  requests (snd (download_outcome env metadata u w)) =
  requests w ++ [download_request u (ModelMetadata.id metadata) w].
Proof.
  unfold download_outcome, download_failed.
  destruct (net env _) as [response|e]; [|reflexivity].
  destruct (negb (ok response) && negb (status response =? 206)); [reflexivity|].
  destruct (body response) as [reader|]; [|reflexivity].
  destruct (stream_failure reader) as [e|]; [reflexivity|].
  destruct (verifyChecksum _ _); reflexivity.
Qed.

(** A download without a usable URL throws before it does anything. *)
Lemma download_no_url (env : Env) (metadata : ModelMetadata) (w : World) :
  ModelMetadata.url metadata = None \/ ModelMetadata.url metadata = Some EmptyString ->
  downloadModelInBackground env metadata w =
  (Throw (JsError ("No URL specified for model " +:+ ModelMetadata.id metadata)), w).
Proof.
  intros [H|H]; unfold downloadModelInBackground; rewrite H; reflexivity.
Qed.

Lemma url_cases (metadata : ModelMetadata) :
  (ModelMetadata.url metadata = None \/ ModelMetadata.url metadata = Some EmptyString)
  \/ exists u, ModelMetadata.url metadata = Some u /\ u <> EmptyString.
Proof.
  destruct (ModelMetadata.url metadata) as [[|c u]|]; eauto.
Qed.

(* ===================================================================== *)
(** * Resuming and rejecting (step 1 and 2 of the download) *)
(* ===================================================================== *)

Lemma resume_offset_stored (id : string) (w : World) (p : ProgressRecord) :
  downloadProgress w !! id = Some p ->
  resume_offset id w = ProgressRecord.bytesDownloaded p.
Proof.
  intros H. unfold resume_offset. rewrite H. cbn.
  destruct (Z.eqb_spec (ProgressRecord.bytesDownloaded p) 0); congruence.
Qed.

Lemma resume_offset_fresh (id : string) (w : World) :
  downloadProgress w !! id = None -> resume_offset id w = 0.
Proof. intros H. unfold resume_offset. now rewrite H. Qed.

Lemma download_rejected (env : Env) (metadata : ModelMetadata) (u : string) (w : World)
    (response : Response) :
  net env (download_request u (ModelMetadata.id metadata) w) = Ok response ->
  ok response = false -> status response <> 206 ->
  let e := JsError ("Download failed: " +:+ statusText response) in
  fst (download_outcome env metadata u w) = Throw e
  /\ models (snd (download_outcome env metadata u w)) = models w
  /\ downloadProgress (snd (download_outcome env metadata u w)) = downloadProgress w
  /\ download_events env metadata u w = [error_event metadata e].
Proof.
  intros Hnet Hok Hst. unfold download_outcome, download_events. rewrite Hnet, Hok.
  destruct (Z.eqb_spec (status response) 206); [contradiction|].
  repeat split; reflexivity.
Qed.

(** C6. A download that finds a prior DownloadState with
    [bytesDownloaded = k > 0] sends exactly one request, carrying the header
    [Range: bytes=k-]; without a prior state, or with [k = 0], it sends one
    request without a Range header. A response that is neither a success
    (status 200..299) nor 206 is rejected: the download throws
    "Download failed: ...", stores nothing and ends on an error event. *)
Theorem download_range_request (env : Env) (metadata : ModelMetadata) (u : string)
    (w : World) :
  ModelMetadata.url metadata = Some u -> u <> EmptyString ->
  let id := ModelMetadata.id metadata in
  let run := downloadModelInBackground env metadata w in
  (forall p k, downloadProgress w !! id = Some p ->
     ProgressRecord.bytesDownloaded p = k -> 0 < k ->
     requests (snd run) =
     requests w ++ [{| req_url := u;
                       req_headers := [("Range", "bytes=" +:+ Z_to_string k +:+ "-")]%string |}])
  /\ (downloadProgress w !! id = None
      \/ (exists p, downloadProgress w !! id = Some p /\ ProgressRecord.bytesDownloaded p = 0) ->
      requests (snd run) = requests w ++ [{| req_url := u; req_headers := [] |}])
  /\ (forall rq response, last (requests (snd run)) = Some rq ->
        net env rq = Ok response -> ok response = false -> status response <> 206 ->
        fst run = Throw (JsError ("Download failed: " +:+ statusText response))
        /\ models (snd run) = models w
        /\ last (new_events w (snd run)) =
           Some (error_event metadata
                   (JsError ("Download failed: " +:+ statusText response)))).
Proof.
  intros Hurl Hne id run. subst run.
  rewrite (download_run env metadata u w Hurl Hne).
  rewrite download_requests. fold id.
  split; [|split].
  - intros p k Hp Hk Hpos. unfold download_request, range_headers.
    rewrite (resume_offset_stored id w p Hp), Hk.
    destruct (Z.ltb_spec 0 k); [reflexivity | lia].
  - intros [Hp | (p & Hp & Hk)]; unfold download_request, range_headers.
    + now rewrite (resume_offset_fresh id w Hp).
    + now rewrite (resume_offset_stored id w p Hp), Hk.
  - intros rq response Hlast Hnet Hok Hst.
    rewrite last_snoc in Hlast. injection Hlast as <-.
    destruct (download_rejected env metadata u w response Hnet Hok Hst)
      as (Hres & Hmodels & _ & Hev).
    rewrite (new_events_app _ _ _ (download_dispatched env metadata u w)), Hev.
    repeat split; assumption || reflexivity.
Qed.

(** Scenario D: after 600 000 checkpointed bytes, the next request asks for
    [bytes=600000-]; a 416 answer is rejected. *)
Lemma download_range_request_witness :
  let metadata := sample_descriptor 1000000 sha256_of_abc in
  let env := constant_env (Ok (sample_response 416 "Range Not Satisfiable" None [] None)) None in
  let run := downloadModelInBackground env metadata interrupted_world in
  requests (snd run) =
    [{| req_url := "https://models.example.com/llm-small-q4.gguf";
        req_headers := [("Range", "bytes=600000-")]%string |}]
  /\ fst run = Throw (JsError "Download failed: Range Not Satisfiable").
Proof.
  intros metadata env run.
  destruct (download_range_request env metadata
              "https://models.example.com/llm-small-q4.gguf" interrupted_world
              eq_refl ltac:(discriminate)) as (Hresume & _ & Hreject).
  split.
  - exact (Hresume _ 600000 eq_refl eq_refl eq_refl).
  - refine (proj1 (Hreject _ _ _ eq_refl eq_refl ltac:(discriminate))).
    vm_compute. reflexivity.
Defined.

(* ===================================================================== *)
(** * Arithmetic of [number] on integers *)
(* ===================================================================== *)

Lemma Qred_inject_Z (z : Z) : Qred (inject_Z z) = inject_Z z.
Proof. apply Qred_identity. simpl. apply Z.gcd_1_r. Qed.

Lemma num_add_Z (a b : Z) : num_add (num_of_Z a) (num_of_Z b) = num_of_Z (a + b).
Proof.
  unfold num_add, num_of_Z. now rewrite <- inject_Z_plus, Qred_inject_Z.
Qed.


Lemma percentage_in_range (bd tb : Z) :
  0 <= bd <= tb -> 0 < tb ->
  let p := num_mul (num_div (num_of_Z bd) (num_of_Z tb)) (num_of_Z 100) in
  num_le (num_of_Z 0) p = true /\ num_le p (num_of_Z 100) = true.
Proof.
  intros Hbd Htb p. subst p. unfold num_div, num_mul, num_of_Z, num_sign.
  cbn [Qnum inject_Z].
  destruct (Z.eqb_spec (Z.sgn tb) 0) as [Hs|_]; [apply Z.sgn_null_iff in Hs; lia|].
  unfold num_le. rewrite !Qle_bool_iff.
  rewrite !Qred_correct.
  destruct tb as [|t|t]; try lia.
  unfold Qle, Qdiv, Qinv, inject_Z; cbn [Qnum Qden Qmult].
  rewrite ?Pos.mul_1_r, ?Pos.mul_1_l, ?Z.mul_1_r. nia.
Qed.

(* ===================================================================== *)
(** * Progress events *)
(* ===================================================================== *)

Lemma stream_events_shape (id : string) (totalBytes : number) (values : list Uint8Array)
    (bytesDownloaded : Z) :
  Forall (fun ev => DownloadProgress.status ev = downloading
                    /\ DownloadProgress.totalBytes ev = totalBytes
                    /\ percentage_by_status ev)
    (stream_events id totalBytes values bytesDownloaded).
Proof.
  revert bytesDownloaded.
  induction values as [|value rest IH]; intros bytesDownloaded; cbn [stream_events].
  - constructor.
  - constructor; [|apply IH]. repeat split.
Qed.

(** With or without a URL, the events of a download are appended to those
    already dispatched. *)
Lemma download_new_events (env : Env) (metadata : ModelMetadata) (w : World) :
  new_events w (snd (downloadModelInBackground env metadata w)) =
  match ModelMetadata.url metadata with
  | Some (String c u) => download_events env metadata (String c u) w
  | _ => []
  end.
Proof.
  destruct (url_cases metadata) as [Hno | (u & Hurl & Hne)].
  - rewrite (download_no_url env metadata w Hno).
    apply new_events_app. destruct Hno as [-> | ->]; now rewrite app_nil_r.
  - rewrite (download_run env metadata u w Hurl Hne), Hurl.
    destruct u as [|c u]; [congruence|].
    apply new_events_app, download_dispatched.
Qed.

Lemma download_events_percentage (env : Env) (metadata : ModelMetadata) (u : string)
    (w : World) :
  Forall percentage_by_status (download_events env metadata u w).
Proof.
  unfold download_events.
  destruct (net env _) as [response|e]; [|repeat constructor].
  destruct (negb (ok response) && negb (status response =? 206)); [repeat constructor|].
  destruct (body response) as [reader|]; [|repeat constructor].
  apply Forall_app. split.
  - eapply Forall_impl; [apply stream_events_shape|]. now intros ev (_ & _ & H).
  - destruct (stream_failure reader); [repeat constructor|].
    destruct (verifyChecksum _ _); repeat constructor.
Qed.

(** C8 (as the code has it). Every event dispatched by a download carries
    the percentage its status determines: a [downloading] event carries
    [(bytesDownloaded / totalBytes) * 100] as computed, without clamping;
    [verifying] and [complete] events carry 100; an [error] event carries 0.
    The [downloading] percentage lies in [0, 100] whenever
    [0 <= bytesDownloaded <= totalBytes] and [totalBytes > 0]. *)
Theorem progress_percentage (env : Env) (metadata : ModelMetadata) (w : World) :
  Forall percentage_by_status
    (new_events w (snd (downloadModelInBackground env metadata w)))
  /\ (forall bd tb : Z, 0 <= bd <= tb -> 0 < tb ->
        let p := num_mul (num_div (num_of_Z bd) (num_of_Z tb)) (num_of_Z 100) in
        num_le (num_of_Z 0) p = true /\ num_le p (num_of_Z 100) = true).
Proof.
  split; [|apply percentage_in_range].
  rewrite download_new_events.
  destruct (ModelMetadata.url metadata) as [[|c u]|]; try constructor.
  apply download_events_percentage.
Qed.

Lemma progress_percentage_witness :
  Forall percentage_by_status
    (new_events empty_world
       (snd (downloadModelInBackground abc_without_length abc_descriptor empty_world)))
  /\ (let p := num_mul (num_div (num_of_Z 94371840) (num_of_Z 188743680)) (num_of_Z 100) in
      num_le (num_of_Z 0) p = true /\ num_le p (num_of_Z 100) = true).
Proof.
  destruct (progress_percentage abc_without_length abc_descriptor empty_world)
    as (Hshape & Hrange).
  split; [exact Hshape|].
  apply (Hrange 94371840 188743680); lia.
Defined.

(** C8, as stated, fails: a response without [Content-Length] makes
    [totalBytes] 0 on a fresh download, and the first [downloading] event
    carries the percentage [3 / 0 * 100], which is infinite. *)
Lemma percentage_not_clamped :
  map DownloadProgress.percentage
    (new_events empty_world
       (snd (downloadModelInBackground abc_without_length abc_descriptor empty_world)))
  = [PosInfinity; num_of_Z 100; num_of_Z 100]
  /\ num_le PosInfinity (num_of_Z 100) = false.
Proof. vm_compute. split; reflexivity. Qed.

(** The same on a resumed download: 600 003 bytes of a total of 600 000. *)
Example percentage_above_100 :
  let answer := Ok (sample_response 206 "Partial Content" None [bytes_of_string "abc"] None) in
  let evs := new_events interrupted_world
               (snd (downloadModelInBackground (constant_env answer None) abc_descriptor
                       interrupted_world)) in
  map DownloadProgress.percentage evs
  = [Num (200001 # 2000); num_of_Z 100; num_of_Z 100]
  /\ num_le (Num (200001 # 2000)) (num_of_Z 100) = false.
Proof. vm_compute. split; reflexivity. Qed.

(* ===================================================================== *)
(** * [totalBytes] (step 3 of the download) *)
(* ===================================================================== *)

Lemma totalBytes_declared (response : Response) (k : Z) (s : string) (n : Z) :
  content_length response = Some s -> s <> EmptyString -> parseInt s = num_of_Z n ->
  totalBytes_of response k = num_of_Z (n + k).
Proof.
  intros Hlen Hne Hparse. unfold totalBytes_of, str_or. rewrite Hlen.
  rewrite bool_decide_eq_false_2 by assumption.
  rewrite Hparse. apply num_add_Z.
Qed.

Lemma totalBytes_undeclared (response : Response) (k : Z) :
  content_length response = None \/ content_length response = Some EmptyString ->
  totalBytes_of response k = num_of_Z k.
Proof.
  intros [H|H]; unfold totalBytes_of, str_or; rewrite H; cbn [bool_decide decide];
    change (parseInt "0") with (num_of_Z 0); apply num_add_Z.
Qed.

Lemma download_events_totalBytes (env : Env) (metadata : ModelMetadata) (u : string)
    (w : World) (response : Response) :
  net env (download_request u (ModelMetadata.id metadata) w) = Ok response ->
  Forall (totalBytes_by_status metadata
            (totalBytes_of response (resume_offset (ModelMetadata.id metadata) w)))
    (download_events env metadata u w).
Proof.
  intros Hnet. unfold download_events. rewrite Hnet.
  destruct (negb (ok response) && negb (status response =? 206)); [repeat constructor|].
  destruct (body response) as [reader|]; [|repeat constructor].
  apply Forall_app. split.
  - eapply Forall_impl; [apply stream_events_shape|].
    intros ev (Hst & Htb & _). unfold totalBytes_by_status. now rewrite Hst.
  - destruct (stream_failure reader); [repeat constructor|].
    destruct (verifyChecksum _ _); repeat constructor.
Qed.

(** C3 (as the code has it). Every event of a download other than the
    [error] event carries [totalBytes] = the length the response declares,
    read by [parseInt], plus the resume offset; when the response declares no
    length the declared part counts as 0, so [totalBytes] is the resume
    offset alone (0 on a fresh download). The descriptor's size appears in
    the [error] event only. *)
Theorem download_totalBytes (env : Env) (metadata : ModelMetadata) (u : string)
    (w : World) (response : Response) :
  ModelMetadata.url metadata = Some u -> u <> EmptyString ->
  net env (download_request u (ModelMetadata.id metadata) w) = Ok response ->
  let k := resume_offset (ModelMetadata.id metadata) w in
  Forall (totalBytes_by_status metadata (totalBytes_of response k))
    (new_events w (snd (downloadModelInBackground env metadata w)))
  /\ (forall s n, content_length response = Some s -> s <> EmptyString ->
        parseInt s = num_of_Z n -> totalBytes_of response k = num_of_Z (n + k))
  /\ (content_length response = None \/ content_length response = Some EmptyString ->
      totalBytes_of response k = num_of_Z k).
Proof.
  intros Hurl Hne Hnet k. split; [|split].
  - rewrite download_new_events, Hurl.
    destruct u as [|c u]; [congruence|].
    now apply download_events_totalBytes.
  - intros s n. apply totalBytes_declared.
  - apply totalBytes_undeclared.
Qed.

(** Scenario D: 400 000 declared bytes after 600 000 resumed ones. *)
Lemma download_totalBytes_witness :
  map DownloadProgress.totalBytes
    (new_events interrupted_world
       (snd (downloadModelInBackground remaining_400000 abc_descriptor interrupted_world)))
  = [num_of_Z 1000000; num_of_Z 1000000; num_of_Z 1000000]
  /\ totalBytes_of (sample_response 206 "Partial Content" (Some "400000"%string)
                      [bytes_of_string "abc"] None)
       (resume_offset "llm-small-q4" interrupted_world) = num_of_Z (400000 + 600000).
Proof.
  destruct (download_totalBytes remaining_400000 abc_descriptor
              "https://models.example.com/llm-small-q4.gguf" interrupted_world
              (sample_response 206 "Partial Content" (Some "400000"%string)
                 [bytes_of_string "abc"] None)
              eq_refl ltac:(discriminate) eq_refl) as (_ & Hdeclared & _).
  split; [vm_compute; reflexivity|].
  apply (Hdeclared "400000"%string 400000); [reflexivity | discriminate | reflexivity].
Defined.

(** C3, as stated, fails: for a descriptor of 1000 bytes and a response
    without [Content-Length], a fresh download reports [totalBytes = 0] in its
    [downloading], [verifying] and [complete] events; the descriptor's size
    is not consulted. *)
Lemma totalBytes_no_fallback :
  ModelMetadata.size abc_descriptor = 1000
  /\ map DownloadProgress.totalBytes
       (new_events empty_world
          (snd (downloadModelInBackground abc_without_length abc_descriptor empty_world)))
     = [num_of_Z 0; num_of_Z 0; num_of_Z 0]
  /\ map DownloadProgress.status
       (new_events empty_world
          (snd (downloadModelInBackground abc_without_length abc_descriptor empty_world)))
     = [downloading; verifying; complete].
Proof. vm_compute. repeat split; reflexivity. Qed.

(* ===================================================================== *)
(** * Order of the events of one attempt *)
(* ===================================================================== *)






(* ===================================================================== *)
(** * A failed verification (step 5 of the download) *)
(* ===================================================================== *)

Lemma stream_checkpoints_is_Some (id : string) (totalBytes : number)
    (values chunks : list Uint8Array) (bytesDownloaded : Z)
    (store : gmap string ProgressRecord) :
  is_Some (store !! id) ->
  is_Some (stream_checkpoints id totalBytes values chunks bytesDownloaded store !! id).
Proof.
  revert chunks bytesDownloaded store.
  induction values as [|value rest IH]; intros chunks bytesDownloaded store Hsome;
    cbn [stream_checkpoints]; [assumption|].
  apply IH. destruct (_ =? 0); [|assumption].
  rewrite lookup_insert_eq. eauto.
Qed.

Lemma stream_checkpoints_other (id id' : string) (totalBytes : number)
    (values chunks : list Uint8Array) (bytesDownloaded : Z)
    (store : gmap string ProgressRecord) :
  id <> id' ->
  stream_checkpoints id totalBytes values chunks bytesDownloaded store !! id' = store !! id'.
Proof.
  intros Hne. revert chunks bytesDownloaded store.
  induction values as [|value rest IH]; intros chunks bytesDownloaded store;
    cbn [stream_checkpoints]; [reflexivity|].
  rewrite IH. destruct (_ =? 0); [|reflexivity].
  now rewrite lookup_insert_ne.
Qed.

(** C1 (as the code has it). When the stream of a download ends and the
    assembled bytes fail the checksum, the download throws "Checksum
    verification failed for <id>", leaves the [models] store as it was (the
    blob is not stored, [isModelReady] is unchanged), and its last event is
    the [error] event with that message. The [downloadProgress] store is
    not cleared: it holds what the checkpoints of this attempt left, so a
    DownloadState present before the attempt is still present after it. *)
Theorem download_checksum_mismatch (env : Env) (metadata : ModelMetadata) (u : string)
    (w : World) (response : Response) (reader : ReadableStream) :
  ModelMetadata.url metadata = Some u -> u <> EmptyString ->
  let id := ModelMetadata.id metadata in
  net env (download_request u id w) = Ok response ->
  ok response = true \/ status response = 206 ->
  body response = Some reader ->
  stream_failure reader = None ->
  verifyChecksum (concat (restored_chunks id w ++ stream_chunks reader))
    (ModelMetadata.checksum metadata) = false ->
  let run := downloadModelInBackground env metadata w in
  let e := JsError ("Checksum verification failed for " +:+ id) in
  fst run = Throw e
  /\ models (snd run) = models w
  /\ fst (isModelReady id (snd run)) = fst (isModelReady id w)
  /\ last (new_events w (snd run)) = Some (error_event metadata e)
  /\ downloadProgress (snd run) =
     stream_checkpoints id (totalBytes_of response (resume_offset id w))
       (stream_chunks reader) (restored_chunks id w) (resume_offset id w)
       (downloadProgress w)
  /\ (is_Some (downloadProgress w !! id) -> is_Some (downloadProgress (snd run) !! id)).
Proof.
  intros Hurl Hne id Hnet Hstatus Hbody Hdone Hbad run e. subst run.
  assert (Haccept : negb (ok response) && negb (status response =? 206) = false).
  { destruct Hstatus as [-> | ->]; [reflexivity | apply andb_false_r]. }
  assert (Hrun : downloadModelInBackground env metadata w =
                 download_failed metadata e
                   (emitted (verifying_event id (totalBytes_of response (resume_offset id w)))
                      (logged LogLevel ("[ModelManager] Verifying " +:+ id +:+ "...")
                         (streamed id (totalBytes_of response (resume_offset id w))
                            (stream_chunks reader) (restored_chunks id w) (resume_offset id w)
                            (sent (download_request u id w)
                               (logged LogLevel
                                  ("[ModelManager] Downloading " +:+ id +:+ " from byte "
                                   +:+ Z_to_string (resume_offset id w)) w)))))).
  { rewrite (download_run env metadata u w Hurl Hne). unfold download_outcome.
    fold id. rewrite Hnet, Haccept, Hbody, Hdone, Hbad. reflexivity. }
  assert (Hevents : download_events env metadata u w =
                    stream_events id (totalBytes_of response (resume_offset id w))
                      (stream_chunks reader) (resume_offset id w)
                    ++ [verifying_event id (totalBytes_of response (resume_offset id w));
                        error_event metadata e]).
  { unfold download_events. fold id. now rewrite Hnet, Haccept, Hbody, Hdone, Hbad. }
  assert (Hstore : downloadProgress (snd (downloadModelInBackground env metadata w)) =
                   stream_checkpoints id (totalBytes_of response (resume_offset id w))
                     (stream_chunks reader) (restored_chunks id w) (resume_offset id w)
                     (downloadProgress w)) by now rewrite Hrun.
  assert (Hmodels : models (snd (downloadModelInBackground env metadata w)) = models w)
    by now rewrite Hrun.
  repeat split.
  - now rewrite Hrun.
  - exact Hmodels.
  - unfold isModelReady. cbn [fst]. now rewrite Hmodels.
  - rewrite download_new_events, Hurl. destruct u as [|c u]; [congruence|].
    rewrite Hevents.
    change [verifying_event id (totalBytes_of response (resume_offset id w));
            error_event metadata e]
      with ([verifying_event id (totalBytes_of response (resume_offset id w))]
            ++ [error_event metadata e]).
    now rewrite app_assoc, last_snoc.
  - exact Hstore.
  - intros Hsome. rewrite Hstore. now apply stream_checkpoints_is_Some.
Qed.

(** A resumed attempt: the state checkpointed at 600 000 bytes outlives the
    failed verification. *)
Lemma download_checksum_mismatch_witness :
  let run := downloadModelInBackground abc_with_length other_descriptor interrupted_world in
  fst run = Throw (JsError "Checksum verification failed for llm-small-q4")
  /\ models (snd run) = models interrupted_world
  /\ is_Some (downloadProgress (snd run) !! "llm-small-q4"%string).
Proof.
  destruct (download_checksum_mismatch abc_with_length other_descriptor
              "https://models.example.com/llm-small-q4.gguf" interrupted_world
              (sample_response 200 "OK" (Some "3"%string) [bytes_of_string "abc"] None)
              {| stream_chunks := [bytes_of_string "abc"]; stream_failure := None |}
              eq_refl ltac:(discriminate) eq_refl (or_introl eq_refl) eq_refl eq_refl
              ltac:(vm_compute; reflexivity))
    as (Hthrow & Hmodels & _ & _ & _ & Hkept).
  split; [exact Hthrow|]. split; [exact Hmodels|].
  apply Hkept. vm_compute. eauto.
Defined.

(** C1, as stated, fails: after the checksum mismatch of a resumed attempt
    [getDownloadProgress] still returns the DownloadState of 600 000 bytes. *)
Lemma download_state_survives_mismatch :
  let run := downloadModelInBackground abc_with_length other_descriptor interrupted_world in
  fst run = Throw (JsError "Checksum verification failed for llm-small-q4")
  /\ match fst (getDownloadProgress "llm-small-q4" (snd run)) with
     | Ok (Some p) => ProgressRecord.bytesDownloaded p = 600000
     | _ => False
     end.
Proof. vm_compute. split; reflexivity. Qed.

(** The same on a fresh attempt, once ten chunks have been received. *)
Example checkpoint_survives_mismatch :
  let env := constant_env
               (Ok (sample_response 200 "OK" (Some "10"%string)
                      (repeat (bytes_of_string "a") 10) None)) None in
  let run := downloadModelInBackground env other_descriptor empty_world in
  fst run = Throw (JsError "Checksum verification failed for llm-small-q4")
  /\ match fst (getDownloadProgress "llm-small-q4" (snd run)) with
     | Ok (Some p) => ProgressRecord.bytesDownloaded p = 10
     | _ => False
     end.
Proof. vm_compute. split; reflexivity. Qed.

(* ===================================================================== *)
(** * Hand-off to inference *)
(* ===================================================================== *)

(** C4. [loadModelForInference] changes nothing in the stores. It returns a
    blob only if a record is stored under the id, the blob is that record's,
    and [verifyChecksum] has just accepted it against the record's metadata
    checksum. It throws "Model not found" when no record is stored, and
    "Model integrity check failed" when the recomputed checksum differs. *)
Theorem loadModelForInference_verified (modelId : string) (w : World) :
  snd (loadModelForInference modelId w) = w
  /\ match fst (loadModelForInference modelId w) with
     | Ok blob =>
         exists r, models w !! modelId = Some r
                   /\ blob = ModelRecord.blob r
                   /\ verifyChecksum blob
                        (ModelMetadata.checksum (ModelRecord.metadata r)) = true
     | Throw e =>
         (models w !! modelId = None
          /\ e = JsError ("Model not found: " +:+ modelId))
         \/ (exists r, models w !! modelId = Some r
                       /\ verifyChecksum (ModelRecord.blob r)
                            (ModelMetadata.checksum (ModelRecord.metadata r)) = false
                       /\ e = JsError ("Model integrity check failed: " +:+ modelId))
     end.
Proof.
  unfold loadModelForInference, bind, getModel, getModelMetadata.
  destruct (models w !! modelId) as [r|] eqn:Hr; cbn [fmap option_fmap option_map].
  - rewrite Hr; cbn [fmap option_fmap option_map].
    destruct (verifyChecksum _ _) eqn:Hv; cbn [negb fst snd ret throw].
    + split; [reflexivity|]. exists r. auto.
    + split; [reflexivity|]. right. exists r. auto.
  - split; [reflexivity|]. left. auto.
Qed.

(** A blob corrupted in the store after it was written is not handed out. *)
Example loadModelForInference_corrupted :
  let r := ModelRecord.mk "llm-small-q4" abc_descriptor (bytes_of_string "abd") true in
  let w := {| models := {[ "llm-small-q4"%string := r ]}; downloadProgress := ∅;
              dispatched := []; requests := []; console := [] |} in
  fst (loadModelForInference "llm-small-q4" w) =
  Throw (JsError "Model integrity check failed: llm-small-q4")
  /\ fst (loadModelForInference "llm-seed-q8" w) =
     Throw (JsError "Model not found: llm-seed-q8").
Proof. vm_compute. split; reflexivity. Qed.

(* ===================================================================== *)
(** * Only verified records reach the [models] store *)
(* ===================================================================== *)

Lemma store_verified_empty : store_verified empty_world.
Proof. intros id r H. cbn in H. now rewrite lookup_empty in H. Qed.

Lemma store_verified_step (w w' : World) :
  store_verified w -> verified_put w w' -> store_verified w'.
Proof.
  intros Hinv [Hsame | (metadata & blob & Hv & Hput)] id r Hr.
  - rewrite Hsame in Hr. now apply Hinv.
  - rewrite Hput in Hr. rewrite lookup_insert in Hr.
    destruct (decide (ModelMetadata.id metadata = id)) as [<-|Hne].
    + injection Hr as <-. auto.
    + now apply Hinv.
Qed.

Lemma loadSeedModel_put (env : Env) (metadata : ModelMetadata) (w : World) :
  verified_put w (snd (loadSeedModel env metadata w)).
Proof.
  unfold loadSeedModel, try_catch, bind, fetch, response_blob.
  destruct (net env _) as [response|e]; [|now left].
  destruct (negb (ok response)); [now left|].
  destruct (body response) as [s|].
  - destruct (stream_failure s); [now left|]. cbn [ret].
    destruct (verifyChecksum _ _) eqn:Hv; [|now left].
    right. eexists _, _. split; [exact Hv | reflexivity].
  - cbn [ret]. destruct (verifyChecksum _ _) eqn:Hv; [|now left].
    right. eexists _, _. split; [exact Hv | reflexivity].
Qed.

Lemma download_put (env : Env) (metadata : ModelMetadata) (w : World) :
  verified_put w (snd (downloadModelInBackground env metadata w)).
Proof.
  destruct (url_cases metadata) as [Hno | (u & Hurl & Hne)].
  - rewrite (download_no_url env metadata w Hno). now left.
  - rewrite (download_run env metadata u w Hurl Hne).
    unfold download_outcome, download_failed.
    destruct (net env _) as [response|e]; [|now left].
    destruct (negb (ok response) && negb (status response =? 206)); [now left|].
    destruct (body response) as [reader|]; [|now left].
    destruct (stream_failure reader); [now left|].
    destruct (verifyChecksum _ _) eqn:Hv; [|now left].
    right. eexists _, _. split; [exact Hv | reflexivity].
Qed.

Lemma loadSeedModel_verified (env : Env) (metadata : ModelMetadata) (w : World) :
  store_verified w -> store_verified (snd (loadSeedModel env metadata w)).
Proof. intros H. eapply store_verified_step; [exact H | apply loadSeedModel_put]. Qed.

Lemma download_verified (env : Env) (metadata : ModelMetadata) (w : World) :
  store_verified w -> store_verified (snd (downloadModelInBackground env metadata w)).
Proof. intros H. eapply store_verified_step; [exact H | apply download_put]. Qed.

Lemma ensureSeedModels_verified (env : Env) (manifest : list ModelMetadata) (w : World) :
  store_verified w -> store_verified (snd (ensureSeedModels env manifest w)).
Proof.
  unfold ensureSeedModels.
  generalize (List.filter ModelMetadata.isSeed manifest) as seeds.
  intros seeds. revert w.
  induction seeds as [|model seeds IH]; intros w Hinv; [exact Hinv|].
  cbn [for_of]. unfold bind at 1. unfold bind at 1, isModelReady at 1.
  destruct (negb _).
  - unfold bind at 1. cbn [console_call].
    destruct (loadSeedModel env model _) as [[[]|e] w'] eqn:Hload.
    + apply IH. change w' with (snd (Ok tt, w')). rewrite <- Hload.
      now apply loadSeedModel_verified.
    + change w' with (snd (@Throw unit e, w')). rewrite <- Hload.
      now apply loadSeedModel_verified.
  - cbn [console_call]. now apply IH.
Qed.

Lemma startBackgroundModelFetch_verified (env : Env) (manifest : list ModelMetadata)
    (capabilities : DeviceCapabilities) (w : World) :
  store_verified w ->
  store_verified (snd (startBackgroundModelFetch env manifest capabilities w)).
Proof.
  intros Hinv. unfold startBackgroundModelFetch.
  destruct (List.find _ manifest) as [model|]; [|exact Hinv].
  destruct (ModelMetadata.isSeed model); [exact Hinv|].
  unfold bind at 1, isModelReady at 1.
  destruct (match models w !! _ with Some r => ModelRecord.verified r | None => false end);
    [exact Hinv|].
  unfold bind at 1, checkStorageAvailability.
  assert (Hgo : store_verified
                  (snd ((console_call LogLevel
                           ("[ModelManager] Starting background fetch: "
                            +:+ ModelMetadata.id model) ;;;
                         try_catch (downloadModelInBackground env model)
                           (fun _ => console_call ErrorLevel
                                       "[ModelManager] Background download failed:")) w))).
  { unfold bind, try_catch. cbn [console_call].
    destruct (downloadModelInBackground env model _) as [[[]|e] w'] eqn:Hdl.
    - change w' with (snd (Ok tt, w')). rewrite <- Hdl. now apply download_verified.
    - cbn [console_call snd].
      assert (Hw' : store_verified w').
      { change w' with (snd (@Throw unit e, w')). rewrite <- Hdl.
        now apply download_verified. }
      exact Hw'. }
  destruct (storage_estimate env) as [estimate|]; cbn [ret].
  - destruct (negb _); [exact Hinv | exact Hgo].
  - exact Hgo.
Qed.

Lemma initializeModelManager_verified (env : Env) (manifest : list ModelMetadata)
    (capabilities : DeviceCapabilities) (w : World) :
  store_verified w ->
  store_verified (snd (initializeModelManager env manifest capabilities w)).
Proof.
  intros Hinv. unfold initializeModelManager.
  unfold bind at 1. cbn [console_call]. unfold bind at 1. cbn [console_call].
  unfold bind at 1.
  destruct (ensureSeedModels env manifest _) as [[[]|e] w'] eqn:Hseed.
  - apply startBackgroundModelFetch_verified.
    change w' with (snd (Ok tt, w')). rewrite <- Hseed.
    now apply ensureSeedModels_verified.
  - change w' with (snd (@Throw unit e, w')). rewrite <- Hseed.
    now apply ensureSeedModels_verified.
Qed.

Lemma isModelReady_exists (id : string) (w : World) :
  store_verified w ->
  fst (isModelReady id w) = Ok (bool_decide (is_Some (models w !! id))).
Proof.
  intros Hinv. unfold isModelReady. cbn [fst].
  destruct (models w !! id) as [r|] eqn:Hr.
  - destruct (Hinv id r Hr) as (-> & _). rewrite bool_decide_eq_true_2; eauto.
  - rewrite bool_decide_eq_false_2; [reflexivity|]. now intros [? ?].
Qed.

(** C10. Starting from a [models] store whose records are all verified (the
    empty store is one), every operation of the model manager leaves such a
    store: the two writers, [loadSeedModel] and [downloadModelInBackground],
    put a record only with [verified = true] and only after [verifyChecksum]
    accepted the very blob that is put, and so do their callers. On such a
    store [isModelReady id] is true exactly when a record for [id] exists. *)
Theorem models_store_verified (env : Env) (manifest : list ModelMetadata)
    (capabilities : DeviceCapabilities) (metadata : ModelMetadata) (w : World) :
  store_verified w ->
  verified_put w (snd (loadSeedModel env metadata w))
  /\ verified_put w (snd (downloadModelInBackground env metadata w))
  /\ store_verified (snd (loadSeedModel env metadata w))
  /\ store_verified (snd (downloadModelInBackground env metadata w))
  /\ store_verified (snd (ensureSeedModels env manifest w))
  /\ store_verified (snd (startBackgroundModelFetch env manifest capabilities w))
  /\ store_verified (snd (initializeModelManager env manifest capabilities w))
  /\ (forall id, fst (isModelReady id w) = Ok (bool_decide (is_Some (models w !! id)))).
Proof.
  intros Hinv.
  split; [apply loadSeedModel_put|].
  split; [apply download_put|].
  split; [now apply loadSeedModel_verified|].
  split; [now apply download_verified|].
  split; [now apply ensureSeedModels_verified|].
  split; [now apply startBackgroundModelFetch_verified|].
  split; [now apply initializeModelManager_verified|].
  intros id. now apply isModelReady_exists.
Qed.

Lemma models_store_verified_witness :
  store_verified empty_world
  /\ store_verified
       (snd (initializeModelManager abc_with_length [seed_descriptor; abc_descriptor]
               mid_range_device empty_world))
  /\ fst (isModelReady "llm-small-q4" empty_world) = Ok false.
Proof.
  destruct (models_store_verified abc_with_length [seed_descriptor; abc_descriptor]
              mid_range_device abc_descriptor empty_world store_verified_empty)
    as (_ & _ & _ & _ & _ & _ & Hinit & Hready).
  split; [exact store_verified_empty|]. split; [exact Hinit|].
  rewrite (Hready "llm-small-q4"%string). reflexivity.
Defined.

(** Scenarios A and B: a seed artifact is ready after its bundled bytes have
    matched, and is not when they do not. *)
Example seed_loaded_when_matching :
  let w := snd (ensureSeedModels abc_with_length [seed_descriptor] empty_world) in
  fst (isModelReady "llm-seed-q8" w) = Ok true
  /\ fst (loadModelForInference "llm-seed-q8" w) = Ok (bytes_of_string "abc").
Proof. vm_compute. split; reflexivity. Qed.

Example seed_refused_when_corrupted :
  let env := constant_env
               (Ok (sample_response 200 "OK" None [bytes_of_string "abd"] None)) None in
  let run := ensureSeedModels env [seed_descriptor] empty_world in
  fst run = Throw (JsError "Checksum verification failed for llm-seed-q8")
  /\ fst (isModelReady "llm-seed-q8" (snd run)) = Ok false.
Proof. vm_compute. split; reflexivity. Qed.

(** The manifest of the source carries placeholder checksums, which no
    SHA-256 digest in hexadecimal equals: with it no seed can be loaded. *)
Example default_manifest_placeholders :
  forallb (fun m => Nat.eqb (String.length (ModelMetadata.checksum m)) 64)
    DEFAULT_MANIFEST.models = false.
Proof. reflexivity. Qed.

(* ===================================================================== *)
(** * Background acquisition *)
(* ===================================================================== *)

Lemma num_sub_Z (a b : Z) : num_sub (num_of_Z a) (num_of_Z b) = num_of_Z (a - b).
Proof.
  unfold num_sub, num_neg. cbn [num_of_Z].
  rewrite <- inject_Z_opp, Qred_inject_Z. apply (num_add_Z a (- b)).
Qed.

(** Dividing both sides by 2^20 does not change the comparison. *)
Lemma storage_check_exact (available required : Z) :
  num_ge (num_div (num_of_Z available) MiB) (num_div (num_of_Z required) MiB) = true
  <-> required <= available.
Proof.
  unfold num_ge, num_le, num_div, MiB, num_of_Z, num_sign. cbn [Qnum inject_Z Z.sgn Z.mul].
  change (Z.sgn (1024 * 1024) =? 0) with false. cbn iota.
  rewrite Qle_bool_iff, Qred_le.
  unfold Qle, Qdiv, Qinv, Qmult, inject_Z. simpl. lia.
Qed.

Lemma checkStorageAvailability_spec (env : Env) (size : Z) (w : World) :
  checkStorageAvailability env (num_div (num_of_Z size) MiB) w =
  (Ok (match storage_estimate env with
       | Some estimate => bool_decide (size <= headroom estimate)
       | None => true
       end), w).
Proof.
  unfold checkStorageAvailability. destruct (storage_estimate env) as [estimate|];
    [|reflexivity].
  unfold ret. f_equal. f_equal. rewrite num_sub_Z. fold (headroom estimate).
  destruct (num_ge _ _) eqn:Hge.
  - apply storage_check_exact in Hge. now rewrite bool_decide_eq_true_2.
  - rewrite bool_decide_eq_false_2; [reflexivity|].
    intros Hle. apply storage_check_exact in Hle. congruence.
Qed.

Lemma startBackgroundModelFetch_run (env : Env) (manifest : list ModelMetadata)
    (capabilities : DeviceCapabilities) (w : World) :
  startBackgroundModelFetch env manifest capabilities w =
  background_outcome env manifest capabilities w.
Proof.
  unfold startBackgroundModelFetch, background_outcome.
  fold (recommended manifest capabilities).
  destruct (recommended manifest capabilities) as [model|]; [|reflexivity].
  destruct (ModelMetadata.isSeed model); [reflexivity|].
  unfold bind at 1. unfold isModelReady. fold (ready_in (ModelMetadata.id model) w).
  destruct (ready_in (ModelMetadata.id model) w); [reflexivity|].
  unfold bind at 1. rewrite checkStorageAvailability_spec.
  destruct (match storage_estimate env with
            | Some estimate => bool_decide (ModelMetadata.size model <= headroom estimate)
            | None => true
            end); [|reflexivity].
  cbn [negb]. unfold bind, try_catch, logged. cbn [console_call snd].
  destruct (downloadModelInBackground env model _) as [[[]|e] w']; reflexivity.
Qed.

Lemma isModelReady_ready_in (id : string) (w : World) :
  fst (isModelReady id w) = Ok (ready_in id w).
Proof. reflexivity. Qed.



(** A download that fails in the background: the failure is logged. *)
Example background_failure_logged :
  let env := constant_env (Throw (JsError "offline")) None in
  let run := startBackgroundModelFetch env [abc_descriptor] mid_range_device empty_world in
  fst run = Ok tt
  /\ last (console (snd run)) =
     Some (ErrorLevel, "[ModelManager] Background download failed:"%string)
  /\ map DownloadProgress.status (dispatched (snd run)) = [error].
Proof. vm_compute. repeat split; reflexivity. Qed.

(* ===================================================================== *)
(** * Bytes and characters *)
(* ===================================================================== *)

Lemma byte_val_range (b : byte) : 0 <= byte_val b < 256.
Proof.
  unfold byte_val. pose proof (Byte.to_N_bounded b). lia.
Qed.

Lemma byte_of_Z_val (b : byte) : byte_of_Z (byte_val b) = b.
Proof.
  unfold byte_of_Z. pose proof (byte_val_range b) as Hr.
  rewrite Z.mod_small by exact Hr. unfold byte_val.
  now rewrite N2Z.id, Byte.of_to_N.
Qed.

Lemma byte_val_of_Z (z : Z) : 0 <= z < 256 -> byte_val (byte_of_Z z) = z.
Proof.
  intros Hz. unfold byte_of_Z, byte_val. rewrite Z.mod_small by exact Hz.
  destruct (Byte.of_N (Z.to_N z)) as [b|] eqn:Hb.
  - apply Byte.to_of_N in Hb. rewrite Hb. lia.
  - pose proof (Byte.to_of_N_option_map (Z.to_N z)) as Hm. rewrite Hb in Hm.
    cbn in Hm. destruct (N.leb_spec (Z.to_N z) 255); [discriminate | lia].
Qed.

Lemma char_code_of_code (z : Z) : 0 <= z < 256 -> char_code (char_of_code z) = z.
Proof.
  intros Hz. unfold char_code, char_of_code.
  rewrite nat_ascii_embedding by lia. lia.
Qed.

Lemma char_code_range (c : ascii) : 0 <= char_code c < 256.
Proof. unfold char_code. pose proof (nat_ascii_bounded c). lia. Qed.

(** A property of the 64 sextets is checked on each of them. *)
Lemma sextet_cases (P : Z -> Prop) :
  Forall P (map Z.of_nat (seq 0 64)) -> forall v, 0 <= v < 64 -> P v.
Proof.
  intros Hall v Hv. rewrite List.Forall_forall in Hall. apply Hall.
  apply in_map_iff. exists (Z.to_nat v). split; [lia|].
  apply in_seq. lia.
Qed.

Lemma b64_char_facts (v : Z) :
  0 <= v < 64 ->
  b64_value (b64_char v) = Some v
  /\ is_ascii_whitespace (b64_char v) = false
  /\ is_pad (b64_char v) = false.
Proof.
  revert v. apply sextet_cases. cbv [seq map].
  repeat (apply List.Forall_cons; [vm_compute; auto|]). apply List.Forall_nil.
Qed.

(* ===================================================================== *)
(** * [atob] inverts [btoa] *)
(* ===================================================================== *)

Lemma three_step_ind (P : list Z -> Prop) :
  P [] -> (forall a, P [a]) -> (forall a b, P [a; b]) ->
  (forall a b c l, P l -> P (a :: b :: c :: l)) ->
  forall l, P l.
Proof.
  intros H0 H1 H2 H3. fix IH 1.
  intros [|a [|b [|c l]]]; [exact H0 | apply H1 | apply H2 | apply H3, IH].
Qed.

(** The output of [btoa_groups]: the characters of some sextets, then the
    padding; the sextets decode to the input. *)
Lemma btoa_groups_shape (zs : list Z) :
  Forall octet zs ->
  exists vs k,
    btoa_groups zs = map b64_char vs ++ repeat "="%char k
    /\ Forall sextet vs
    /\ decode_groups vs = zs
    /\ ((k = 0%nat /\ Z.of_nat (length vs) mod 4 = 0)
        \/ (k = 1%nat /\ Z.of_nat (length vs) mod 4 = 3)
        \/ (k = 2%nat /\ Z.of_nat (length vs) mod 4 = 2)).
Proof.
  unfold octet, sextet.
  induction zs as [|a|a b|a b c zs IH] using three_step_ind; intros Hoct.
  - exists [], 0%nat. repeat split; auto.
  - apply Forall_cons in Hoct as (Ha & _).
    exists [a / 4; a mod 4 * 16], 2%nat. split; [reflexivity|].
    split; [repeat (apply List.Forall_cons; [cbn beta; divlia|]); apply List.Forall_nil|].
    split; [|auto]. cbn [decode_groups]. f_equal. divlia.
  - apply Forall_cons in Hoct as (Ha & Hoct). apply Forall_cons in Hoct as (Hb & _).
    exists [a / 4; a mod 4 * 16 + b / 16; b mod 16 * 4], 1%nat. split; [reflexivity|].
    split; [repeat (apply List.Forall_cons; [cbn beta; divlia|]); apply List.Forall_nil|].
    split; [|auto]. cbn [decode_groups]. repeat f_equal; divlia.
  - apply Forall_cons in Hoct as (Ha & Hoct). apply Forall_cons in Hoct as (Hb & Hoct).
    apply Forall_cons in Hoct as (Hc & Hoct).
    destruct (IH Hoct) as (vs & k & Heq & Hsext & Hdec & Hlen).
    exists (a / 4 :: a mod 4 * 16 + b / 16 :: b mod 16 * 4 + c / 64 :: c mod 64 :: vs), k.
    split; [cbn [btoa_groups map app]; now rewrite Heq|].
    split; [repeat (apply List.Forall_cons; [cbn beta; divlia|]); exact Hsext|].
    split.
    + cbn [decode_groups]. rewrite Hdec. repeat f_equal; divlia.
    + cbn [length]. rewrite !Nat2Z.inj_succ.
      destruct Hlen as [(? & ?) | [(? & ?) | (? & ?)]]; [left | right; left | right; right];
        split; auto; divlia.
Qed.

Lemma sextet_chars (vs : list Z) :
  Forall sextet vs ->
  b64_values (map b64_char vs) = Some vs
  /\ List.filter (fun c => negb (is_ascii_whitespace c)) (map b64_char vs) = map b64_char vs
  /\ Forall (fun c => is_pad c = false) (map b64_char vs).
Proof.
  induction 1 as [|v vs Hv _ (IHv & IHf & IHp)]; [repeat split; constructor|].
  destruct (b64_char_facts v Hv) as (Hval & Hws & Hpad).
  cbn [map b64_values List.filter]. rewrite Hval, IHv, Hws, IHf.
  repeat split. constructor; assumption.
Qed.

Lemma strip_padding_shape (cs : list ascii) (k : nat) :
  Forall (fun c => is_pad c = false) cs ->
  Z.of_nat (length cs + k) mod 4 = 0 ->
  (k = 0 \/ (k = 1 /\ cs <> []) \/ k = 2)%nat ->
  strip_padding (cs ++ repeat "="%char k) = cs.
Proof.
  intros Hnp Hlen Hk. unfold strip_padding.
  rewrite length_app, repeat_length, Hlen. cbn [Z.eqb].
  rewrite rev_app_distr.
  destruct Hk as [-> | [(-> & Hne) | ->]]; cbn [repeat rev app].
  - rewrite app_nil_r.
    destruct cs as [|c cs _] using rev_ind; [reflexivity|].
    rewrite rev_app_distr. cbn [rev app].
    apply Forall_app in Hnp as (_ & Hc). apply Forall_cons in Hc as (Hc & _).
    rewrite Hc. now destruct (rev cs).
  - destruct cs as [|c cs _] using rev_ind; [congruence|].
    rewrite rev_app_distr. cbn [rev app].
    apply Forall_app in Hnp as (_ & Hc). apply Forall_cons in Hc as (Hc & _).
    change (is_pad "=") with true. cbn iota. rewrite Hc.
    now rewrite rev_involutive.
  - change (is_pad "=") with true. cbn iota. apply rev_involutive.
Qed.

Lemma atob_btoa_groups (zs : list Z) :
  Forall octet zs ->
  atob (string_of_list_ascii (btoa_groups zs)) =
  Some (string_of_list_ascii (map char_of_code zs)).
Proof.
  intros Hoct.
  destruct (btoa_groups_shape zs Hoct) as (vs & k & Heq & Hsext & Hdec & Hlen).
  destruct (sextet_chars vs Hsext) as (Hval & Hfilter & Hnopad).
  unfold atob. rewrite list_ascii_of_string_of_list_ascii, Heq.
  rewrite List.filter_app, Hfilter.
  assert (Hpads : List.filter (fun c => negb (is_ascii_whitespace c)) (repeat "="%char k)
                  = repeat "="%char k).
  { destruct Hlen as [(-> & _) | [(-> & _) | (-> & _)]]; reflexivity. }
  rewrite Hpads, strip_padding_shape; [| exact Hnopad | |].
  - rewrite length_map, Hval, Hdec.
    destruct (Z.eqb_spec (Z.of_nat (length vs) mod 4) 1) as [H1|_]; [|reflexivity].
    destruct Hlen as [(_ & ?) | [(_ & ?) | (_ & ?)]]; lia.
  - rewrite length_map, Nat2Z.inj_add.
    destruct Hlen as [(-> & ?) | [(-> & ?) | (-> & ?)]]; cbn [Z.of_nat];
      rewrite Zplus_mod; rewrite H; reflexivity.
  - destruct Hlen as [(-> & _) | [(-> & Hl) | (-> & _)]]; auto.
    right. left. split; [reflexivity|]. destruct vs; [discriminate | discriminate].
Qed.

Lemma base64_roundtrip (buffer : Uint8Array) :
  base64ToBuffer (bufferToBase64 buffer) = Some buffer.
Proof.
  unfold base64ToBuffer, bufferToBase64, btoa, fromCharCode.
  rewrite list_ascii_of_string_of_list_ascii, map_map.
  assert (Hcodes : map (fun b => char_code (char_of_code (byte_val b))) buffer
                   = map byte_val buffer).
  { apply map_ext. intros b. apply char_code_of_code, byte_val_range. }
  rewrite Hcodes, atob_btoa_groups.
  - rewrite list_ascii_of_string_of_list_ascii, !map_map. f_equal.
    rewrite <- (map_id buffer) at 2. apply map_ext. intros b.
    rewrite char_code_of_code by apply byte_val_range. apply byte_of_Z_val.
  - apply Forall_forall. intros z Hz. apply list_elem_of_In, in_map_iff in Hz.
    destruct Hz as (b & <- & _). apply byte_val_range.
Qed.

(* ===================================================================== *)
(** * [TextDecoder] inverts [TextEncoder] on well-formed strings *)
(* ===================================================================== *)

Lemma utf8_lead_ascii (b : Z) : b <= 0x7F -> utf8_lead b = ([b], utf8_initial).
Proof. intros H. unfold utf8_lead. now destruct (Z.leb_spec b 0x7F); [|lia]. Qed.

Lemma utf8_lead_two (b : Z) :
  0xC2 <= b <= 0xDF ->
  utf8_lead b = ([], {| code_point := b mod 32; bytes_needed := 1;
                        lower_boundary := 0x80; upper_boundary := 0xBF |}).
Proof.
  intros H. unfold utf8_lead.
  destruct (Z.leb_spec b 0x7F); [lia|].
  destruct (Z.leb_spec 0xC2 b); [|lia]. destruct (Z.leb_spec b 0xDF); [|lia].
  reflexivity.
Qed.

Lemma utf8_lead_three (b : Z) :
  0xE0 <= b <= 0xEF ->
  utf8_lead b = ([], {| code_point := b mod 16; bytes_needed := 2;
                        lower_boundary := if b =? 0xE0 then 0xA0 else 0x80;
                        upper_boundary := if b =? 0xED then 0x9F else 0xBF |}).
Proof.
  intros H. unfold utf8_lead.
  destruct (Z.leb_spec b 0x7F); [lia|].
  destruct (Z.leb_spec 0xC2 b); [|lia]. destruct (Z.leb_spec b 0xDF); [lia|].
  destruct (Z.leb_spec 0xE0 b); [|lia]. destruct (Z.leb_spec b 0xEF); [|lia].
  reflexivity.
Qed.

Lemma utf8_lead_four (b : Z) :
  0xF0 <= b <= 0xF4 ->
  utf8_lead b = ([], {| code_point := b mod 8; bytes_needed := 3;
                        lower_boundary := if b =? 0xF0 then 0x90 else 0x80;
                        upper_boundary := if b =? 0xF4 then 0x8F else 0xBF |}).
Proof.
  intros H. unfold utf8_lead.
  destruct (Z.leb_spec b 0x7F); [lia|].
  destruct (Z.leb_spec 0xC2 b); [|lia]. destruct (Z.leb_spec b 0xDF); [lia|].
  destruct (Z.leb_spec 0xE0 b); [|lia]. destruct (Z.leb_spec b 0xEF); [lia|].
  destruct (Z.leb_spec 0xF0 b); [|lia]. destruct (Z.leb_spec b 0xF4); [|lia].
  reflexivity.
Qed.

(** A continuation byte within the boundaries of the open sequence: the
    last one, or one of those before. *)
Lemma utf8_step_last (cp lo hi b : Z) :
  lo <= b <= hi ->
  utf8_step {| code_point := cp; bytes_needed := 1;
               lower_boundary := lo; upper_boundary := hi |} b =
  ([cp * 64 + b mod 64], utf8_initial).
Proof.
  intros Hb. unfold utf8_step; cbn [bytes_needed lower_boundary upper_boundary code_point].
  destruct (Z.ltb_spec b lo); [lia|]. destruct (Z.ltb_spec hi b); [lia|].
  reflexivity.
Qed.

Lemma utf8_step_more (cp n lo hi b : Z) :
  1 < n -> lo <= b <= hi ->
  utf8_step {| code_point := cp; bytes_needed := n;
               lower_boundary := lo; upper_boundary := hi |} b =
  ([], {| code_point := cp * 64 + b mod 64; bytes_needed := n - 1;
          lower_boundary := 0x80; upper_boundary := 0xBF |}).
Proof.
  intros Hn Hb. unfold utf8_step; cbn [bytes_needed lower_boundary upper_boundary code_point].
  destruct (Z.eqb_spec n 0); [lia|]. destruct (Z.eqb_spec n 1); [lia|].
  destruct (Z.ltb_spec b lo); [lia|]. destruct (Z.ltb_spec hi b); [lia|].
  reflexivity.
Qed.

Lemma utf8_encode_octets (c : Z) : scalar c -> Forall octet (utf8_encode_scalar c).
Proof.
  unfold scalar, octet, utf8_encode_scalar. intros Hc.
  destruct (Z.ltb_spec c 0x80); [|destruct (Z.ltb_spec c 0x800);
    [|destruct (Z.ltb_spec c 0x10000)]];
    repeat (apply List.Forall_cons; [divlia|]); apply List.Forall_nil.
Qed.

(** The decoder reads back what the encoder wrote for one scalar value, and
    is in its initial state again. *)
Lemma utf8_decode_encode_scalar (c : Z) (rest : list Z) :
  scalar c ->
  utf8_decode utf8_initial (utf8_encode_scalar c ++ rest) =
  c :: utf8_decode utf8_initial rest.
Proof.
  unfold scalar, utf8_encode_scalar. intros Hc.
  destruct (Z.ltb_spec c 0x80) as [H1|H1];
    [|destruct (Z.ltb_spec c 0x800) as [H2|H2];
      [|destruct (Z.ltb_spec c 0x10000) as [H3|H3]]];
    cbn [app utf8_decode].
  - change (utf8_step utf8_initial c) with (utf8_lead c).
    rewrite utf8_lead_ascii by lia. reflexivity.
  - change (utf8_step utf8_initial (0xC0 + c / 64)) with (utf8_lead (0xC0 + c / 64)).
    rewrite utf8_lead_two by divlia. cbn [fst snd app].
    rewrite utf8_step_last by divlia. cbn [fst snd app].
    f_equal. divlia.
  - change (utf8_step utf8_initial (0xE0 + c / 4096))
      with (utf8_lead (0xE0 + c / 4096)).
    rewrite utf8_lead_three by divlia. cbn [fst snd app].
    rewrite utf8_step_more;
      [| lia | destruct (Z.eqb_spec (0xE0 + c / 4096) 0xE0);
               destruct (Z.eqb_spec (0xE0 + c / 4096) 0xED); divlia].
    cbn [fst snd app]. change (2 - 1) with 1.
    rewrite utf8_step_last by divlia. cbn [fst snd app].
    f_equal. divlia.
  - change (utf8_step utf8_initial (0xF0 + c / 262144))
      with (utf8_lead (0xF0 + c / 262144)).
    rewrite utf8_lead_four by divlia. cbn [fst snd app].
    rewrite utf8_step_more;
      [| lia | destruct (Z.eqb_spec (0xF0 + c / 262144) 0xF0);
               destruct (Z.eqb_spec (0xF0 + c / 262144) 0xF4); divlia].
    cbn [fst snd app]. change (3 - 1) with 2.
    rewrite utf8_step_more by divlia.
    cbn [fst snd app]. change (2 - 1) with 1.
    rewrite utf8_step_last by divlia. cbn [fst snd app].
    f_equal. divlia.
Qed.

Lemma utf8_decode_encode (cs : list Z) :
  Forall scalar cs ->
  utf8_decode utf8_initial (flat_map utf8_encode_scalar cs) = cs.
Proof.
  induction 1 as [|c cs Hc _ IH]; [reflexivity|].
  cbn [flat_map]. rewrite utf8_decode_encode_scalar by exact Hc. now rewrite IH.
Qed.

Lemma surrogate_pair_scalar (u l : Z) :
  is_high_surrogate u = true -> is_low_surrogate l = true ->
  let c := 0x10000 + (u - 0xD800) * 0x400 + (l - 0xDC00) in
  scalar c /\ 0x10000 <= c /\ utf16_encode_scalar c = [u; l].
Proof.
  unfold is_high_surrogate, is_low_surrogate, scalar, utf16_encode_scalar.
  intros Hu Hl. cbv zeta.
  apply andb_true_iff in Hu as (Hu1 & Hu2). apply andb_true_iff in Hl as (Hl1 & Hl2).
  apply Z.leb_le in Hu1, Hu2, Hl1, Hl2.
  split; [lia|]. split; [lia|].
  destruct (Z.ltb_spec (0x10000 + (u - 0xD800) * 0x400 + (l - 0xDC00)) 0x10000); [lia|].
  f_equal; [|f_equal]; divlia.
Qed.

Lemma unit_scalar (u : Z) :
  is_high_surrogate u = false -> is_low_surrogate u = false -> 0 <= u < 0x10000 ->
  scalar u /\ utf16_encode_scalar u = [u].
Proof.
  unfold is_high_surrogate, is_low_surrogate, scalar, utf16_encode_scalar.
  intros Hh Hl Hu.
  apply andb_false_iff in Hh. apply andb_false_iff in Hl.
  rewrite !Z.leb_gt in Hh, Hl.
  split; [lia|]. now destruct (Z.ltb_spec u 0x10000); [|lia].
Qed.

(** The scalar values of a well-formed string, written back as UTF-16, are
    the string. *)
Lemma well_formed_scalars (s : ustring) :
  well_formed s = true ->
  Forall scalar (to_scalars s) /\ flat_map utf16_encode_scalar (to_scalars s) = s.
Proof.
  remember (length s) as n eqn:Hn. revert s Hn.
  induction n as [n IH] using lt_wf_ind. intros s Hn Hwf.
  destruct s as [|u rest]; [split; [constructor | reflexivity]|].
  cbn [well_formed to_scalars] in Hwf |- *.
  destruct (is_high_surrogate u) eqn:Hhigh.
  - destruct rest as [|l rest]; [discriminate|].
    apply andb_true_iff in Hwf as (Hlow & Hwf). rewrite Hlow.
    destruct (surrogate_pair_scalar u l Hhigh Hlow) as (Hsc & _ & Henc).
    destruct (IH (length rest) ltac:(subst n; cbn; lia) rest eq_refl Hwf) as (IHs & IHe).
    split; [constructor; assumption|].
    cbn [flat_map]. rewrite Henc, IHe. reflexivity.
  - apply andb_true_iff in Hwf as (Hwf' & Hwf).
    apply andb_true_iff in Hwf' as (Hwf' & Hlt).
    apply andb_true_iff in Hwf' as (Hlow & Hge).
    apply negb_true_iff in Hlow. rewrite Hlow.
    apply Z.leb_le in Hge. apply Z.ltb_lt in Hlt.
    destruct (unit_scalar u Hhigh Hlow ltac:(lia)) as (Hsc & Henc).
    destruct (IH (length rest) ltac:(subst n; cbn; lia) rest eq_refl Hwf) as (IHs & IHe).
    split; [constructor; assumption|].
    cbn [flat_map]. rewrite Henc, IHe. reflexivity.
Qed.

(** The encoding of a scalar value other than U+FEFF does not begin with
    the byte order mark. *)
Lemma strip_bom_encode (c : Z) (more : list Z) :
  scalar c -> c <> 0xFEFF ->
  strip_bom (utf8_encode_scalar c ++ more) = utf8_encode_scalar c ++ more.
Proof.
  unfold scalar, utf8_encode_scalar. intros Hc Hne.
  assert (Hfirst : forall a l, a <> 0xEF -> strip_bom (a :: l) = a :: l).
  { intros a [|b [|d l]] Ha; try reflexivity. unfold strip_bom.
    now destruct (Z.eqb_spec a 0xEF). }
  destruct (Z.ltb_spec c 0x80); [|destruct (Z.ltb_spec c 0x800);
    [|destruct (Z.ltb_spec c 0x10000)]]; cbn [app].
  - apply Hfirst. lia.
  - apply Hfirst. divlia.
  - unfold strip_bom.
    destruct (Z.eqb_spec (0xE0 + c / 4096) 0xEF); [|reflexivity].
    destruct (Z.eqb_spec (0x80 + c / 64 mod 64) 0xBB); [|reflexivity].
    destruct (Z.eqb_spec (0x80 + c mod 64) 0xBF); [|reflexivity].
    exfalso. apply Hne. divlia.
  - apply Hfirst. divlia.
Qed.

Lemma strip_bom_scalars (s : ustring) :
  well_formed s = true -> no_leading_bom s = true ->
  strip_bom (flat_map utf8_encode_scalar (to_scalars s)) =
  flat_map utf8_encode_scalar (to_scalars s).
Proof.
  intros Hwf Hbom. destruct s as [|u rest]; [reflexivity|].
  cbn [no_leading_bom] in Hbom. apply negb_true_iff, Z.eqb_neq in Hbom.
  cbn [well_formed to_scalars] in Hwf |- *.
  destruct (is_high_surrogate u) eqn:Hhigh.
  - destruct rest as [|l rest]; [discriminate|].
    apply andb_true_iff in Hwf as (Hlow & Hwf). rewrite Hlow.
    destruct (surrogate_pair_scalar u l Hhigh Hlow) as (Hsc & Hbig & _).
    cbn [flat_map]. apply strip_bom_encode; [exact Hsc | lia].
  - apply andb_true_iff in Hwf as (Hwf' & Hwf).
    apply andb_true_iff in Hwf' as (Hwf' & Hlt).
    apply andb_true_iff in Hwf' as (Hlow & Hge).
    apply negb_true_iff in Hlow. rewrite Hlow.
    apply Z.leb_le in Hge. apply Z.ltb_lt in Hlt.
    destruct (unit_scalar u Hhigh Hlow ltac:(lia)) as (Hsc & _).
    cbn [flat_map]. apply strip_bom_encode; assumption.
Qed.

Lemma byte_val_of_octets (zs : list Z) :
  Forall octet zs -> map byte_val (map byte_of_Z zs) = zs.
Proof.
  induction 1 as [|z zs Hz _ IH]; [reflexivity|].
  cbn [map]. now rewrite byte_val_of_Z, IH.
Qed.

Lemma utf8_encode_all_octets (cs : list Z) :
  Forall scalar cs -> Forall octet (flat_map utf8_encode_scalar cs).
Proof.
  induction 1 as [|c cs Hc _ IH]; [constructor|].
  cbn [flat_map]. apply Forall_app. split; [now apply utf8_encode_octets | exact IH].
Qed.

Lemma TextDecoder_TextEncoder (s : ustring) :
  well_formed s = true -> no_leading_bom s = true ->
  TextDecoder_decode (TextEncoder_encode s) = s.
Proof.
  intros Hwf Hbom. destruct (well_formed_scalars s Hwf) as (Hsc & Hback).
  unfold TextDecoder_decode, TextEncoder_encode.
  rewrite byte_val_of_octets by now apply utf8_encode_all_octets.
  rewrite strip_bom_scalars by assumption.
  rewrite utf8_decode_encode by exact Hsc. exact Hback.
Qed.

(* ===================================================================== *)
(** * [decrypt] after [encrypt] *)
(* ===================================================================== *)

Section RoundTrip.

Variable wc : WebCrypto.
Hypothesis cipher_correct : aes_gcm_correct wc.

(** Whatever the string, [decrypt] gives back what [TextDecoder] makes of the
    encoded plaintext. *)
Lemma decrypt_encrypt_decoded (salt iv : Uint8Array) (data : ustring) :
  decrypt wc (encrypt wc salt iv data) =
  Some (TextDecoder_decode (TextEncoder_encode data)).
Proof.
  unfold decrypt, encrypt. cbn [EncryptedData.salt EncryptedData.iv EncryptedData.data].
  rewrite !base64_roundtrip. now rewrite cipher_correct.
Qed.

End RoundTrip.

(** C9 (as the code has it). With an AES-GCM whose decryption inverts its
    encryption under the same key and iv, [decrypt (encrypt B) = B] for every
    string B that is well-formed UTF-16 (no surrogate outside a pair) and
    does not begin with U+FEFF, for every salt and iv. *)
Theorem decrypt_encrypt (wc : WebCrypto) (salt iv : Uint8Array) (B : ustring) :
  aes_gcm_correct wc ->
  well_formed B = true -> no_leading_bom B = true ->
  decrypt wc (encrypt wc salt iv B) = Some B.
Proof.
  intros Hcipher Hwf Hbom.
  rewrite (decrypt_encrypt_decoded wc Hcipher).
  now rewrite TextDecoder_TextEncoder.
Qed.

Lemma tagging_cipher_correct : aes_gcm_correct tagging_cipher.
Proof.
  intros key iv plaintext. cbn [tagging_cipher aes_gcm_encrypt aes_gcm_decrypt].
  assert (Hrefl : Byte.eqb key key = true) by (destruct key; reflexivity).
  now rewrite Hrefl.
Qed.

Lemma decrypt_encrypt_witness :
  let B := ustring_of "Cardiology referral" ++ [0x20AC; 0xD83D; 0xDE00] in
  decrypt tagging_cipher
    (encrypt tagging_cipher (repeat "s"%byte 16) (repeat "i"%byte 12) B) = Some B.
Proof.
  intros B.
  apply (decrypt_encrypt tagging_cipher (repeat "s"%byte 16) (repeat "i"%byte 12) B
           tagging_cipher_correct);
    vm_compute; reflexivity.
Defined.

(** C9, as stated, fails on two kinds of string. A surrogate outside a
    pair is encoded as U+FFFD, and a leading U+FEFF is dropped by the
    decoder as a byte order mark. *)
Lemma decrypt_encrypt_not_identity :
  let salt := repeat "s"%byte 16 in
  let iv := repeat "i"%byte 12 in
  aes_gcm_correct tagging_cipher
  /\ decrypt tagging_cipher (encrypt tagging_cipher salt iv [0xD800; 0x41])
     = Some [0xFFFD; 0x41]
  /\ decrypt tagging_cipher (encrypt tagging_cipher salt iv [0xFEFF; 0x41])
     = Some [0x41].
Proof.
  split; [exact tagging_cipher_correct|]. vm_compute. split; reflexivity.
Qed.

(* ===================================================================== *)
(** * Outcomes of a download *)
(* ===================================================================== *)

Lemma accepted_passes (response : Response) :
  accepted response -> negb (ok response) && negb (status response =? 206) = false.
Proof. intros [-> | ->]; [reflexivity | apply andb_false_r]. Qed.

Lemma restored_chunks_empty (id : string) (w : World) :
  concat (restored_chunks id w) = [].
Proof.
  unfold restored_chunks. destruct (downloadProgress w !! id) as [p|]; [|reflexivity].
  induction (ProgressRecord.chunks p) as [|c cs IH]; [reflexivity | exact IH].
Qed.

Lemma assembled_blob (id : string) (w : World) (values : list Uint8Array) :
  concat (restored_chunks id w ++ values) = concat values.
Proof. now rewrite concat_app, restored_chunks_empty. Qed.

(** The world a download leaves when it returns normally. *)
Lemma download_ok_inv (env : Env) (metadata : ModelMetadata) (w : World) :
  fst (downloadModelInBackground env metadata w) = Ok tt ->
  exists u response reader,
    ModelMetadata.url metadata = Some u /\ u <> EmptyString
    /\ net env (download_request u (ModelMetadata.id metadata) w) = Ok response
    /\ accepted response /\ body response = Some reader
    /\ stream_failure reader = None
    /\ verifyChecksum (concat (stream_chunks reader)) (ModelMetadata.checksum metadata) = true
    /\ models (snd (downloadModelInBackground env metadata w)) =
       <[ModelMetadata.id metadata :=
           ModelRecord.mk (ModelMetadata.id metadata) metadata
             (concat (stream_chunks reader)) true]> (models w)
    /\ downloadProgress (snd (downloadModelInBackground env metadata w)) =
       delete (ModelMetadata.id metadata)
         (stream_checkpoints (ModelMetadata.id metadata)
            (totalBytes_of response (resume_offset (ModelMetadata.id metadata) w))
            (stream_chunks reader) (restored_chunks (ModelMetadata.id metadata) w)
            (resume_offset (ModelMetadata.id metadata) w) (downloadProgress w))
    /\ download_events env metadata u w =
       stream_events (ModelMetadata.id metadata)
         (totalBytes_of response (resume_offset (ModelMetadata.id metadata) w))
         (stream_chunks reader) (resume_offset (ModelMetadata.id metadata) w)
       ++ [verifying_event (ModelMetadata.id metadata)
             (totalBytes_of response (resume_offset (ModelMetadata.id metadata) w));
           complete_event (ModelMetadata.id metadata)
             (totalBytes_of response (resume_offset (ModelMetadata.id metadata) w))].
Proof.
  destruct (url_cases metadata) as [Hno | (u & Hurl & Hne)].
  { rewrite (download_no_url env metadata w Hno). discriminate. }
  rewrite (download_run env metadata u w Hurl Hne).
  unfold download_outcome, download_failed.
  destruct (net env _) as [response|e] eqn:Hnet; [|discriminate].
  destruct (negb (ok response) && negb (status response =? 206)) eqn:Hacc; [discriminate|].
  destruct (body response) as [reader|] eqn:Hbody; [|discriminate].
  destruct (stream_failure reader) as [e|] eqn:Hdone; [discriminate|].
  rewrite assembled_blob.
  destruct (verifyChecksum _ _) eqn:Hv; [|discriminate].
  intros _. exists u, response, reader.
  repeat (split; [assumption || reflexivity|]).
  split.
  { apply andb_false_iff in Hacc as [Hacc | Hacc]; apply negb_false_iff in Hacc.
    - now left.
    - right. now apply Z.eqb_eq. }
  repeat (split; [assumption || reflexivity|]).
  unfold download_events. now rewrite Hnet, Hacc, Hbody, Hdone, assembled_blob, Hv.
Qed.

(** X1. A download that returns normally has stored the artifact: the
    [models] store holds, under the descriptor's id, a record flagged verified
    whose blob passes [verifyChecksum]; [isModelReady] is true;
    [loadModelForInference] hands out that blob; the DownloadState of the id
    is gone and the states of other ids are untouched; the last event is
    [complete]. *)
Theorem download_returns_ready (env : Env) (metadata : ModelMetadata) (w : World) :
  let run := downloadModelInBackground env metadata w in
  let id := ModelMetadata.id metadata in
  fst run = Ok tt ->
  exists blob totalBytes,
    models (snd run) = <[id := ModelRecord.mk id metadata blob true]> (models w)
    /\ verifyChecksum blob (ModelMetadata.checksum metadata) = true
    /\ fst (isModelReady id (snd run)) = Ok true
    /\ fst (loadModelForInference id (snd run)) = Ok blob
    /\ downloadProgress (snd run) !! id = None
    /\ (forall id', id' <> id -> downloadProgress (snd run) !! id' = downloadProgress w !! id')
    /\ last (new_events w (snd run)) = Some (complete_event id totalBytes).
Proof.
  intros run id Hok. subst run.
  destruct (download_ok_inv env metadata w Hok)
    as (u & response & reader & Hurl & Hne & Hnet & Hacc & Hbody & Hdone & Hv
        & Hmodels & Hstore & Hevents).
  fold id in Hmodels, Hstore, Hevents.
  exists (concat (stream_chunks reader)), (totalBytes_of response (resume_offset id w)).
  split; [exact Hmodels|]. split; [exact Hv|].
  split; [unfold isModelReady; cbn [fst]; now rewrite Hmodels, lookup_insert_eq|].
  split.
  { unfold loadModelForInference, bind, getModel, getModelMetadata.
    do 2 (rewrite Hmodels, lookup_insert_eq;
          cbn [fmap option_fmap option_map ModelRecord.metadata ModelRecord.blob]).
    now rewrite Hv. }
  split; [rewrite Hstore; apply lookup_delete_eq|].
  split.
  { intros id' Hid. rewrite Hstore, lookup_delete_ne by congruence.
    apply stream_checkpoints_other. congruence. }
  rewrite download_new_events, Hurl. destruct u as [|c u]; [congruence|].
  rewrite Hevents.
  change [verifying_event id (totalBytes_of response (resume_offset id w));
          complete_event id (totalBytes_of response (resume_offset id w))]
    with ([verifying_event id (totalBytes_of response (resume_offset id w))]
          ++ [complete_event id (totalBytes_of response (resume_offset id w))]).
  now rewrite !app_assoc, last_snoc.
Qed.

Lemma download_returns_ready_witness :
  let run := downloadModelInBackground abc_with_length abc_descriptor interrupted_world in
  fst run = Ok tt
  /\ exists blob totalBytes,
       models (snd run)
       = <["llm-small-q4"%string := ModelRecord.mk "llm-small-q4" abc_descriptor blob true]>
           (models interrupted_world)
       /\ verifyChecksum blob sha256_of_abc = true
       /\ fst (isModelReady "llm-small-q4" (snd run)) = Ok true
       /\ fst (loadModelForInference "llm-small-q4" (snd run)) = Ok blob
       /\ downloadProgress (snd run) !! "llm-small-q4"%string = None
       /\ (forall id', id' <> "llm-small-q4"%string ->
             downloadProgress (snd run) !! id' = downloadProgress interrupted_world !! id')
       /\ last (new_events interrupted_world (snd run))
          = Some (complete_event "llm-small-q4" totalBytes).
Proof.
  split; [vm_compute; reflexivity|].
  apply (download_returns_ready abc_with_length abc_descriptor interrupted_world).
  vm_compute. reflexivity.
Defined.



(* ===================================================================== *)
(** * Progress events and checkpoints of the read loop *)
(* ===================================================================== *)

Lemma stream_events_length (id : string) (totalBytes : number) (values : list Uint8Array)
    (bytesDownloaded : Z) :
  length (stream_events id totalBytes values bytesDownloaded) = length values.
Proof.
  revert bytesDownloaded. induction values as [|value rest IH]; intros bd; [reflexivity|].
  cbn [stream_events length]. now rewrite IH.
Qed.

Lemma stream_events_lookup (id : string) (totalBytes : number) (values : list Uint8Array)
    (bytesDownloaded : Z) (k : nat) (value : Uint8Array) :
  values !! k = Some value ->
  stream_events id totalBytes values bytesDownloaded !! k =
  Some (downloading_event id totalBytes (stream_bytes (take (S k) values) bytesDownloaded)).
Proof.
  revert bytesDownloaded k.
  induction values as [|v rest IH]; intros bd k Hk; [discriminate|].
  destruct k as [|k]; [reflexivity|].
  cbn [stream_events]. cbn [lookup list_lookup] in Hk |- *.
  rewrite (IH _ _ Hk). reflexivity.
Qed.

Lemma stream_events_filter (id : string) (totalBytes : number) (values : list Uint8Array)
    (bytesDownloaded : Z) :
  List.filter is_downloading (stream_events id totalBytes values bytesDownloaded)
  = stream_events id totalBytes values bytesDownloaded
  /\ Forall (fun ev => DownloadProgress.modelId ev = id)
       (stream_events id totalBytes values bytesDownloaded).
Proof.
  revert bytesDownloaded. induction values as [|v rest IH]; intros bd.
  - split; [reflexivity | constructor].
  - destruct (IH (bd + Z.of_nat (length v))) as (IHf & IHid).
    cbn [stream_events List.filter]. change (is_downloading _) with true at 1.
    cbn iota. rewrite IHf. split; [reflexivity|]. now constructor.
Qed.

(** The events of an attempt whose response is accepted and has a body: those
    of the stream, then what follows the stream. *)
Lemma download_events_streamed (env : Env) (metadata : ModelMetadata) (u : string)
    (w : World) (response : Response) (reader : ReadableStream) :
  net env (download_request u (ModelMetadata.id metadata) w) = Ok response ->
  accepted response -> body response = Some reader ->
  exists after,
    download_events env metadata u w =
    stream_events (ModelMetadata.id metadata)
      (totalBytes_of response (resume_offset (ModelMetadata.id metadata) w))
      (stream_chunks reader) (resume_offset (ModelMetadata.id metadata) w) ++ after
    /\ List.filter is_downloading after = []
    /\ Forall (fun ev => DownloadProgress.modelId ev = ModelMetadata.id metadata) after.
Proof.
  intros Hnet Hacc Hbody. unfold download_events.
  rewrite Hnet, (accepted_passes response Hacc), Hbody.
  destruct (stream_failure reader) as [e|].
  - eexists. split; [reflexivity|]. split; [reflexivity | repeat constructor].
  - destruct (verifyChecksum _ _);
      (eexists; split; [reflexivity|]; split; [reflexivity | repeat constructor]).
Qed.

(** X3. While the body of an accepted response is read, one [downloading]
    event is dispatched per chunk received, in order and before any other
    event of the attempt: the event of the k-th chunk carries the
    descriptor's id and [bytesDownloaded] = the resume offset plus the sizes
    of the chunks received so far. Every event of the attempt carries the
    descriptor's id. *)
Theorem downloading_event_per_chunk (env : Env) (metadata : ModelMetadata) (u : string)
    (w : World) (response : Response) (reader : ReadableStream) :
  ModelMetadata.url metadata = Some u -> u <> EmptyString ->
  let id := ModelMetadata.id metadata in
  net env (download_request u id w) = Ok response ->
  accepted response -> body response = Some reader ->
  let evs := new_events w (snd (downloadModelInBackground env metadata w)) in
  let totalBytes := totalBytes_of response (resume_offset id w) in
  (forall k value, stream_chunks reader !! k = Some value ->
     evs !! k =
     Some (downloading_event id totalBytes
             (stream_bytes (take (S k) (stream_chunks reader)) (resume_offset id w))))
  /\ length (List.filter is_downloading evs) = length (stream_chunks reader)
  /\ Forall (fun ev => DownloadProgress.modelId ev = id) evs.
Proof.
  intros Hurl Hne id Hnet Hacc Hbody evs totalBytes. subst evs.
  rewrite download_new_events, Hurl. destruct u as [|c u]; [congruence|].
  destruct (download_events_streamed env metadata (String c u) w response reader
              Hnet Hacc Hbody) as (after & -> & Hafter & Hids).
  fold id totalBytes in Hids |- *.
  destruct (stream_events_filter id totalBytes (stream_chunks reader) (resume_offset id w))
    as (Hfilter & Hsid).
  split; [|split].
  - intros k value Hk. rewrite lookup_app_l.
    + now apply stream_events_lookup with (value := value).
    + rewrite stream_events_length. now apply lookup_lt_Some in Hk.
  - now rewrite List.filter_app, Hfilter, Hafter, app_nil_r, stream_events_length.
  - apply Forall_app. split; assumption.
Qed.

Lemma downloading_event_per_chunk_witness :
  let answer := sample_response 206 "Partial Content" (Some "5"%string)
                  [bytes_of_string "ab"; bytes_of_string "cde"] None in
  let evs := new_events interrupted_world
               (snd (downloadModelInBackground (constant_env (Ok answer) None)
                       abc_descriptor interrupted_world)) in
  evs !! 1%nat = Some (downloading_event "llm-small-q4" (num_of_Z 600005) 600005)
  /\ length (List.filter is_downloading evs) = 2%nat.
Proof.
  intros answer evs.
  destruct (downloading_event_per_chunk (constant_env (Ok answer) None) abc_descriptor
              "https://models.example.com/llm-small-q4.gguf" interrupted_world answer
              {| stream_chunks := [bytes_of_string "ab"; bytes_of_string "cde"];
                 stream_failure := None |}
              eq_refl ltac:(discriminate) eq_refl (or_introl eq_refl) eq_refl)
    as (Hk & Hlen & _).
  split; [|exact Hlen].
  exact (Hk 1%nat (bytes_of_string "cde") eq_refl).
Defined.

(** X4. What a download assembles and verifies is the bytes received in
    this attempt. The chunks restored from a DownloadState are run through
    [new Uint8Array(blob)], which has length 0 for a [Blob], so they add no
    byte: once the stream of an accepted response has ended, the download
    returns normally exactly when the bytes of this response alone match the
    checksum, and the blob stored is their concatenation. *)
Theorem download_assembles_received_bytes (env : Env) (metadata : ModelMetadata)
    (u : string) (w : World) (response : Response) (reader : ReadableStream) :
  ModelMetadata.url metadata = Some u -> u <> EmptyString ->
  let id := ModelMetadata.id metadata in
  net env (download_request u id w) = Ok response ->
  accepted response -> body response = Some reader -> stream_failure reader = None ->
  let run := downloadModelInBackground env metadata w in
  let received := concat (stream_chunks reader) in
  concat (restored_chunks id w) = []
  /\ (fst run = Ok tt <-> verifyChecksum received (ModelMetadata.checksum metadata) = true)
  /\ (fst run = Ok tt ->
      models (snd run) !! id = Some (ModelRecord.mk id metadata received true)).
Proof.
  intros Hurl Hne id Hnet Hacc Hbody Hdone run received. subst run received.
  split; [apply restored_chunks_empty|].
  rewrite (download_run env metadata u w Hurl Hne).
  unfold download_outcome, download_failed. fold id.
  rewrite Hnet, (accepted_passes response Hacc), Hbody, Hdone, assembled_blob.
  destruct (verifyChecksum _ _); cbn [fst snd].
  - split; [easy|]. intros _. cbn. apply lookup_insert_eq.
  - split; [split; discriminate | discriminate].
Qed.

(** Scenario D as the code runs it: the 600 000 checkpointed bytes are
    dropped, and the three bytes of the answer are verified and stored. *)
Lemma download_assembles_received_bytes_witness :
  let run := downloadModelInBackground remaining_400000 abc_descriptor interrupted_world in
  fst run = Ok tt
  /\ models (snd run) !! "llm-small-q4"%string
     = Some (ModelRecord.mk "llm-small-q4" abc_descriptor (bytes_of_string "abc") true).
Proof.
  intros run.
  destruct (download_assembles_received_bytes remaining_400000 abc_descriptor
              "https://models.example.com/llm-small-q4.gguf" interrupted_world
              (sample_response 206 "Partial Content" (Some "400000"%string)
                 [bytes_of_string "abc"] None)
              {| stream_chunks := [bytes_of_string "abc"]; stream_failure := None |}
              eq_refl ltac:(discriminate) eq_refl (or_intror eq_refl) eq_refl eq_refl)
    as (_ & Hiff & Hstored).
  assert (Hok : fst run = Ok tt) by (apply Hiff; vm_compute; reflexivity).
  split; [exact Hok | exact (Hstored Hok)].
Defined.






(* ===================================================================== *)
(** * Seed artifacts and initialization *)
(* ===================================================================== *)

Lemma loadSeedModel_run (env : Env) (metadata : ModelMetadata) (w : World) :
  let id := ModelMetadata.id metadata in
  let w1 := sent (seed_request id) w in
  let failed e :=
    (@Throw unit e,
     logged ErrorLevel ("[ModelManager] Failed to load seed model " +:+ id +:+ ":") w1) in
  loadSeedModel env metadata w =
  match net env (seed_request id) with
  | Throw e => failed e
  | Ok response =>
    if negb (ok response)
    then failed (JsError ("Failed to load seed model: " +:+ statusText response))
    else match body_bytes response with
         | Throw e => failed e
         | Ok blob =>
           if verifyChecksum blob (ModelMetadata.checksum metadata)
           then (Ok tt, logged LogLevel ("[ModelManager] Seed model loaded: " +:+ id)
                          (stored metadata blob w1))
           else failed (JsError ("Checksum verification failed for " +:+ id))
         end
  end.
Proof.
  cbv zeta. unfold loadSeedModel, try_catch, bind, fetch, response_blob, body_bytes,
    seed_request, sent, logged, stored.
  destruct (net env _) as [response|e]; [|reflexivity].
  destruct (negb (ok response)); [reflexivity|].
  destruct (body response) as [s|].
  - destruct (stream_failure s); [reflexivity|]. cbn [ret].
    destruct (verifyChecksum _ _); reflexivity.
  - cbn [ret]. destruct (verifyChecksum _ _); reflexivity.
Qed.

(** X6. [loadSeedModel] sends exactly one request, for
    [/models/<id>.gguf] and without headers, and touches neither the events
    nor the DownloadStates. When it returns normally, the response was a
    success whose whole body matched the checksum, and that body is stored
    under the id, flagged verified. When it throws, the [models] store is as
    before and the failure was logged on the error console before being
    passed on. *)
Theorem loadSeedModel_outcome (env : Env) (metadata : ModelMetadata) (w : World) :
  let id := ModelMetadata.id metadata in
  let run := loadSeedModel env metadata w in
  requests (snd run) = requests w ++ [seed_request id]
  /\ dispatched (snd run) = dispatched w
  /\ downloadProgress (snd run) = downloadProgress w
  /\ match fst run with
     | Ok _ =>
         exists response blob,
           net env (seed_request id) = Ok response /\ ok response = true
           /\ body_bytes response = Ok blob
           /\ verifyChecksum blob (ModelMetadata.checksum metadata) = true
           /\ models (snd run) = <[id := ModelRecord.mk id metadata blob true]> (models w)
     | Throw e =>
         models (snd run) = models w
         /\ last (console (snd run)) =
            Some (ErrorLevel, "[ModelManager] Failed to load seed model " +:+ id +:+ ":")
     end.
Proof.
  intros id run. subst run. rewrite loadSeedModel_run. fold id.
  destruct (net env (seed_request id)) as [response|e] eqn:Hnet.
  2: { repeat split; try reflexivity. cbn. now rewrite last_snoc. }
  destruct (ok response) eqn:Hok; cbn [negb].
  2: { repeat split; try reflexivity. cbn. now rewrite last_snoc. }
  destruct (body_bytes response) as [blob|e] eqn:Hbytes.
  2: { repeat split; try reflexivity. cbn. now rewrite last_snoc. }
  destruct (verifyChecksum blob _) eqn:Hv.
  - repeat split; try reflexivity. exists response, blob. repeat split; assumption || reflexivity.
  - repeat split; try reflexivity. cbn. now rewrite last_snoc.
Qed.

Lemma ready_in_put (w w' : World) (id : string) :
  verified_put w w' -> ready_in id w = true -> ready_in id w' = true.
Proof.
  unfold ready_in. intros [-> | (metadata & blob & _ & ->)] Hready; [exact Hready|].
  rewrite lookup_insert. destruct (decide (ModelMetadata.id metadata = id)); [reflexivity|].
  exact Hready.
Qed.

Lemma ensureSeedModels_loop (env : Env) (manifest : list ModelMetadata) :
  ensureSeedModels env manifest = for_of (List.filter ModelMetadata.isSeed manifest)
                                    (ensure_seed env).
Proof. reflexivity. Qed.

(** One turn of the loop: a ready seed costs a log line; another one is
    loaded, and is ready afterwards if the load returns. *)
Lemma ensure_seed_run (env : Env) (model : ModelMetadata) (w : World) :
  let id := ModelMetadata.id model in
  if ready_in id w
  then ensure_seed env model w =
       (Ok tt, logged LogLevel ("[ModelManager] Seed model already cached: " +:+ id) w)
  else ensure_seed env model w =
       loadSeedModel env model
         (logged LogLevel ("[ModelManager] Loading seed model: " +:+ id) w).
Proof.
  cbv zeta. unfold ensure_seed, bind, isModelReady. fold (ready_in (ModelMetadata.id model) w).
  destruct (ready_in (ModelMetadata.id model) w); reflexivity.
Qed.

Lemma loadSeedModel_ok_ready (env : Env) (metadata : ModelMetadata) (w : World) :
  fst (loadSeedModel env metadata w) = Ok tt ->
  ready_in (ModelMetadata.id metadata) (snd (loadSeedModel env metadata w)) = true.
Proof.
  rewrite loadSeedModel_run.
  destruct (net env _) as [response|e]; [|discriminate].
  destruct (negb (ok response)); [discriminate|].
  destruct (body_bytes response) as [blob|e]; [|discriminate].
  destruct (verifyChecksum blob _); [|discriminate].
  intros _. unfold ready_in. cbn. now rewrite lookup_insert_eq.
Qed.

Lemma ensure_seed_put (env : Env) (model : ModelMetadata) (w : World) :
  verified_put w (snd (ensure_seed env model w))
  /\ (fst (ensure_seed env model w) = Ok tt ->
      ready_in (ModelMetadata.id model) (snd (ensure_seed env model w)) = true).
Proof.
  pose proof (ensure_seed_run env model w) as Hrun. cbv zeta in Hrun.
  destruct (ready_in (ModelMetadata.id model) w) eqn:Hready; rewrite Hrun.
  - split; [now left | intros _; exact Hready].
  - split; [apply (loadSeedModel_put env model
                     (logged LogLevel ("[ModelManager] Loading seed model: "
                                       +:+ ModelMetadata.id model) w))|].
    apply loadSeedModel_ok_ready.
Qed.

Lemma for_of_cons {A} (f : A -> M unit) (x : A) (l : list A) (w : World) :
  for_of (x :: l) f w =
  match f x w with
  | (Ok _, w') => for_of l f w'
  | (Throw e, w') => (Throw e, w')
  end.
Proof. reflexivity. Qed.

(** Readiness is never lost in the loop, and a loop that returns has found
    or made every seed ready. *)
Lemma ensure_loop_ready (env : Env) (seeds : list ModelMetadata) (w : World) :
  (forall id, ready_in id w = true ->
              ready_in id (snd (for_of seeds (ensure_seed env) w)) = true)
  /\ (fst (for_of seeds (ensure_seed env) w) = Ok tt ->
      Forall (fun m => ready_in (ModelMetadata.id m)
                         (snd (for_of seeds (ensure_seed env) w)) = true) seeds).
Proof.
  revert w. induction seeds as [|model seeds IH]; intros w.
  { split; [auto | constructor]. }
  rewrite for_of_cons.
  destruct (ensure_seed_put env model w) as (Hput & Hready).
  destruct (ensure_seed env model w) as [[[]|e] w'] eqn:Hturn; cbn [fst snd] in *.
  - destruct (IH w') as (IHmono & IHall). split.
    + intros id Hid. apply IHmono. now apply (ready_in_put w w').
    + intros Hok. constructor; [|now apply IHall].
      apply IHmono. now apply Hready.
  - split; [|discriminate]. intros id Hid. now apply (ready_in_put w w').
Qed.

(** A loop over seeds that are all ready writes to the console only. *)
Lemma ensure_loop_cached (env : Env) (seeds : list ModelMetadata) (w : World) :
  Forall (fun m => ready_in (ModelMetadata.id m) w = true) seeds ->
  fst (for_of seeds (ensure_seed env) w) = Ok tt
  /\ same_but_console w (snd (for_of seeds (ensure_seed env) w)).
Proof.
  revert w. induction seeds as [|model seeds IH]; intros w Hall.
  { repeat split. }
  apply Forall_cons in Hall as (Hm & Hall).
  rewrite for_of_cons.
  pose proof (ensure_seed_run env model w) as Hrun. cbv zeta in Hrun.
  rewrite Hm in Hrun. rewrite Hrun.
  destruct (IH (logged LogLevel ("[ModelManager] Seed model already cached: "
                                 +:+ ModelMetadata.id model) w)) as (Hok & Hsame).
  { eapply Forall_impl; [exact Hall|]. intros m Hr. exact Hr. }
  split; [exact Hok|]. exact Hsame.
Qed.

(** X7. Once [ensureSeedModels] has returned normally, every seed artifact
    of the manifest is ready, and calling it again - whatever the network
    then answers - returns normally without sending a request and without
    writing to a store: the second call only logs. *)
Theorem ensureSeedModels_idempotent (env env' : Env) (manifest : list ModelMetadata)
    (w : World) :
  let first := ensureSeedModels env manifest w in
  fst first = Ok tt ->
  (forall m, In m manifest -> ModelMetadata.isSeed m = true ->
             fst (isModelReady (ModelMetadata.id m) (snd first)) = Ok true)
  /\ (let second := ensureSeedModels env' manifest (snd first) in
      fst second = Ok tt
      /\ requests (snd second) = requests (snd first)
      /\ models (snd second) = models (snd first)
      /\ downloadProgress (snd second) = downloadProgress (snd first)
      /\ dispatched (snd second) = dispatched (snd first)).
Proof.
  intros first Hok. subst first. rewrite !ensureSeedModels_loop in *.
  destruct (ensure_loop_ready env (List.filter ModelMetadata.isSeed manifest) w)
    as (_ & Hall).
  specialize (Hall Hok). split.
  - intros m Hin Hseed. rewrite isModelReady_ready_in. f_equal.
    rewrite List.Forall_forall in Hall. apply Hall.
    apply List.filter_In. now split.
  - destruct (ensure_loop_cached env' _ _ Hall) as (Hok2 & Hm & Hp & Hd & Hr).
    cbv zeta. repeat split; assumption.
Qed.

Lemma ensureSeedModels_idempotent_witness :
  let offline := constant_env (Throw (JsError "offline")) None in
  let first := ensureSeedModels abc_with_length [seed_descriptor; abc_descriptor]
                 empty_world in
  let second := ensureSeedModels offline [seed_descriptor; abc_descriptor] (snd first) in
  fst first = Ok tt
  /\ fst second = Ok tt
  /\ requests (snd second) = requests (snd first)
  /\ models (snd second) = models (snd first).
Proof.
  cbv zeta.
  assert (Hok : fst (ensureSeedModels abc_with_length [seed_descriptor; abc_descriptor]
                       empty_world) = Ok tt) by (vm_compute; reflexivity).
  destruct (ensureSeedModels_idempotent abc_with_length
              (constant_env (Throw (JsError "offline")) None)
              [seed_descriptor; abc_descriptor] empty_world Hok)
    as (_ & Hok2 & Hreq & Hmodels & _).
  split; [exact Hok|]. split; [exact Hok2|]. split; [exact Hreq | exact Hmodels].
Defined.


Lemma initializeModelManager_run (env : Env) (manifest : list ModelMetadata)
    (capabilities : DeviceCapabilities) (w : World) :
  initializeModelManager env manifest capabilities w =
  match ensureSeedModels env manifest
          (logged LogLevel "[ModelManager] Device capabilities:"
             (logged LogLevel "[ModelManager] Initializing..." w)) with
  | (Ok _, w') => startBackgroundModelFetch env manifest capabilities w'
  | (Throw e, w') => (Throw e, w')
  end.
Proof. reflexivity. Qed.


(* ===================================================================== *)
(** * Base64 text, checksums as text, and what [decrypt] returns *)
(* ===================================================================== *)

Lemma string_of_list_ascii_length (l : list ascii) :
  String.length (string_of_list_ascii l) = length l.
Proof. induction l as [|c l IH]; [reflexivity | cbn; now rewrite IH]. Qed.

Lemma all_chars_of_list (p : ascii -> bool) (l : list ascii) :
  all_chars p (string_of_list_ascii l) = forallb p l.
Proof. induction l as [|c l IH]; [reflexivity | cbn; now rewrite IH]. Qed.

Lemma btoa_groups_length (zs : list Z) :
  Z.of_nat (length (btoa_groups zs)) = 4 * ((Z.of_nat (length zs) + 2) / 3).
Proof.
  induction zs as [|a|a b|a b c zs IH] using three_step_ind; try reflexivity.
  cbn [btoa_groups length]. rewrite !Nat2Z.inj_succ, IH. divlia.
Qed.

Lemma btoa_groups_chars (zs : list Z) :
  Forall octet zs -> forallb is_b64_char (btoa_groups zs) = true.
Proof.
  intros Hoct.
  destruct (btoa_groups_shape zs Hoct) as (vs & k & -> & Hsext & _ & _).
  rewrite forallb_app. apply andb_true_intro. split.
  - clear k. induction Hsext as [|v vs Hv _ IH]; [reflexivity|].
    cbn [map forallb]. rewrite IH, andb_true_r. unfold is_b64_char.
    now destruct (b64_char_facts v Hv) as (-> & _).
  - induction k as [|k IH]; [reflexivity | exact IH].
Qed.

Lemma byte_vals_octets (buffer : Uint8Array) : Forall octet (map byte_val buffer).
Proof.
  induction buffer as [|b buffer IH]; constructor; [apply byte_val_range | exact IH].
Qed.

Lemma btoa_fromCharCode (buffer : Uint8Array) :
  bufferToBase64 buffer = string_of_list_ascii (btoa_groups (map byte_val buffer)).
Proof.
  unfold bufferToBase64, btoa, fromCharCode.
  rewrite list_ascii_of_string_of_list_ascii, map_map. do 2 f_equal.
  apply map_ext. intros b. apply char_code_of_code, byte_val_range.
Qed.

(** X9. [bufferToBase64] writes four characters for every three bytes
    begun, all of them from the base64 alphabet or the padding "=", and
    [base64ToBuffer] reads the buffer back from that text. *)
Theorem bufferToBase64_text (buffer : Uint8Array) :
  base64ToBuffer (bufferToBase64 buffer) = Some buffer
  /\ Z.of_nat (String.length (bufferToBase64 buffer))
     = 4 * ((Z.of_nat (length buffer) + 2) / 3)
  /\ all_chars is_b64_char (bufferToBase64 buffer) = true.
Proof.
  split; [apply base64_roundtrip|]. rewrite btoa_fromCharCode.
  rewrite string_of_list_ascii_length, all_chars_of_list, btoa_groups_length, length_map.
  split; [reflexivity|]. apply btoa_groups_chars, byte_vals_octets.
Qed.

Lemma toLowerCase_length (s : string) : String.length (toLowerCase s) = String.length s.
Proof. induction s as [|c s IH]; [reflexivity | cbn; now rewrite IH]. Qed.

Lemma lower_hex_of_lowered (c : ascii) :
  lower_hex_char (lower_ascii c) = true -> hex_char c = true.
Proof. destruct c as [[] [] [] [] [] [] [] []]; vm_compute; auto. Qed.

Lemma hex_of_lowered (s : string) :
  all_chars lower_hex_char (toLowerCase s) = true -> all_chars hex_char s = true.
Proof.
  induction s as [|c s IH]; [reflexivity|]. cbn [toLowerCase all_chars].
  intros H. apply andb_true_iff in H as (Hc & Hs).
  now rewrite (lower_hex_of_lowered c Hc), IH.
Qed.

(** X10. [verifyChecksum] accepts an expected value only if it is 64
    hexadecimal digits, of either case: a truncated, padded or otherwise
    malformed checksum is rejected for every blob. *)
Theorem verifyChecksum_expected_form (blob : Blob) (expectedChecksum : string) :
  verifyChecksum blob expectedChecksum = true ->
  String.length expectedChecksum = 64%nat
  /\ all_chars hex_char expectedChecksum = true.
Proof.
  intros Hv. apply verifyChecksum_true in Hv.
  destruct (bufferToHex_facts (SHA256.digest blob)) as (Hlen & Hhex & _).
  rewrite digest_length in Hlen. unfold computeChecksum in Hv. rewrite Hv in Hlen, Hhex.
  rewrite toLowerCase_length in Hlen. split; [exact Hlen|]. now apply hex_of_lowered.
Qed.

Lemma verifyChecksum_expected_form_witness :
  String.length "BA7816BF8F01CFEA414140DE5DAE2223B00361A396177A9CB410FF61F20015AD" = 64%nat
  /\ all_chars hex_char
       "BA7816BF8F01CFEA414140DE5DAE2223B00361A396177A9CB410FF61F20015AD" = true.
Proof.
  apply (verifyChecksum_expected_form (bytes_of_string "abc")).
  vm_compute. reflexivity.
Defined.

(** The placeholder checksums of the manifest in the source are of that
    kind: with them no blob verifies. *)
Example default_manifest_never_verifies (blob : Blob) :
  Forall (fun m => verifyChecksum blob (ModelMetadata.checksum m) = false)
    DEFAULT_MANIFEST.models.
Proof.
  repeat constructor;
    (destruct (verifyChecksum blob _) eqn:Hv; [|reflexivity];
     apply verifyChecksum_true in Hv;
     pose proof (bufferToHex_facts (SHA256.digest blob)) as (Hlen & _);
     rewrite digest_length in Hlen; unfold computeChecksum in Hv; rewrite Hv in Hlen;
     discriminate Hlen).
Qed.

Lemma to_scalars_scalar (s : ustring) :
  Forall code_unit s ->
  Forall scalar (to_scalars s)
  /\ flat_map utf16_encode_scalar (to_scalars s) = toWellFormed s.
Proof.
  remember (length s) as n eqn:Hn. revert s Hn.
  induction n as [n IH] using lt_wf_ind. intros s Hn Hunits.
  destruct s as [|u rest]; [split; [constructor | reflexivity]|].
  apply Forall_cons in Hunits as (Hu & Hrest). unfold code_unit in Hu.
  assert (Hreplace : scalar 0xFFFD /\ utf16_encode_scalar 0xFFFD = [0xFFFD])
    by (split; [unfold scalar; lia | reflexivity]).
  destruct Hreplace as (Hfffd & Hfffd16).
  destruct (IH (length rest) ltac:(subst n; cbn; lia) rest eq_refl Hrest) as (IHs & IHe).
  cbn [to_scalars toWellFormed].
  destruct (is_high_surrogate u) eqn:Hhigh.
  - destruct rest as [|l rest']; [split; [constructor; [exact Hfffd | constructor] | reflexivity]|].
    destruct (is_low_surrogate l) eqn:Hlow.
    + apply Forall_cons in Hrest as (_ & Hrest').
      destruct (IH (length rest') ltac:(subst n; cbn; lia) rest' eq_refl Hrest')
        as (IHs' & IHe').
      destruct (surrogate_pair_scalar u l Hhigh Hlow) as (Hsc & _ & Henc).
      split; [now constructor|]. cbn [flat_map]. now rewrite Henc, IHe'.
    + split; [now constructor|]. cbn [flat_map]. now rewrite Hfffd16, IHe.
  - destruct (is_low_surrogate u) eqn:Hlow.
    + split; [now constructor|]. cbn [flat_map]. now rewrite Hfffd16, IHe.
    + destruct (unit_scalar u Hhigh Hlow Hu) as (Hsc & Henc).
      split; [now constructor|]. cbn [flat_map]. now rewrite Henc, IHe.
Qed.

(** The first code unit of a scalar value written as UTF-16 is U+FEFF only
    for that scalar value. *)
Lemma drop_leading_bom_scalars (c : Z) (cs : list Z) :
  scalar c ->
  drop_leading_bom (flat_map utf16_encode_scalar (c :: cs)) =
  if c =? 0xFEFF then flat_map utf16_encode_scalar cs
  else flat_map utf16_encode_scalar (c :: cs).
Proof.
  unfold scalar. intros Hc. cbn [flat_map].
  destruct (Z.ltb_spec c 0x10000) as [Hlt|Hge].
  - assert (Henc : utf16_encode_scalar c = [c]).
    { unfold utf16_encode_scalar. now destruct (Z.ltb_spec c 0x10000); [|lia]. }
    rewrite Henc. reflexivity.
  - assert (Henc : utf16_encode_scalar c
                   = [0xD800 + (c - 0x10000) / 0x400; 0xDC00 + (c - 0x10000) mod 0x400]).
    { unfold utf16_encode_scalar. now destruct (Z.ltb_spec c 0x10000); [lia|]. }
    rewrite Henc. cbn [app drop_leading_bom].
    destruct (Z.eqb_spec (0xD800 + (c - 0x10000) / 0x400) 0xFEFF); [divlia|].
    now destruct (Z.eqb_spec c 0xFEFF); [lia|].
Qed.

Lemma strip_bom_scalars_any (c : Z) (cs : list Z) :
  scalar c ->
  strip_bom (flat_map utf8_encode_scalar (c :: cs)) =
  if c =? 0xFEFF then flat_map utf8_encode_scalar cs
  else flat_map utf8_encode_scalar (c :: cs).
Proof.
  intros Hc. cbn [flat_map]. destruct (Z.eqb_spec c 0xFEFF) as [-> | Hne].
  - reflexivity.
  - now apply strip_bom_encode.
Qed.

(** What [TextDecoder] makes of what [TextEncoder] wrote, for any string. *)
Lemma TextDecoder_TextEncoder_any (s : ustring) :
  Forall code_unit s ->
  TextDecoder_decode (TextEncoder_encode s) = drop_leading_bom (toWellFormed s).
Proof.
  intros Hunits. destruct (to_scalars_scalar s Hunits) as (Hsc & Hback).
  unfold TextDecoder_decode, TextEncoder_encode.
  rewrite byte_val_of_octets by now apply utf8_encode_all_octets.
  rewrite <- Hback. destruct (to_scalars s) as [|c cs]; [reflexivity|].
  apply Forall_cons in Hsc as (Hc & Hcs).
  rewrite strip_bom_scalars_any, drop_leading_bom_scalars by exact Hc.
  destruct (c =? 0xFEFF).
  - now rewrite utf8_decode_encode.
  - rewrite utf8_decode_encode; [reflexivity | now constructor].
Qed.

Lemma toWellFormed_length (s : ustring) : length (toWellFormed s) = length s.
Proof.
  assert (H : forall n s, (length s < n)%nat -> length (toWellFormed s) = length s).
  { induction n as [|n IH]; intros t Hn; [lia|].
    destruct t as [|u rest]; [reflexivity|]. cbn [toWellFormed]. cbn [length] in Hn.
    destruct (is_high_surrogate u).
    - destruct rest as [|l rest']; [reflexivity|]. cbn [length] in Hn.
      destruct (is_low_surrogate l); cbn [length]; rewrite IH; cbn [length]; lia.
    - destruct (is_low_surrogate u); cbn [length]; rewrite IH; lia. }
  apply (H (S (length s))). lia.
Qed.

(** X11. For every string, [decrypt (encrypt B)] is B made well-formed
    (every surrogate outside a pair replaced by U+FFFD) and without its
    leading U+FEFF if it has one - whatever the salt and the iv - given an
    AES-GCM whose decryption inverts its encryption. Nothing else of the
    string is changed: the result has at most the length of B. *)
Theorem decrypt_encrypt_any (wc : WebCrypto) (salt iv : Uint8Array) (B : ustring) :
  aes_gcm_correct wc -> Forall code_unit B ->
  decrypt wc (encrypt wc salt iv B) = Some (drop_leading_bom (toWellFormed B))
  /\ length (toWellFormed B) = length B
  /\ (length (drop_leading_bom (toWellFormed B)) <= length B)%nat.
Proof.
  intros Hcipher Hunits.
  rewrite (decrypt_encrypt_decoded wc Hcipher), TextDecoder_TextEncoder_any by exact Hunits.
  pose proof (toWellFormed_length B) as Hlen.
  split; [reflexivity|]. split; [exact Hlen|].
  rewrite <- Hlen. destruct (toWellFormed B) as [|u rest]; [cbn; lia|].
  cbn [drop_leading_bom]. destruct (u =? 0xFEFF); cbn [length]; lia.
Qed.

Lemma decrypt_encrypt_any_witness :
  decrypt tagging_cipher
    (encrypt tagging_cipher (repeat "s"%byte 16) (repeat "i"%byte 12)
       [0xFEFF; 0x41; 0xDC00; 0xD83D; 0xDE00; 0xD800])
  = Some [0x41; 0xFFFD; 0xD83D; 0xDE00; 0xFFFD].
Proof.
  refine (proj1 (decrypt_encrypt_any tagging_cipher (repeat "s"%byte 16) (repeat "i"%byte 12)
                   [0xFEFF; 0x41; 0xDC00; 0xD83D; 0xDE00; 0xD800]
                   tagging_cipher_correct _)).
  repeat (apply List.Forall_cons; [unfold code_unit; lia|]). apply List.Forall_nil.
Defined.

(* ===================================================================== *)
(** * The storage estimate *)
(* ===================================================================== *)

(** X12. [getStorageEstimate] never divides by zero: it always returns, the
    percentage is a finite number, and it is 0 when the quota is missing or
    0 and when the estimate API is absent. The percentage lies in [0, 100]
    whenever [0 <= usage <= quota] and [quota > 0]. *)
Theorem getStorageEstimate_percentage (env : Env) (w : World) :
  exists result,
    getStorageEstimate env w = (Ok result, w)
    /\ num_finite (StorageUsage.percentage result) = true
    /\ (StorageUsage.quota result = 0 -> StorageUsage.percentage result = num_of_Z 0)
    /\ (storage_estimate env = None -> result = StorageUsage.mk 0 0 (num_of_Z 0))
    /\ (0 <= StorageUsage.usage result <= StorageUsage.quota result ->
        0 < StorageUsage.quota result ->
        num_le (num_of_Z 0) (StorageUsage.percentage result) = true
        /\ num_le (StorageUsage.percentage result) (num_of_Z 100) = true).
Proof.
  unfold getStorageEstimate, ret.
  destruct (storage_estimate env) as [estimate|].
  2: { eexists. split; [reflexivity|].
       cbn [StorageUsage.percentage StorageUsage.quota StorageUsage.usage].
       split; [reflexivity|]. split; [reflexivity|]. split; [reflexivity|]. lia. }
  eexists. split; [reflexivity|].
  cbn [StorageUsage.percentage StorageUsage.quota StorageUsage.usage].
  split; [|split; [|split; [discriminate|]]].
  - destruct (quota estimate) as [q|]; [|reflexivity].
    destruct (Z.eqb_spec q 0) as [-> | Hq]; [reflexivity|].
    unfold num_div, num_of_Z, num_sign. cbn [Qnum inject_Z].
    destruct (Z.eqb_spec (Z.sgn q) 0) as [Hs|_]; [apply Z.sgn_null_iff in Hs; lia|].
    reflexivity.
  - destruct (quota estimate) as [q|]; [|reflexivity].
    cbn [Z_or]. destruct (Z.eqb_spec q 0) as [-> | Hq]; [reflexivity|].
    intros ->. lia.
  - destruct (quota estimate) as [q|]; cbn [Z_or]; [|lia].
    destruct (Z.eqb_spec q 0) as [-> | Hq]; [cbn; lia|].
    intros Hu Hpos. now apply percentage_in_range.
Qed.

(* ===================================================================== *)
(** * The recommendation *)
(* ===================================================================== *)

(** X13. The two classifications of a device agree: [selectRecommendedModel]
    names the medium model exactly on tier 3 of [getPerformanceTier], the
    small model on tier 2 and the seed model on tier 1, and there is no other
    tier. So the model that [detectCapabilities] recommends is the one of the
    tier of the profile it reports. *)
Theorem recommendation_matches_tier (caps : DeviceProfile) (nav : Navigator) :
  selectRecommendedModel caps = model_of_tier (getPerformanceTier caps)
  /\ 1 <= getPerformanceTier caps <= 3
  /\ snd (detectCapabilities nav) = model_of_tier (getPerformanceTier (fst (detectCapabilities nav))).
Proof.
  assert (Hagree : forall profile,
             selectRecommendedModel profile = model_of_tier (getPerformanceTier profile)).
  { intros profile. unfold selectRecommendedModel, getPerformanceTier, model_of_tier.
    destruct (_ && _ && _); [reflexivity|]. destruct (_ && _); reflexivity. }
  split; [apply Hagree|]. split; [|apply Hagree].
  unfold getPerformanceTier.
  destruct (_ && _ && _); [lia|]. destruct (_ && _); lia.
Qed.

Lemma selectRecommendedModel_cases (profile : DeviceProfile) :
  selectRecommendedModel profile = "llm-medium-q4"%string
  \/ selectRecommendedModel profile = "llm-small-q4"%string
  \/ selectRecommendedModel profile = "llm-seed-q8"%string.
Proof.
  unfold selectRecommendedModel.
  destruct (_ && _ && _); [auto|]. destruct (_ && _); auto.
Qed.

(** X14. Without [navigator.deviceMemory], [detectCapabilities] estimates
    2 GB for a user agent naming Android, webOS, iPhone, iPad or iPod and 4 GB
    otherwise. So such a device is flagged mobile whenever it is estimated at
    2 GB, is recommended a model beyond the seed as soon as it has
    WebAssembly, and is never recommended the medium model when estimated at
    2 GB. A missing or zero [hardwareConcurrency] counts as 2 cores. *)
Theorem detectCapabilities_fallbacks (nav : Navigator) :
  deviceMemory nav = None ->
  let profile := fst (detectCapabilities nav) in
  let recommended := snd (detectCapabilities nav) in
  let phone := test_ci ["Android"; "webOS"; "iPhone"; "iPad"; "iPod"]%string (userAgent nav) in
  DeviceProfile.availableMemoryGB profile = (if phone then 2 else 4)%Q
  /\ (phone = true -> DeviceProfile.isMobile profile = true)
  /\ (phone = true -> recommended <> "llm-medium-q4"%string)
  /\ (has_WebAssembly nav = true -> recommended <> "llm-seed-q8"%string)
  /\ (hardwareConcurrency nav = None \/ hardwareConcurrency nav = Some 0 ->
      DeviceProfile.cpuCores profile = 2).
Proof.
  intros Hmem. cbv zeta. unfold detectCapabilities, estimateAvailableMemory.
  rewrite Hmem. cbn [fst snd DeviceProfile.availableMemoryGB DeviceProfile.isMobile
                     DeviceProfile.cpuCores].
  split; [reflexivity|]. split; [|split; [|split]].
  - unfold test_ci. cbn [existsb]. intros H.
    repeat (apply orb_true_iff in H as [H | H]; [rewrite H, ?orb_true_r; reflexivity|]).
    discriminate.
  - intros ->. unfold selectRecommendedModel.
    cbn [DeviceProfile.hasWebGPU DeviceProfile.availableMemoryGB DeviceProfile.cpuCores
         DeviceProfile.hasWebAssembly].
    change (Qle_bool 4 2) with false. rewrite andb_false_r. cbn [andb].
    destruct (has_WebAssembly nav && Qle_bool 2 2); discriminate.
  - intros Hwasm. unfold selectRecommendedModel.
    cbn [DeviceProfile.hasWebGPU DeviceProfile.availableMemoryGB DeviceProfile.cpuCores
         DeviceProfile.hasWebAssembly].
    rewrite Hwasm.
    destruct (test_ci _ (userAgent nav));
      (destruct (_ && _ && _); [discriminate|]); cbn; discriminate.
  - intros [-> | ->]; reflexivity.
Qed.

Lemma detectCapabilities_fallbacks_witness :
  let nav := {| has_WebAssembly := true; has_gpu := true; deviceMemory := None;
                hardwareConcurrency := Some 8;
                userAgent := "Mozilla/5.0 (Linux; Android 13; Pixel 7) Mobile Safari" |} in
  DeviceProfile.availableMemoryGB (fst (detectCapabilities nav)) = 2%Q
  /\ snd (detectCapabilities nav) = "llm-small-q4"%string.
Proof.
  intros nav.
  destruct (detectCapabilities_fallbacks nav eq_refl) as (Hmem & _).
  split; [exact Hmem | reflexivity].
Defined.

(** X15. Whatever [selectRecommendedModel] returns names an entry of the
    manifest of the source, and that entry is a seed exactly when the seed
    model is recommended; the other entries carry a URL. So on a device that
    is recommended the seed model, [startBackgroundModelFetch] only logs that
    there is nothing to fetch. *)
Theorem recommendation_in_manifest (env : Env) (profile : DeviceProfile)
    (capabilities : DeviceCapabilities) (w : World) :
  DeviceCapabilities.recommendedModel capabilities = selectRecommendedModel profile ->
  exists model,
    recommended DEFAULT_MANIFEST.models capabilities = Some model
    /\ ModelMetadata.id model = selectRecommendedModel profile
    /\ (ModelMetadata.isSeed model = true
        <-> selectRecommendedModel profile = "llm-seed-q8"%string)
    /\ (ModelMetadata.isSeed model = false ->
        exists c u, ModelMetadata.url model = Some (String c u))
    /\ (selectRecommendedModel profile = "llm-seed-q8"%string ->
        startBackgroundModelFetch env DEFAULT_MANIFEST.models capabilities w =
        (Ok tt, logged LogLevel "[ModelManager] No additional models to fetch" w)).
Proof.
  intros Hrec. rewrite startBackgroundModelFetch_run.
  unfold background_outcome, recommended. rewrite Hrec.
  destruct (selectRecommendedModel_cases profile) as [-> | [-> | ->]];
    (eexists; split; [reflexivity|]; split; [reflexivity|]);
    cbn [ModelMetadata.isSeed ModelMetadata.url].
  - split; [split; discriminate|]. split; [|discriminate].
    intros _. eexists _, _. reflexivity.
  - split; [split; discriminate|]. split; [|discriminate].
    intros _. eexists _, _. reflexivity.
  - split; [split; reflexivity|]. split; [discriminate|].
    intros _. reflexivity.
Qed.

Lemma recommendation_in_manifest_witness :
  let low_end := DeviceProfile.mk false false 1 2 true in
  let caps := DeviceCapabilities.mk false false 1 2 true (selectRecommendedModel low_end) in
  startBackgroundModelFetch abc_with_length DEFAULT_MANIFEST.models caps empty_world =
  (Ok tt, logged LogLevel "[ModelManager] No additional models to fetch" empty_world).
Proof.
  intros low_end caps.
  destruct (recommendation_in_manifest abc_with_length low_end caps empty_world eq_refl)
    as (model & _ & _ & _ & _ & Hnoop).
  apply Hnoop. reflexivity.
Defined.

(* ===================================================================== *)
(** * The runtime instances *)
(* ===================================================================== *)

Lemma loadModelForInference_run (modelId : string) (w : World) :
  loadModelForInference modelId w =
  (match models w !! modelId with
   | None => Throw (JsError ("Model not found: " +:+ modelId))
   | Some r =>
       if verifyChecksum (ModelRecord.blob r) (ModelMetadata.checksum (ModelRecord.metadata r))
       then Ok (ModelRecord.blob r)
       else Throw (JsError ("Model integrity check failed: " +:+ modelId))
   end, w).
Proof.
  unfold loadModelForInference, bind, getModel, getModelMetadata.
  destruct (models w !! modelId) as [r|] eqn:Hr; cbn [fmap option_fmap option_map];
    [|reflexivity].
  rewrite Hr; cbn [fmap option_fmap option_map].
  destruct (verifyChecksum _ _); reflexivity.
Qed.

Lemma initLLMRuntime_run (modelId : string) (rt : Runtime) (w : World) :
  llamaInstance rt = None ->
  initLLMRuntime modelId rt w =
  let w1 := logged LogLevel ("[WASM] Initializing LLM runtime with model: " +:+ modelId) w in
  match fst (loadModelForInference modelId w) with
  | Ok blob =>
      (Ok tt, llm_started blob rt,
       logged LogLevel "[WASM] LLM runtime initialized"
         (logged LogLevel
            ("[WASM Mock] Loading LLM model (" +:+ Z_to_string (Blob_size blob) +:+ " bytes)")
            w1))
  | Throw e => (Throw e, rt, logged ErrorLevel "[WASM] Failed to initialize LLM runtime:" w1)
  end.
Proof.
  intros Hnone. unfold initLLMRuntime. rewrite Hnone. cbv zeta.
  unfold bind. rewrite !loadModelForInference_run. cbn [fst].
  change (models (snd (console_call LogLevel
            ("[WASM] Initializing LLM runtime with model: " +:+ modelId) w)))
    with (models w).
  destruct (models w !! modelId) as [r|]; [|reflexivity].
  destruct (verifyChecksum _ _); reflexivity.
Qed.

(** X16. An LLM runtime is only ever created from a stored model whose bytes
    hash to the stored checksum. Starting without an instance,
    [initLLMRuntime] installs an instance for the stored blob exactly when
    the store holds the model and its bytes verify, whatever the record's
    [verified] flag says; otherwise it rethrows the error of
    [loadModelForInference], logs the failure and leaves the instance null.
    It touches neither the stores, the events, the network nor the STT
    instance. *)
Theorem initLLMRuntime_from_verified_model (modelId : string) (rt : Runtime) (w : World) :
  llamaInstance rt = None ->
  let result := fst (fst (initLLMRuntime modelId rt w)) in
  let rt' := snd (fst (initLLMRuntime modelId rt w)) in
  let w' := snd (initLLMRuntime modelId rt w) in
  same_but_console w w'
  /\ whisperInstance rt' = whisperInstance rt
  /\ match result with
     | Ok _ =>
         exists r, models w !! modelId = Some r
           /\ verifyChecksum (ModelRecord.blob r)
                (ModelMetadata.checksum (ModelRecord.metadata r)) = true
           /\ llamaInstance rt' = Some {| llama_model := ModelRecord.blob r |}
           /\ last (console w') = Some (LogLevel, "[WASM] LLM runtime initialized"%string)
     | Throw e =>
         rt' = rt
         /\ fst (loadModelForInference modelId w) = Throw e
         /\ last (console w') =
            Some (ErrorLevel, "[WASM] Failed to initialize LLM runtime:"%string)
     end.
Proof.
  intros Hnone. cbv zeta. rewrite (initLLMRuntime_run _ _ _ Hnone).
  rewrite loadModelForInference_run. unfold llm_started. cbn [fst].
  destruct (models w !! modelId) as [r|] eqn:Hr.
  - destruct (verifyChecksum _ _) eqn:Hv; cbn [fst snd whisperInstance llamaInstance].
    + split; [repeat split|]. split; [reflexivity|].
      exists r. split; [reflexivity|]. split; [exact Hv|]. split; [reflexivity|].
      apply last_snoc.
    + split; [repeat split|]. split; [reflexivity|].
      split; [reflexivity|]. split; [reflexivity|]. apply last_snoc.
  - cbn [fst snd]. split; [repeat split|]. split; [reflexivity|].
    split; [reflexivity|]. split; [reflexivity|]. apply last_snoc.
Qed.

Lemma initLLMRuntime_from_verified_model_witness :
  same_but_console abc_stored (snd (initLLMRuntime "llm-small-q4" no_runtime abc_stored)).
Proof.
  exact (proj1 (initLLMRuntime_from_verified_model "llm-small-q4" no_runtime abc_stored eq_refl)).
Defined.

(** X17. The first model stays: once [initLLMRuntime] has returned, a later
    call for any model, in any state of the store, returns without reading
    the store and leaves the runtime as it is; the instance is not switched
    to the model asked for. Only [cleanupWASMRuntime] resets the instances. *)
Theorem initLLMRuntime_first_model_stays (modelId other : string) (rt rt1 : Runtime)
    (w w1 w2 : World) :
  initLLMRuntime modelId rt w = (Ok tt, rt1, w1) ->
  initLLMRuntime other rt1 w2 =
  (Ok tt, rt1, logged LogLevel "[WASM] LLM runtime already initialized" w2)
  /\ cleanupWASMRuntime rt1 w2 =
     ({| llamaInstance := None; whisperInstance := None |},
      logged LogLevel "[WASM] Runtime cleaned up"
        (match whisperInstance rt1 with
         | Some _ => logged LogLevel "[WASM Mock] STT freed"
         | None => fun w => w
         end (logged LogLevel "[WASM Mock] LLM freed" w2))).
Proof.
  intros Hinit.
  assert (exists instance, llamaInstance rt1 = Some instance) as [instance Hsome].
  { unfold initLLMRuntime in Hinit.
    destruct (llamaInstance rt) as [instance|] eqn:Hrt.
    - injection Hinit as <- _. eauto.
    - destruct (bind _ _ _) as [[instance|e] w'].
      + injection Hinit as <- _. cbn. eauto.
      + discriminate. }
  unfold initLLMRuntime, cleanupWASMRuntime. rewrite Hsome.
  split; [reflexivity|]. destruct (whisperInstance rt1); reflexivity.
Qed.

Lemma initLLMRuntime_first_model_stays_witness :
  let rt1 := {| llamaInstance := Some {| llama_model := bytes_of_string "abc" |};
                whisperInstance := None |} in
  initLLMRuntime "llm-medium-q4" rt1 empty_world =
  (Ok tt, rt1, logged LogLevel "[WASM] LLM runtime already initialized" empty_world).
Proof.
  intros rt1.
  refine (proj1 (initLLMRuntime_first_model_stays "llm-small-q4" "llm-medium-q4" no_runtime rt1
                   abc_stored _ empty_world _)).
  vm_compute. reflexivity.
Defined.

(* ===================================================================== *)
(** * [String.prototype.includes] *)
(* ===================================================================== *)

Lemma prefix_spec (needle s : string) :
  String.prefix needle s = true <-> exists post, s = needle +:+ post.
Proof.
  revert s. induction needle as [|c needle IH]; intros s.
  - split; [intros _; now exists s | intros _; destruct s; reflexivity].
  - destruct s as [|d s]; cbn [String.prefix].
    + split; [discriminate | intros [post Hpost]; discriminate].
    + destruct (Ascii.ascii_dec c d) as [<- | Hne].
      * rewrite IH. split; intros [post Hpost]; exists post.
        -- cbn. now rewrite Hpost.
        -- cbn in Hpost. now injection Hpost.
      * split; [discriminate|]. intros [post Hpost]. cbn in Hpost. injection Hpost as -> _.
        contradiction.
Qed.

Lemma includes_spec (needle s : string) :
  includes needle s = true <-> exists pre post, s = pre +:+ needle +:+ post.
Proof.
  induction s as [|d s IH]; cbn [includes]; rewrite orb_true_iff, prefix_spec.
  - split.
    + intros [[post Hpost] | H]; [|discriminate]. now exists EmptyString, post.
    + intros (pre & post & H). left. destruct pre; [|discriminate]. now exists post.
  - rewrite IH. split.
    + intros [[post Hpost] | (pre & post & Hpost)].
      * now exists EmptyString, post.
      * exists (String d pre), post. cbn. now rewrite Hpost.
    + intros ([|c pre] & post & H).
      * left. now exists post.
      * right. cbn in H. injection H as -> ->. now exists pre, post.
Qed.

(* ===================================================================== *)
(** * The fallback heuristics *)
(* ===================================================================== *)

(** X18. The fallback classification never yields [emergency]: a text that
    mentions an emergency is classified [urgent], like one that mentions
    urgent or immediate, and every other text is [routine], whether it
    mentions routine or a follow-up or not. *)
Theorem extractAcuteness_never_emergency (text : string) :
  extractAcuteness text <> emergency
  /\ ((exists before after, toLowerCase text = before +:+ "emergency" +:+ after) ->
      extractAcuteness text = urgent)
  /\ (extractAcuteness text = routine <->
      includes "emergency" (toLowerCase text) = false
      /\ includes "urgent" (toLowerCase text) = false
      /\ includes "immediate" (toLowerCase text) = false).
Proof.
  rewrite <- includes_spec. unfold extractAcuteness. cbv zeta.
  destruct (includes "emergency" _), (includes "urgent" _), (includes "immediate" _);
    cbn [orb];
    (split; [try discriminate; destruct (_ || _); discriminate|]);
    (split; [try reflexivity; discriminate|]);
    (split; [try discriminate; intros _; auto | intros (? & ? & ?); try discriminate]).
  destruct (_ || _); reflexivity.
Qed.

(* ===================================================================== *)
(** * The licence check *)
(* ===================================================================== *)

Lemma redistributable_at (redistributable : list bool) (index : nat) :
  default false (redistributable !! index) = true <-> redistributable !! index = Some true.
Proof.
  destruct (redistributable !! index) as [[|]|]; cbn; split; congruence.
Qed.

Lemma restricted_not_allowed (license : string) :
  license ∈ RESTRICTED_LICENSES -> license ∉ ALLOWED_LICENSES.
Proof.
  unfold RESTRICTED_LICENSES. intros Hr.
  repeat (apply elem_of_cons in Hr as [-> | Hr]);
    [intros Ha; apply (bool_decide_eq_true_2 _) in Ha; vm_compute in Ha; discriminate ..
    | now apply elem_of_nil in Hr].
Qed.

Lemma forEach_license_errors (licenses : list string) (index : nat)
    (redistributable : list bool) (report : LicenseReport) :
  hasErrors (forEach_license licenses index redistributable report) = true <->
  hasErrors report = true
  \/ exists k license,
       licenses !! k = Some license
       /\ redistributable !! (index + k)%nat = Some true
       /\ unknown_license license.
Proof.
  revert index report. induction licenses as [|license rest IH]; intros index report.
  - cbn [forEach_license]. split; [auto|]. intros [H | (k & l & H & _)]; [exact H|].
    rewrite lookup_nil in H. discriminate.
  - cbn [forEach_license]. rewrite IH. unfold check_license, Array_includes.
    split.
    + intros [H | (k & l & Hk & Hr & Hu)].
      * destruct (default false _) eqn:Hd; cbn [andb] in H; [|auto].
        destruct (bool_decide (license ∈ ALLOWED_LICENSES)) eqn:Ha; cbn [negb] in H; [auto|].
        destruct (bool_decide (license ∈ RESTRICTED_LICENSES)) eqn:Hre; cbn in H; [auto|].
        right. exists 0%nat, license. rewrite Nat.add_0_r.
        apply redistributable_at in Hd.
        apply bool_decide_eq_false in Ha, Hre. repeat split; assumption.
      * right. exists (S k), l. replace (index + S k)%nat with (S index + k)%nat by lia.
        auto.
    + intros [H | (k & l & Hk & Hr & Hu)].
      * left. destruct (_ && _); [|exact H]. destruct (bool_decide _); [exact H|reflexivity].
      * destruct k as [|k].
        -- cbn in Hk. injection Hk as ->. rewrite Nat.add_0_r in Hr.
           left. apply redistributable_at in Hr. rewrite Hr. destruct Hu as [Ha Hre].
           rewrite (bool_decide_eq_false_2 _ Ha), (bool_decide_eq_false_2 _ Hre).
           reflexivity.
        -- right. exists k, l. replace (S index + k)%nat with (index + S k)%nat by lia.
           auto.
Qed.

Lemma forEach_license_warnings (licenses : list string) (index : nat)
    (redistributable : list bool) (report : LicenseReport) :
  warnings (forEach_license licenses index redistributable report) = [] <->
  warnings report = []
  /\ forall k license,
       licenses !! k = Some license ->
       redistributable !! (index + k)%nat = Some true ->
       license ∉ RESTRICTED_LICENSES.
Proof.
  revert index report. induction licenses as [|license rest IH]; intros index report.
  - cbn [forEach_license]. split; [|tauto]. intros H. split; [exact H|].
    intros k l Hk. rewrite lookup_nil in Hk. discriminate.
  - cbn [forEach_license]. rewrite IH. unfold check_license, Array_includes.
    split.
    + intros [Hw Hrest].
      destruct (default false _) eqn:Hd; cbn [andb] in Hw.
      * destruct (bool_decide (license ∈ ALLOWED_LICENSES)) eqn:Ha; cbn [negb] in Hw.
        -- split; [exact Hw|]. intros [|k] l Hk Hr.
           ++ cbn in Hk. injection Hk as <-. apply bool_decide_eq_true in Ha.
              intros Hre. now apply restricted_not_allowed in Hre.
           ++ apply (Hrest k l Hk).
              now replace (S index + k)%nat with (index + S k)%nat by lia.
        -- destruct (bool_decide (license ∈ RESTRICTED_LICENSES)) eqn:Hre; cbn in Hw.
           ++ destruct (warnings report); discriminate.
           ++ split; [exact Hw|]. intros [|k] l Hk Hr.
              ** cbn in Hk. injection Hk as <-. now apply bool_decide_eq_false in Hre.
              ** apply (Hrest k l Hk).
                 now replace (S index + k)%nat with (index + S k)%nat by lia.
      * split; [exact Hw|]. intros [|k] l Hk Hr.
        -- rewrite Nat.add_0_r in Hr. rewrite Hr in Hd. discriminate.
        -- apply (Hrest k l Hk).
           now replace (S index + k)%nat with (index + S k)%nat by lia.
    + intros [Hw Hall]. split.
      * destruct (default false _) eqn:Hd; cbn [andb]; [|exact Hw].
        destruct (bool_decide (license ∈ ALLOWED_LICENSES)) eqn:Ha; cbn [negb]; [exact Hw|].
        apply redistributable_at in Hd.
        specialize (Hall 0%nat license eq_refl). rewrite Nat.add_0_r in Hall.
        specialize (Hall Hd). rewrite (bool_decide_eq_false_2 _ Hall). exact Hw.
      * intros k l Hk Hr. apply (Hall (S k) l Hk).
        now replace (index + S k)%nat with (S index + k)%nat by lia.
Qed.

(** X19. The licence check fails the build exactly when some model is marked
    redistributable while its licence is neither in the allowed nor in the
    restricted list; it passes without warnings exactly when, besides, no
    redistributable model has a restricted licence. A model that is not
    marked redistributable, or whose flag is missing, is accepted whatever
    its licence. *)
Theorem verify_licenses_verdict (licenses : list string) (redistributable : list bool) :
  let report := verify_licenses licenses redistributable in
  (exit_code report = 1 <->
   exists index license,
     licenses !! index = Some license
     /\ redistributable !! index = Some true
     /\ unknown_license license)
  /\ (exit_code report = 0 /\ warnings report = [] <->
      forall index license,
        licenses !! index = Some license ->
        redistributable !! index = Some true ->
        license ∈ ALLOWED_LICENSES).
Proof.
  cbv zeta. unfold verify_licenses, exit_code.
  pose proof (forEach_license_errors licenses 0 redistributable
                {| hasErrors := false; warnings := [] |}) as He.
  pose proof (forEach_license_warnings licenses 0 redistributable
                {| hasErrors := false; warnings := [] |}) as Hw.
  cbn [hasErrors warnings Nat.add] in He, Hw.
  split.
  - destruct (hasErrors _).
    + split; [intros _|reflexivity]. destruct (proj1 He eq_refl) as [H|H]; [discriminate|exact H].
    + split; [discriminate|]. intros H. assert (false = true) by (apply He; auto).
      discriminate.
  - split.
    + intros [Hexit Hnil] index license Hl Hr.
      destruct (decide (license ∈ ALLOWED_LICENSES)) as [Ha|Ha]; [exact Ha|].
      exfalso. apply Hw in Hnil as [_ Hnil]. specialize (Hnil index license Hl Hr).
      destruct (hasErrors _); [discriminate|].
      assert (false = true); [|discriminate].
      apply He. right. exists index, license. repeat split; assumption.
    + intros Hall. split.
      * destruct (hasErrors _); [|reflexivity].
        destruct (proj1 He eq_refl) as [H | (index & license & Hl & Hr & Ha & _)];
          [discriminate|].
        exfalso. apply Ha. eauto.
      * apply Hw. split; [reflexivity|]. intros index license Hl Hr Hre.
        apply restricted_not_allowed in Hre. apply Hre. eauto.
Qed.

(** The licences and flags of the manifest of the source pass without a
    warning: the one restricted licence is not marked redistributable. *)
Example default_manifest_licenses :
  verify_licenses (ModelMetadata.license <$> DEFAULT_MANIFEST.models)
                  (ModelMetadata.redistributable <$> DEFAULT_MANIFEST.models)
  = {| hasErrors := false; warnings := [] |}.
Proof. reflexivity. Qed.

(** Marked redistributable, the same manifest draws a warning for the third
    model and still passes. *)
Example restricted_license_warns :
  verify_licenses (ModelMetadata.license <$> DEFAULT_MANIFEST.models)
                  [true; true; true; true; true]
  = {| hasErrors := false;
       warnings := ["Model 3 should be marked as redistributable: false"%string] |}.
Proof. vm_compute. reflexivity. Qed.

(* ===================================================================== *)
(** * The [referrals] store *)
(* ===================================================================== *)












Section Referrals.

Variable wc : WebCrypto.
Hypothesis cipher_correct : aes_gcm_correct wc.
Variable json : JSON.

Lemma open_saved (salt iv : Uint8Array) (referral : ReferralOutput) (timestamp : Z) :
  well_formed (stringify json referral) = true ->
  no_leading_bom (stringify json referral) = true ->
  open_record wc json
    (ReferralRecord.mk (ReferralOutput.id referral)
       (encrypt wc salt iv (stringify json referral)) timestamp)
  = parse json (stringify json referral).
Proof.
  intros Hwf Hbom. unfold open_record. cbn [ReferralRecord.encrypted].
  rewrite (decrypt_encrypt_decoded wc cipher_correct).
  now rewrite TextDecoder_TextEncoder.
Qed.

End Referrals.

(** X21. What [saveReferral] stores, [getReferral] gives back: after a
    referral has been saved, reading its id yields the parse of its JSON text,
    for every salt and iv, although [decrypt] does not invert [encrypt] on
    every string. Asked of the JSON text is that it is well-formed UTF-16
    and does not begin with U+FEFF, as [JSON.stringify] guarantees. The other
    ids read as before, an id that is not stored reads as [null], and after
    [deleteReferral] the id reads as [null]. *)
Theorem getReferral_saveReferral (wc : WebCrypto) (json : JSON) (salt iv : Uint8Array)
    (referral : ReferralOutput) (db : ReferralStore) :
  aes_gcm_correct wc ->
  well_formed (stringify json referral) = true ->
  no_leading_bom (stringify json referral) = true ->
  let id := ReferralOutput.id referral in
  let db' := saveReferral wc json salt iv referral db in
  getReferral wc json id db' = Some <$> parse json (stringify json referral)
  /\ (forall other, other <> id -> getReferral wc json other db' = getReferral wc json other db)
  /\ (forall other, db !! other = None -> getReferral wc json other db = Some None)
  /\ getReferral wc json id (deleteReferral id db') = Some None.
Proof.
  intros Hcipher Hwf Hbom. unfold getReferral, saveReferral, deleteReferral. cbv zeta.
  split; [|split; [|split]].
  - rewrite lookup_insert_eq. rewrite (open_saved wc Hcipher) by assumption.
    destruct (parse json _); reflexivity.
  - intros other Hother. now rewrite lookup_insert_ne by congruence.
  - intros other ->. reflexivity.
  - now rewrite lookup_delete_eq.
Qed.

Lemma getReferral_saveReferral_witness :
  getReferral tagging_cipher chest_pain_json "r-1"
    (saveReferral tagging_cipher chest_pain_json (repeat "s"%byte 16) (repeat "i"%byte 12)
       chest_pain ∅)
  = Some (Some chest_pain).
Proof.
  exact (proj1 (getReferral_saveReferral tagging_cipher chest_pain_json (repeat "s"%byte 16)
                  (repeat "i"%byte 12) chest_pain ∅ tagging_cipher_correct eq_refl eq_refl)).
Defined.



(* ===================================================================== *)
(** * What the manager lists can be loaded *)
(* ===================================================================== *)

Section StoreInvariant.

Variable I : World -> Prop.
Hypothesis I_put : forall w w', verified_put w w' -> I w -> I w'.

Lemma logged_keeps (l : ConsoleLevel) (msg : string) (w : World) : I w -> I (logged l msg w).
Proof. apply I_put. now left. Qed.

Lemma ensure_loop_keeps (env : Env) (seeds : list ModelMetadata) (w : World) :
  I w -> I (snd (for_of seeds (ensure_seed env) w)).
Proof.
  revert w. induction seeds as [|model seeds IH]; intros w Hw; [exact Hw|].
  rewrite for_of_cons. destruct (ensure_seed_put env model w) as (Hput & _).
  destruct (ensure_seed env model w) as [[[]|e] w']; cbn [snd] in *.
  - apply IH. now apply (I_put w w').
  - now apply (I_put w w').
Qed.

Lemma startBackgroundModelFetch_keeps (env : Env) (manifest : list ModelMetadata)
    (capabilities : DeviceCapabilities) (w : World) :
  I w -> I (snd (startBackgroundModelFetch env manifest capabilities w)).
Proof.
  intros Hw. rewrite startBackgroundModelFetch_run. unfold background_outcome.
  destruct (recommended manifest capabilities) as [model|]; [|now apply logged_keeps].
  destruct (ModelMetadata.isSeed model); [now apply logged_keeps|].
  destruct (ready_in _ w); [now apply logged_keeps|].
  destruct (match storage_estimate env with Some _ => _ | None => _ end);
    [|now apply logged_keeps].
  cbv zeta. cbn [snd].
  match goal with
  | |- context [downloadModelInBackground env model ?w0] =>
      assert (Hdl : I (snd (downloadModelInBackground env model w0)))
        by (apply (I_put w0); [apply download_put | now apply logged_keeps])
  end.
  destruct (fst (downloadModelInBackground env model _)); [exact Hdl|].
  now apply logged_keeps.
Qed.

Lemma initializeModelManager_keeps (env : Env) (manifest : list ModelMetadata)
    (capabilities : DeviceCapabilities) (w : World) :
  I w -> I (snd (initializeModelManager env manifest capabilities w)).
Proof.
  intros Hw. rewrite initializeModelManager_run, ensureSeedModels_loop.
  match goal with
  | |- context [for_of ?seeds _ ?w0] =>
      assert (Hseeds : I (snd (for_of seeds (ensure_seed env) w0)))
        by (apply ensure_loop_keeps; do 2 apply logged_keeps; exact Hw)
  end.
  destruct (for_of _ _ _) as [[[]|e] w']; cbn [snd] in Hseeds |- *; [|exact Hseeds].
  now apply startBackgroundModelFetch_keeps.
Qed.

End StoreInvariant.

Lemma store_keyed_empty : store_keyed empty_world.
Proof. intros id r H. cbn in H. now rewrite lookup_empty in H. Qed.

Lemma store_keyed_put (w w' : World) : verified_put w w' -> store_keyed w -> store_keyed w'.
Proof.
  intros [Hsame | (metadata & blob & _ & Hput)] Hinv id r Hr.
  - rewrite Hsame in Hr. now apply Hinv.
  - rewrite Hput, lookup_insert in Hr.
    destruct (decide (ModelMetadata.id metadata = id)) as [<-|Hne].
    + injection Hr as <-. reflexivity.
    + now apply Hinv.
Qed.

Lemma getAllModels_elem_of (w : World) (metadata : ModelMetadata) :
  metadata ∈ ModelRecord.metadata <$> (snd <$> map_to_list (models w)) <->
  exists id r, models w !! id = Some r /\ ModelRecord.metadata r = metadata.
Proof.
  rewrite list_elem_of_fmap. split.
  - intros (r & -> & Hr). apply list_elem_of_fmap in Hr as ([id r'] & -> & Hin).
    apply elem_of_map_to_list in Hin. eauto.
  - intros (id & r & Hr & <-). exists r. split; [reflexivity|].
    apply list_elem_of_fmap. exists (id, r). split; [reflexivity|].
    now apply elem_of_map_to_list.
Qed.

(** X23. What the manager lists can be loaded. Starting from a [models]
    store whose records are verified and sit under the id of their metadata
    (the empty store is one), after [initializeModelManager] every model that
    [getAvailableModels] lists is reported ready by [checkModelReady],
    [loadModelForInference] returns for it a blob that hashes to the listed
    checksum, and [initLLMRuntime] succeeds on it. *)
Theorem available_models_load (env : Env) (manifest : list ModelMetadata)
    (capabilities : DeviceCapabilities) (w : World) :
  store_verified w -> store_keyed w ->
  let w' := snd (initializeModelManager env manifest capabilities w) in
  forall listed metadata,
    fst (getAvailableModels w') = Ok listed -> metadata ∈ listed ->
    fst (checkModelReady (ModelMetadata.id metadata) w') = Ok true
    /\ (exists blob,
          loadModelForInference (ModelMetadata.id metadata) w' = (Ok blob, w')
          /\ verifyChecksum blob (ModelMetadata.checksum metadata) = true)
    /\ fst (fst (initLLMRuntime (ModelMetadata.id metadata) no_runtime w')) = Ok tt.
Proof.
  intros Hverified Hkeyed w' listed metadata Hlisted Hin.
  assert (Hv' : store_verified w').
  { apply (initializeModelManager_keeps store_verified); [|exact Hverified].
    intros w0 w1 Hput H0. now apply (store_verified_step w0 w1). }
  assert (Hk' : store_keyed w').
  { apply (initializeModelManager_keeps store_keyed); [|exact Hkeyed].
    exact store_keyed_put. }
  clearbody w'. injection Hlisted as <-.
  apply getAllModels_elem_of in Hin as (id & r & Hr & <-).
  rewrite (Hk' id r Hr). destruct (Hv' id r Hr) as (Hflag & Hsum & _).
  split; [|split].
  - unfold checkModelReady, isModelReady. cbn [fst]. now rewrite Hr, Hflag.
  - exists (ModelRecord.blob r). rewrite loadModelForInference_run, Hr, Hsum. auto.
  - rewrite initLLMRuntime_run by reflexivity.
    rewrite loadModelForInference_run, Hr, Hsum. reflexivity.
Qed.

Lemma available_models_load_witness :
  let w' := snd (initializeModelManager abc_with_length [seed_descriptor; abc_descriptor]
                   mid_range_device empty_world) in
  fst (checkModelReady "llm-small-q4" w') = Ok true
  /\ (exists blob,
        loadModelForInference "llm-small-q4" w' = (Ok blob, w')
        /\ verifyChecksum blob sha256_of_abc = true)
  /\ fst (fst (initLLMRuntime "llm-small-q4" no_runtime w')) = Ok tt.
Proof.
  refine (available_models_load abc_with_length [seed_descriptor; abc_descriptor]
            mid_range_device empty_world store_verified_empty store_keyed_empty
            _ abc_descriptor eq_refl _).
  apply getAllModels_elem_of.
  exists "llm-small-q4"%string,
    (ModelRecord.mk "llm-small-q4" abc_descriptor (bytes_of_string "abc") true).
  split; [vm_compute|]; reflexivity.
Defined.

(* ===================================================================== *)
(** * Room for a model *)
(* ===================================================================== *)

(** X24. [checkStorageAvailability], asked for a size in bytes expressed in
    megabytes as [startBackgroundModelFetch] does, loses nothing to the
    division: it answers true exactly when the size is at most the quota
    minus the usage that [getStorageEstimate] reports, to the byte. Without
    the estimate API it answers true, although [getStorageEstimate] then
    reports a quota of 0. It changes nothing. *)
Theorem checkStorageAvailability_exact (env : Env) (size : Z) (w : World) :
  exists answer report,
    checkStorageAvailability env (num_div (num_of_Z size) MiB) w = (Ok answer, w)
    /\ getStorageEstimate env w = (Ok report, w)
    /\ match storage_estimate env with
       | Some _ =>
           answer = true <-> size <= StorageUsage.quota report - StorageUsage.usage report
       | None => answer = true /\ StorageUsage.quota report = 0
       end.
Proof.
  rewrite checkStorageAvailability_spec. unfold getStorageEstimate, ret.
  destruct (storage_estimate env) as [estimate|].
  - eexists _, _. split; [reflexivity|]. split; [reflexivity|].
    cbn [StorageUsage.quota StorageUsage.usage]. fold (headroom estimate).
    apply bool_decide_eq_true.
  - eexists _, _. split; [reflexivity|]. split; [reflexivity|]. split; reflexivity.
Qed.

(* ===================================================================== *)
(** * The two runtimes *)
(* ===================================================================== *)

Lemma initSTTRuntime_run (modelId : string) (rt : Runtime) (w : World) :
  whisperInstance rt = None ->
  initSTTRuntime modelId rt w =
  let w1 := logged LogLevel ("[WASM] Initializing STT runtime with model: " +:+ modelId) w in
  match fst (loadModelForInference modelId w) with
  | Ok blob =>
      (Ok tt, stt_started blob rt,
       logged LogLevel "[WASM] STT runtime initialized"
         (logged LogLevel
            ("[WASM Mock] Loading STT model (" +:+ Z_to_string (Blob_size blob) +:+ " bytes)")
            w1))
  | Throw e => (Throw e, rt, logged ErrorLevel "[WASM] Failed to initialize STT runtime:" w1)
  end.
Proof.
  intros Hnone. unfold initSTTRuntime. rewrite Hnone. cbv zeta.
  unfold bind. rewrite !loadModelForInference_run. cbn [fst].
  change (models (snd (console_call LogLevel
            ("[WASM] Initializing STT runtime with model: " +:+ modelId) w)))
    with (models w).
  destruct (models w !! modelId) as [r|]; [|reflexivity].
  destruct (verifyChecksum _ _); reflexivity.
Qed.

Lemma loadModelForInference_logged (modelId : string) (l : ConsoleLevel) (msg : string)
    (w : World) :
  fst (loadModelForInference modelId (logged l msg w)) = fst (loadModelForInference modelId w).
Proof. now rewrite !loadModelForInference_run. Qed.

(** X25. The two runtimes do not interfere. Started in either order from a
    state without instances, [initLLMRuntime] and [initSTTRuntime] have the
    same two results and leave the same pair of instances, and the worlds
    differ from the initial one in the console only. Each of the two succeeds
    exactly when [loadModelForInference] returns for its model, whatever the
    type of the model. *)
Theorem runtimes_independent (llmId sttId : string) (w : World) :
  let llm_first := initLLMRuntime llmId no_runtime w in
  let stt_second := initSTTRuntime sttId (snd (fst llm_first)) (snd llm_first) in
  let stt_first := initSTTRuntime sttId no_runtime w in
  let llm_second := initLLMRuntime llmId (snd (fst stt_first)) (snd stt_first) in
  fst (fst llm_second) = fst (fst llm_first)
  /\ fst (fst stt_second) = fst (fst stt_first)
  /\ snd (fst llm_second) = snd (fst stt_second)
  /\ same_but_console w (snd llm_second)
  /\ same_but_console w (snd stt_second)
  /\ (fst (fst llm_first) = Ok tt <-> exists blob, fst (loadModelForInference llmId w) = Ok blob)
  /\ (fst (fst stt_first) = Ok tt <-> exists blob, fst (loadModelForInference sttId w) = Ok blob).
Proof.
  cbv zeta.
  rewrite (initLLMRuntime_run llmId no_runtime w eq_refl).
  rewrite (initSTTRuntime_run sttId no_runtime w eq_refl). cbv zeta.
  destruct (fst (loadModelForInference llmId w)) as [llm|e1] eqn:Hllm;
    destruct (fst (loadModelForInference sttId w)) as [stt|e2] eqn:Hstt;
    cbn [fst snd];
    rewrite initLLMRuntime_run by reflexivity; rewrite initSTTRuntime_run by reflexivity;
    cbv zeta;
    rewrite !loadModelForInference_logged, ?Hllm, ?Hstt;
    cbn [fst snd];
    (split; [reflexivity|]); (split; [reflexivity|]); (split; [reflexivity|]);
    (split; [repeat split|]); (split; [repeat split|]);
    split; split; try (intros _; eauto; fail); try discriminate;
    try (intros [blob Hblob]; discriminate); intros _; reflexivity.
Qed.
